(** * The streaming JSON lexer of qobject/json-lexer.c

    A shallow embedding of the lexer's transition table and of its driver
    ([json_lexer_feed_char], [json_lexer_feed], [json_lexer_flush]), with
    the properties of the tokens it hands to its consumer. *)

From Stdlib Require Import ZArith List Bool Ascii String Lia.
Import ListNotations.

Local Open Scope Z_scope.

(** ** Lexer states: [enum json_lexer_state] *)

Definition IN_ERROR : Z := 0.
Definition IN_DQ_STRING_ESCAPE : Z := 1.
Definition IN_DQ_STRING : Z := 2.
Definition IN_SQ_STRING_ESCAPE : Z := 3.
Definition IN_SQ_STRING : Z := 4.
Definition IN_ZERO : Z := 5.
Definition IN_EXP_DIGITS : Z := 6.
Definition IN_EXP_SIGN : Z := 7.
Definition IN_EXP_E : Z := 8.
Definition IN_MANTISSA : Z := 9.
Definition IN_MANTISSA_DIGITS : Z := 10.
Definition IN_DIGITS : Z := 11.
Definition IN_SIGN : Z := 12.
Definition IN_KEYWORD : Z := 13.
Definition IN_INTERP : Z := 14.
Definition IN_WHITESPACE : Z := 15.
Definition IN_START : Z := 16.
Definition IN_START_INTERP : Z := 17.

(** ** Token tags: [enum json_token_type] *)

(** Modelled from the spec: the token tags are declared in
    qapi/qmp/json-lexer.h, which is not among the sources.  They are
    numbered consecutively from [JSON_MIN], above every lexer state, as the
    source's [QEMU_BUILD_BUG_ON((int)JSON_MIN <= (int)IN_START_INTERP)]
    demands, and every tag fits the table's [uint8_t] cells. *)
Definition JSON_MIN : Z := 100.
Definition JSON_LCURLY : Z := JSON_MIN.
Definition JSON_RCURLY : Z := 101.
Definition JSON_LSQUARE : Z := 102.
Definition JSON_RSQUARE : Z := 103.
Definition JSON_COLON : Z := 104.
Definition JSON_COMMA : Z := 105.
Definition JSON_INTEGER : Z := 106.
Definition JSON_FLOAT : Z := 107.
Definition JSON_KEYWORD : Z := 108.
Definition JSON_STRING : Z := 109.
Definition JSON_INTERP : Z := 110.
Definition JSON_SKIP : Z := 111.
Definition JSON_ERROR : Z := 112.
Definition JSON_END_OF_INPUT : Z := 113.

Definition MAX_TOKEN_SIZE : Z := Z.shiftl 64 20.

(** ** Characters *)

(** [(uint8_t)ch] *)
Definition uint8 (ch : ascii) : Z := Z.of_N (N_of_ascii ch).

(** The character constants of the source that a Rocq character literal
    cannot spell directly. *)
Definition DQUOTE : ascii := "034"%char.
Definition SQUOTE : ascii := "'"%char.
Definition BACKSLASH : ascii := "\"%char.
Definition TAB : ascii := "009"%char.
Definition CR : ascii := "013"%char.
Definition LF : ascii := "010"%char.
Definition NUL : ascii := "000"%char.

(** ** The transition table [json_lexer[][256]]

    The table is written in the source with designated initialisers.  A
    cell initialiser [[lo ... hi] = v] is kept as the triple [(lo, hi, v)];
    a row is the list of its initialisers in source order, and a later
    initialiser overrides an earlier one.  Cells that no initialiser names
    are zero, that is [IN_ERROR]. *)

Definition cell_init : Type := Z * Z * Z.

Definition range (lo hi : ascii) (v : Z) : cell_init := (uint8 lo, uint8 hi, v).
Definition at_char (c : ascii) (v : Z) : cell_init := (uint8 c, uint8 c, v).
Definition range_hex (lo hi : Z) (v : Z) : cell_init := (lo, hi, v).

(** [#define TERMINAL(state) [0 ... 0x7F] = (state)] *)
Definition TERMINAL (state : Z) : cell_init := (0, 0x7F, state).

(** A table initialiser [[slo ... shi] = { cells }] (or, for a single cell,
    [[s][c] = v]) names a range of rows and the cells it sets in them. *)
Definition row_init : Type := Z * Z * list cell_init.

Definition row (s : Z) (cells : list cell_init) : row_init := (s, s, cells).

Definition start_cells : list cell_init :=
  [ at_char DQUOTE IN_DQ_STRING;
    at_char SQUOTE IN_SQ_STRING;
    at_char "0" IN_ZERO;
    range "1" "9" IN_DIGITS;
    at_char "-" IN_SIGN;
    at_char "{" JSON_LCURLY;
    at_char "}" JSON_RCURLY;
    at_char "[" JSON_LSQUARE;
    at_char "]" JSON_RSQUARE;
    at_char "," JSON_COMMA;
    at_char ":" JSON_COLON;
    range "a" "z" IN_KEYWORD;
    at_char " " IN_WHITESPACE;
    at_char TAB IN_WHITESPACE;
    at_char CR IN_WHITESPACE;
    at_char LF IN_WHITESPACE ].

Definition json_lexer_inits : list row_init :=
  [ (* double quote string *)
    row IN_DQ_STRING_ESCAPE
      [ range_hex 0x20 0xFD IN_DQ_STRING ];
    row IN_DQ_STRING
      [ range_hex 0x20 0xFD IN_DQ_STRING;
        at_char BACKSLASH IN_DQ_STRING_ESCAPE;
        at_char DQUOTE JSON_STRING ];
    (* single quote string *)
    row IN_SQ_STRING_ESCAPE
      [ range_hex 0x20 0xFD IN_SQ_STRING ];
    row IN_SQ_STRING
      [ range_hex 0x20 0xFD IN_SQ_STRING;
        at_char BACKSLASH IN_SQ_STRING_ESCAPE;
        at_char SQUOTE JSON_STRING ];
    (* Zero *)
    row IN_ZERO
      [ TERMINAL JSON_INTEGER;
        range "0" "9" IN_ERROR;
        at_char "." IN_MANTISSA ];
    (* Float *)
    row IN_EXP_DIGITS
      [ TERMINAL JSON_FLOAT;
        range "0" "9" IN_EXP_DIGITS ];
    row IN_EXP_SIGN
      [ range "0" "9" IN_EXP_DIGITS ];
    row IN_EXP_E
      [ at_char "-" IN_EXP_SIGN;
        at_char "+" IN_EXP_SIGN;
        range "0" "9" IN_EXP_DIGITS ];
    row IN_MANTISSA_DIGITS
      [ TERMINAL JSON_FLOAT;
        range "0" "9" IN_MANTISSA_DIGITS;
        at_char "e" IN_EXP_E;
        at_char "E" IN_EXP_E ];
    row IN_MANTISSA
      [ range "0" "9" IN_MANTISSA_DIGITS ];
    (* Number *)
    row IN_DIGITS
      [ TERMINAL JSON_INTEGER;
        range "0" "9" IN_DIGITS;
        at_char "e" IN_EXP_E;
        at_char "E" IN_EXP_E;
        at_char "." IN_MANTISSA ];
    row IN_SIGN
      [ at_char "0" IN_ZERO;
        range "1" "9" IN_DIGITS ];
    (* keywords *)
    row IN_KEYWORD
      [ TERMINAL JSON_KEYWORD;
        range "a" "z" IN_KEYWORD ];
    (* whitespace *)
    row IN_WHITESPACE
      [ TERMINAL JSON_SKIP;
        at_char " " IN_WHITESPACE;
        at_char TAB IN_WHITESPACE;
        at_char CR IN_WHITESPACE;
        at_char LF IN_WHITESPACE ];
    (* interpolation *)
    row IN_INTERP
      [ TERMINAL JSON_INTERP;
        range "A" "Z" IN_INTERP;
        range "a" "z" IN_INTERP;
        range "0" "9" IN_INTERP ];
    (* Two start states *)
    (IN_START, IN_START_INTERP, start_cells);
    (IN_START_INTERP, IN_START_INTERP, [ at_char "%" IN_INTERP ]) ].

(** The number of rows: one more than the largest row index named. *)
Definition ARRAY_SIZE_json_lexer : Z :=
  fold_left (fun n '(_, shi, _) => Z.max n (shi + 1)) json_lexer_inits 0.

Definition in_range (lo hi i : Z) : bool := (lo <=? i) && (i <=? hi).

(** The cell initialisers that apply to row [s], in source order. *)
Definition cells_of_row (s : Z) : list cell_init :=
  flat_map (fun '(slo, shi, cells) => if in_range slo shi s then cells else [])
           json_lexer_inits.

(** The value of a cell after the initialisers [cells] ran over a zeroed
    row: the last one that names the cell wins. *)
Definition cell_value (cells : list cell_init) (c : Z) : Z :=
  fold_left (fun v '(lo, hi, w) => if in_range lo hi c then w else v)
            cells IN_ERROR.

(** [json_lexer[s][c]], when [s] is a row of the table. *)
Definition json_lexer (s c : Z) : option Z :=
  if in_range 0 (ARRAY_SIZE_json_lexer - 1) s
  then Some (cell_value (cells_of_row s) c)
  else None.

(** [#define TERMINAL_NEEDED_LOOKAHEAD(old_state, terminal)
       (terminal != IN_ERROR && json_lexer[(old_state)][0] == (terminal))] *)
Definition TERMINAL_NEEDED_LOOKAHEAD (old_state terminal : Z) : option bool :=
  if negb (terminal =? IN_ERROR)
  then match json_lexer old_state 0 with
       | Some t0 => Some (t0 =? terminal)
       | None => None
       end
  else Some false.

(** ** The lexer object and its tokens *)

(** Modelled from the spec: the lexer object, [struct JSONLexer], is
    declared in qapi/qmp/json-lexer.h, which is not among the sources.  It
    holds the start state, the current state, the token buffer (a
    [GString], kept here as the string of its bytes) and the position [x],
    [y].  The two position counters are C [int]s of 32 bits: they are
    kept as integers, and [x++], [y++] wrap around from [INT_MAX] to
    [INT_MIN], which is what the build's [-fwrapv] gives them. *)
Record JSONLexer : Type := mkLexer {
  start_state : Z;
  state : Z;
  token : string;
  x : Z;
  y : Z
}.

Definition INT_MIN : Z := -2147483648.
Definition INT_MAX : Z := 2147483647.

(** The value an [int] holds after arithmetic whose exact result is
    [z]. *)
Definition wrap_int (z : Z) : Z :=
  (z + 2147483648) mod 4294967296 - 2147483648.

(** The values an [int] can hold. *)
Definition is_int (z : Z) : Prop := INT_MIN <= z <= INT_MAX.

(** What one call of the consumer received: the text of the token buffer
    at the time of the call, the tag and the position. *)
Record JSONToken : Type := mkToken {
  tok_text : string;
  tok_type : Z;
  tok_x : Z;
  tok_y : Z
}.

(** Modelled from the spec: the consumer, [json_message_process_token],
    is defined in qobject/json-streamer.c, which is not among the sources.
    A call is recorded as the token it is handed; the consumer does not
    touch the lexer. *)
Definition json_message_process_token
  (lexer : JSONLexer) (input : string) (type : Z) (x y : Z) : JSONToken :=
  mkToken input type x y.

Definition set_state (lexer : JSONLexer) (s : Z) : JSONLexer :=
  mkLexer (start_state lexer) s (token lexer) (x lexer) (y lexer).

Definition set_token (lexer : JSONLexer) (t : string) : JSONLexer :=
  mkLexer (start_state lexer) (state lexer) t (x lexer) (y lexer).

(** [g_string_append_c(lexer->token, ch)] *)
Definition g_string_append_c (t : string) (ch : ascii) : string :=
  (t ++ String ch EmptyString)%string.

(** [lexer->token->len] *)
Definition len (t : string) : Z := Z.of_nat (String.length t).

(** ** Outcomes

    The driver either returns, or stops on its [assert], or indexes the
    table outside its rows; the model of the [do ... while] loop can also
    run out of the iterations it was given. *)
Inductive result (A : Type) : Type :=
| Ok (a : A)
| AssertFailed
| OutOfBounds
| OutOfFuel.

Arguments Ok {A} a.
Arguments AssertFailed {A}.
Arguments OutOfBounds {A}.
Arguments OutOfFuel {A}.

Definition bind {A B : Type} (r : result A) (f : A -> result B) : result B :=
  match r with
  | Ok a => f a
  | AssertFailed => AssertFailed
  | OutOfBounds => OutOfBounds
  | OutOfFuel => OutOfFuel
  end.

Notation "x <- e1 ;; e2" := (bind e1 (fun x => e2))
  (at level 61, e1 at next level, right associativity).

(** ** [json_lexer_init] *)

Definition json_lexer_init (enable_interpolation : bool) : JSONLexer :=
  let s := if enable_interpolation then IN_START_INTERP else IN_START in
  mkLexer s s EmptyString 0 0.

(** ** [json_lexer_feed_char] *)

(** The labels of the [switch (new_state)]. *)
Inductive switch_label : Type :=
| CaseToken      (* JSON_LCURLY ... JSON_STRING: handed to the consumer *)
| CaseSkip       (* JSON_SKIP *)
| CaseError      (* IN_ERROR *)
| CaseDefault.

Definition switch_on (new_state : Z) : switch_label :=
  if (new_state =? JSON_LCURLY) || (new_state =? JSON_RCURLY)
     || (new_state =? JSON_LSQUARE) || (new_state =? JSON_RSQUARE)
     || (new_state =? JSON_COLON) || (new_state =? JSON_COMMA)
     || (new_state =? JSON_INTERP) || (new_state =? JSON_INTEGER)
     || (new_state =? JSON_FLOAT) || (new_state =? JSON_KEYWORD)
     || (new_state =? JSON_STRING)
  then CaseToken
  else if new_state =? JSON_SKIP then CaseSkip
  else if new_state =? IN_ERROR then CaseError
  else CaseDefault.

(** How one pass through the body of the [do ... while] ends. *)
Inductive loop_exit : Type :=
| Repeat    (* the loop condition holds *)
| Break     (* the loop condition fails *)
| Return.   (* the [return] of the IN_ERROR case *)

Definition while_cond (char_consumed flush : bool) : loop_exit :=
  if negb char_consumed && negb flush then Repeat else Break.

(** One pass through the body of the loop.  The [assert] and the table
    lookups are compared on mathematical integers. *)
Definition loop_body (lexer : JSONLexer) (ch : ascii) (flush : bool)
  : result (loop_exit * JSONLexer * list JSONToken) :=
  if negb (state lexer <=? ARRAY_SIZE_json_lexer) then AssertFailed else
  match json_lexer (state lexer) (uint8 ch) with
  | None => OutOfBounds
  | Some new_state =>
    match TERMINAL_NEEDED_LOOKAHEAD (state lexer) new_state with
    | None => OutOfBounds
    | Some lookahead =>
      let char_consumed := negb lookahead in
      let lexer :=
        if char_consumed && negb flush
        then set_token lexer (g_string_append_c (token lexer) ch)
        else lexer in
      match switch_on new_state with
      | CaseToken =>
          let out := [json_message_process_token lexer (token lexer)
                        new_state (x lexer) (y lexer)] in
          let lexer := set_token lexer EmptyString in
          let new_state := start_state lexer in
          Ok (while_cond char_consumed flush, set_state lexer new_state, out)
      | CaseSkip =>
          let lexer := set_token lexer EmptyString in
          let new_state := start_state lexer in
          Ok (while_cond char_consumed flush, set_state lexer new_state, [])
      | CaseError =>
          let out := [json_message_process_token lexer (token lexer)
                        JSON_ERROR (x lexer) (y lexer)] in
          let lexer := set_token lexer EmptyString in
          Ok (Return, set_state lexer (start_state lexer), out)
      | CaseDefault =>
          Ok (while_cond char_consumed flush, set_state lexer new_state, [])
      end
    end
  end.

(** How the loop was left, with the lexer, the tokens handed over and the
    number of passes through the body. *)
Record loop_end : Type := mkLoopEnd {
  le_returned : bool;
  le_lexer : JSONLexer;
  le_out : list JSONToken;
  le_passes : nat
}.

(** The [do ... while] loop, given [fuel] passes. *)
Fixpoint do_while (fuel : nat) (lexer : JSONLexer) (ch : ascii) (flush : bool)
  : result loop_end :=
  match fuel with
  | O => OutOfFuel
  | S fuel' =>
      r <- loop_body lexer ch flush ;;
      match r with
      | (Repeat, lexer', out) =>
          e <- do_while fuel' lexer' ch flush ;;
          Ok (mkLoopEnd (le_returned e) (le_lexer e)
                        (out ++ le_out e) (S (le_passes e)))
      | (Break, lexer', out) => Ok (mkLoopEnd false lexer' out 1)
      | (Return, lexer', out) => Ok (mkLoopEnd true lexer' out 1)
      end
  end.

(** The position update at the head of [json_lexer_feed_char]. *)
Definition advance (lexer : JSONLexer) (ch : ascii) : JSONLexer :=
  let lexer := mkLexer (start_state lexer) (state lexer) (token lexer)
                       (wrap_int (x lexer + 1)) (y lexer) in
  if Ascii.eqb ch LF
  then mkLexer (start_state lexer) (state lexer) (token lexer)
               0 (wrap_int (y lexer + 1))
  else lexer.

(** The size check at the tail of [json_lexer_feed_char]. *)
Definition check_size (lexer : JSONLexer) : JSONLexer * list JSONToken :=
  if len (token lexer) >? MAX_TOKEN_SIZE
  then
    let out := [json_message_process_token lexer (token lexer)
                  (state lexer) (x lexer) (y lexer)] in
    let lexer := set_token lexer EmptyString in
    (set_state lexer (start_state lexer), out)
  else (lexer, []).

Definition json_lexer_feed_char
  (fuel : nat) (lexer : JSONLexer) (ch : ascii) (flush : bool)
  : result (JSONLexer * list JSONToken) :=
  let lexer := advance lexer ch in
  e <- do_while fuel lexer ch flush ;;
  if le_returned e then Ok (le_lexer e, le_out e)
  else
    let '(lexer', out) := check_size (le_lexer e) in
    Ok (lexer', le_out e ++ out).

(** ** [json_lexer_feed] and [json_lexer_flush] *)

Fixpoint json_lexer_feed (fuel : nat) (lexer : JSONLexer) (buffer : string)
  : result (JSONLexer * list JSONToken) :=
  match buffer with
  | EmptyString => Ok (lexer, [])
  | String ch rest =>
      r <- json_lexer_feed_char fuel lexer ch false ;;
      r' <- json_lexer_feed fuel (fst r) rest ;;
      Ok (fst r', snd r ++ snd r')
  end.

Definition json_lexer_flush (fuel : nat) (lexer : JSONLexer)
  : result (JSONLexer * list JSONToken) :=
  r <- (if negb (state lexer =? start_state lexer)
        then json_lexer_feed_char fuel lexer NUL true
        else Ok (lexer, [])) ;;
  let lexer := fst r in
  Ok (lexer, snd r ++ [json_message_process_token lexer (token lexer)
                         JSON_END_OF_INPUT (x lexer) (y lexer)]).

(** ** Sequences of calls

    A client drives a lexer by a sequence of [json_lexer_feed] and
    [json_lexer_flush] calls; [run] threads the lexer through them and
    collects what the consumer received. *)

Inductive lexer_call : Type :=
| Feed (buffer : string)
| Flush.

Definition call (fuel : nat) (lexer : JSONLexer) (c : lexer_call)
  : result (JSONLexer * list JSONToken) :=
  match c with
  | Feed buffer => json_lexer_feed fuel lexer buffer
  | Flush => json_lexer_flush fuel lexer
  end.

Fixpoint run (fuel : nat) (lexer : JSONLexer) (calls : list lexer_call)
  : result (JSONLexer * list JSONToken) :=
  match calls with
  | [] => Ok (lexer, [])
  | c :: rest =>
      r <- call fuel lexer c ;;
      r' <- run fuel (fst r) rest ;;
      Ok (fst r', snd r ++ snd r')
  end.

(** One [Feed] call per byte of the buffer. *)
Fixpoint bytewise (buffer : string) : list lexer_call :=
  match buffer with
  | EmptyString => []
  | String ch rest => Feed (String ch EmptyString) :: bytewise rest
  end.

(** A lexer is reachable when some sequence of calls on a freshly
    initialised lexer leaves it. *)
Definition reachable (lexer : JSONLexer) : Prop :=
  exists interp fuel calls out,
    run fuel (json_lexer_init interp) calls = Ok (lexer, out).

(** ** Predicates used by the statements *)

Definition is_start (s : Z) : bool :=
  (s =? IN_START) || (s =? IN_START_INTERP).

Definition is_empty (t : string) : bool :=
  match t with EmptyString => true | String _ _ => false end.

(** The lexer's running invariant: the start state is one of the two start
    rows; the lexer is either at its start state with an empty token
    buffer, or inside a token, in one of the states below [IN_START]. *)
Definition lexer_okb (lexer : JSONLexer) : bool :=
  is_start (start_state lexer)
  && (if state lexer =? start_state lexer
      then is_empty (token lexer)
      else in_range IN_DQ_STRING_ESCAPE IN_WHITESPACE (state lexer)).

Definition not_skip (t : JSONToken) : Prop := tok_type t <> JSON_SKIP.

(** The rows whose first initialiser is [TERMINAL(tag)]. *)
Definition terminal_rows : list (Z * Z) :=
  [ (IN_ZERO, JSON_INTEGER);
    (IN_DIGITS, JSON_INTEGER);
    (IN_MANTISSA_DIGITS, JSON_FLOAT);
    (IN_EXP_DIGITS, JSON_FLOAT);
    (IN_KEYWORD, JSON_KEYWORD);
    (IN_WHITESPACE, JSON_SKIP);
    (IN_INTERP, JSON_INTERP) ].

(** Byte [c] is named by an initialiser of row [s] after the first. *)
Definition overridden (s c : Z) : bool :=
  existsb (fun '(lo, hi, _) => in_range lo hi c) (tl (cells_of_row s)).

(** The lexer as a completed or skipped token leaves it. *)
Definition reset (lexer : JSONLexer) : JSONLexer :=
  mkLexer (start_state lexer) (start_state lexer) EmptyString
          (x lexer) (y lexer).

(** What the consumer receives when a token with tag [tag] completes:
    nothing for [JSON_SKIP], the token buffer otherwise. *)
Definition completed (lexer : JSONLexer) (tag : Z) : list JSONToken :=
  if tag =? JSON_SKIP then []
  else [mkToken (token lexer) tag (x lexer) (y lexer)].

(** Byte [ch] completes the token in the buffer with tag [tag] as
    lookahead: the buffer is handed over without [ch], the lexer is reset
    and the loop goes round again on the same byte. *)
Definition completes_by_lookahead
  (lexer : JSONLexer) (ch : ascii) (tag : Z) : Prop :=
  loop_body lexer ch false = Ok (Repeat, reset lexer, completed lexer tag).

Definition is_digit (ch : ascii) : bool :=
  in_range (uint8 "0") (uint8 "9") (uint8 ch).

(** ** Example inputs, and the invariants carried through the proofs *)

(** The six bytes: double quote, a, backslash, double quote, b, double
    quote (the JSON string for a, double quote, b). *)
Definition escaped_quote_example : string :=
  String DQUOTE
    (String "a" (String BACKSLASH (String DQUOTE
       (String "b" (String DQUOTE EmptyString))))).

(** The five bytes: apostrophe, a, double quote, b, apostrophe. *)
Definition single_quoted_example : string :=
  String SQUOTE (String "a" (String DQUOTE (String "b"
    (String SQUOTE EmptyString)))).

(** A string token one byte short of overflowing the bound: an opening
    quote and [MAX_TOKEN_SIZE - 1] letters. *)
Definition long_string_token : string :=
  String DQUOTE
    (string_of_list_ascii
       (repeat "a"%char (Z.to_nat (MAX_TOKEN_SIZE - 1)))).

(** The first token handed over has text [text] and tag [type]. *)
Definition first_token_is
  (r : result (JSONLexer * list JSONToken)) (text : string) (type : Z) : bool :=
  match r with
  | Ok (_, t :: _) => String.eqb (tok_text t) text && (tok_type t =? type)
  | _ => false
  end.

(** The cell of row [s] for the byte [ch]. *)
Definition entry (s : Z) (ch : ascii) : Z :=
  cell_value (cells_of_row s) (uint8 ch).

(** [TERMINAL_NEEDED_LOOKAHEAD] on a row of the table. *)
Definition lookahead (s : Z) (new_state : Z) : bool :=
  negb (new_state =? IN_ERROR) && (entry s NUL =? new_state).

(** The invariant kept between calls. *)
Definition inv (l : JSONLexer) : Prop :=
  lexer_okb l = true /\ len (token l) <= MAX_TOKEN_SIZE.

(** What a pass through the body guarantees, from a lexer that satisfies
    the invariant. *)
Definition body_post (l : JSONLexer) (ch : ascii) (flush : bool)
  (r : loop_exit * JSONLexer * list JSONToken) : Prop :=
  let '(ex, l', out) := r in
  start_state l' = start_state l /\ x l' = x l /\ y l' = y l
  /\ lexer_okb l' = true
  /\ Forall not_skip out
  /\ (List.length out <= 1)%nat
  /\ (ex = Repeat ->
      l' = reset l /\ flush = false /\ state l <> start_state l)
  /\ (flush = true -> ch = NUL -> l' = reset l)
  /\ (ex = Return -> token l' = EmptyString).

(** What the loop guarantees, from a lexer that satisfies the invariant. *)
Definition loop_post (l : JSONLexer) (ch : ascii) (flush : bool)
  (e : loop_end) : Prop :=
  start_state (le_lexer e) = start_state l
  /\ x (le_lexer e) = x l /\ y (le_lexer e) = y l
  /\ lexer_okb (le_lexer e) = true
  /\ Forall not_skip (le_out e)
  /\ (1 <= le_passes e <= 2)%nat
  /\ (flush = true -> ch = NUL ->
      le_lexer e = reset l /\ (List.length (le_out e) <= 1)%nat)
  /\ (le_returned e = true -> token (le_lexer e) = EmptyString).

(** What [json_lexer_feed_char] guarantees, from a lexer that satisfies
    the invariant. *)
Definition char_post (l : JSONLexer) (ch : ascii) (flush : bool)
  (r : JSONLexer * list JSONToken) : Prop :=
  start_state (fst r) = start_state l
  /\ inv (fst r)
  /\ Forall not_skip (snd r)
  /\ (flush = true -> ch = NUL ->
      fst r = reset (advance l NUL) /\ (List.length (snd r) <= 1)%nat).

(** ** Definitions used by the further properties *)

(** The lexer after the position updates for the bytes of [buffer]. *)
Fixpoint advance_over (lexer : JSONLexer) (buffer : string) : JSONLexer :=
  match buffer with
  | EmptyString => lexer
  | String ch rest => advance_over (advance lexer ch) rest
  end.

Definition not_lf (ch : ascii) : bool := negb (Ascii.eqb ch LF).

(** The number of line feeds in [buffer]. *)
Fixpoint count_lf (buffer : string) : Z :=
  match buffer with
  | EmptyString => 0
  | String ch rest => (if Ascii.eqb ch LF then 1 else 0) + count_lf rest
  end.

(** The number of bytes after the last line feed of [buffer], if it has
    one. *)
Fixpoint after_last_lf (buffer : string) : option Z :=
  match buffer with
  | EmptyString => None
  | String ch rest =>
      match after_last_lf rest with
      | Some n => Some n
      | None => if Ascii.eqb ch LF then Some (len rest) else None
      end
  end.

Fixpoint all_chars (p : ascii -> bool) (w : string) : bool :=
  match w with
  | EmptyString => true
  | String ch rest => p ch && all_chars p rest
  end.

Definition is_lower (ch : ascii) : bool :=
  in_range (uint8 "a") (uint8 "z") (uint8 ch).

Definition is_upper (ch : ascii) : bool :=
  in_range (uint8 "A") (uint8 "Z") (uint8 ch).

Definition is_alnum (ch : ascii) : bool :=
  is_upper ch || is_lower ch || is_digit ch.

Definition is_digit19 (ch : ascii) : bool :=
  in_range (uint8 "1") (uint8 "9") (uint8 ch).

(** The four whitespace bytes of RFC 8259. *)
Definition is_space (ch : ascii) : bool :=
  Ascii.eqb ch " " || Ascii.eqb ch TAB || Ascii.eqb ch CR || Ascii.eqb ch LF.

(** The six structural characters and their tags. *)
Definition structural_tag (ch : ascii) : option Z :=
  if Ascii.eqb ch "{" then Some JSON_LCURLY
  else if Ascii.eqb ch "}" then Some JSON_RCURLY
  else if Ascii.eqb ch "[" then Some JSON_LSQUARE
  else if Ascii.eqb ch "]" then Some JSON_RSQUARE
  else if Ascii.eqb ch ":" then Some JSON_COLON
  else if Ascii.eqb ch "," then Some JSON_COMMA
  else None.

Definition is_structural (ch : ascii) : bool :=
  match structural_tag ch with Some _ => true | None => false end.

(** One token per structural byte of [buffer], from column [x] of line
    [y]; the column is the [int] counter of the lexer. *)
Fixpoint structural_tokens (x y : Z) (buffer : string) : list JSONToken :=
  match buffer with
  | EmptyString => []
  | String ch rest =>
      match structural_tag ch with
      | Some tag =>
          mkToken (String ch EmptyString) tag (wrap_int (x + 1)) y
          :: structural_tokens (wrap_int (x + 1)) y rest
      | None => []
      end
  end.

(** The state the table leads to from row [s] along the bytes of [w], as
    long as every cell on the way holds one of the states
    [IN_DQ_STRING_ESCAPE .. IN_WHITESPACE]. *)
Fixpoint walk (s : Z) (w : string) : option Z :=
  match w with
  | EmptyString => Some s
  | String ch rest =>
      if in_range IN_DQ_STRING_ESCAPE IN_WHITESPACE (entry s ch)
      then walk (entry s ch) rest
      else None
  end.

(** A number written as RFC 8259 has it:
    [[ minus ] int [ frac ] [ exp ]]. *)
Record json_number : Type := mkNumber {
  num_minus : bool;
  num_int : string;
  num_frac : option string;
  num_exp : option (ascii * option ascii * string)
}.

Definition nonempty (w : string) : bool :=
  match w with EmptyString => false | String _ _ => true end.

(** [int = zero / ( digit1-9 *DIGIT )] *)
Definition int_ok (w : string) : bool :=
  match w with
  | EmptyString => false
  | String ch rest =>
      (Ascii.eqb ch "0" && negb (nonempty rest))
      || (is_digit19 ch && all_chars is_digit rest)
  end.

(** [1*DIGIT] *)
Definition digits_ok (w : string) : bool :=
  nonempty w && all_chars is_digit w.

(** [exp = e [ minus / plus ] 1*DIGIT] *)
Definition exp_ok (e : ascii * option ascii * string) : bool :=
  let '(marker, sign, digits) := e in
  (Ascii.eqb marker "e" || Ascii.eqb marker "E")
  && match sign with
     | None => true
     | Some c => Ascii.eqb c "-" || Ascii.eqb c "+"
     end
  && digits_ok digits.

Definition number_ok (n : json_number) : bool :=
  int_ok (num_int n)
  && match num_frac n with None => true | Some f => digits_ok f end
  && match num_exp n with None => true | Some e => exp_ok e end.

Definition sign_text (minus : bool) : string :=
  if minus then String "-" EmptyString else EmptyString.

Definition frac_text (f : option string) : string :=
  match f with
  | None => EmptyString
  | Some digits => String "." digits
  end.

Definition exp_text (e : option (ascii * option ascii * string)) : string :=
  match e with
  | None => EmptyString
  | Some (marker, None, digits) => String marker digits
  | Some (marker, Some sign, digits) => String marker (String sign digits)
  end.

Definition number_text (n : json_number) : string :=
  (sign_text (num_minus n) ++ num_int n
   ++ frac_text (num_frac n) ++ exp_text (num_exp n))%string.

(** A zero with an exponent and no fraction, as in [0e1]. *)
Definition zero_with_exp (n : json_number) : bool :=
  String.eqb (num_int n) (String "0" EmptyString)
  && match num_frac n, num_exp n with
     | None, Some _ => true
     | _, _ => false
     end.

Definition number_tag (n : json_number) : Z :=
  match num_frac n, num_exp n with
  | None, None => JSON_INTEGER
  | _, _ => JSON_FLOAT
  end.

(** What stands between the quotes of a string: a byte, or a backslash and
    a byte. *)
Inductive string_item : Type :=
| Plain (ch : ascii)
| Escaped (ch : ascii).

Definition item_ok (quote : ascii) (i : string_item) : bool :=
  match i with
  | Plain ch =>
      in_range 0x20 0xFD (uint8 ch)
      && negb (Ascii.eqb ch quote) && negb (Ascii.eqb ch BACKSLASH)
  | Escaped ch => in_range 0x20 0xFD (uint8 ch)
  end.

Fixpoint body_text (items : list string_item) : string :=
  match items with
  | [] => EmptyString
  | Plain ch :: rest => String ch (body_text rest)
  | Escaped ch :: rest => String BACKSLASH (String ch (body_text rest))
  end.

Definition quote_of (single : bool) : ascii :=
  if single then SQUOTE else DQUOTE.

Definition string_state (single : bool) : Z :=
  if single then IN_SQ_STRING else IN_DQ_STRING.

(** The tags of [enum json_token_type] that the lexer hands over. *)
Definition is_token_tag (t : Z) : bool :=
  in_range JSON_LCURLY JSON_INTERP t
  || (t =? JSON_ERROR) || (t =? JSON_END_OF_INPUT).

(** A token with one of the tags of the enumeration, no longer than
    [bound]. *)
Definition tagged_within (bound : Z) (t : JSONToken) : Prop :=
  is_token_tag (tok_type t) = true /\ len (tok_text t) <= bound.

(** A token as the consumer expects it, or the buffer the size check
    forces out under the number of the state the lexer was in. *)
Definition token_shape (t : JSONToken) : Prop :=
  (is_token_tag (tok_type t) = true
   /\ len (tok_text t) <= MAX_TOKEN_SIZE + 1)
  \/ (IN_DQ_STRING_ESCAPE <= tok_type t <= IN_WHITESPACE
      /\ len (tok_text t) = MAX_TOKEN_SIZE + 1).

(** [w] without its whitespace bytes. *)
Fixpoint strip (w : string) : string :=
  match w with
  | EmptyString => EmptyString
  | String ch rest => if is_space ch then strip rest else String ch (strip rest)
  end.

(** The texts of the tokens, end to end. *)
Fixpoint texts (out : list JSONToken) : string :=
  match out with
  | [] => EmptyString
  | t :: rest => (tok_text t ++ texts rest)%string
  end.

(** The bytes a sequence of calls feeds. *)
Fixpoint fed (calls : list lexer_call) : string :=
  match calls with
  | [] => EmptyString
  | Feed buffer :: rest => (buffer ++ fed rest)%string
  | Flush :: rest => fed rest
  end.

(** The byte joined the buffer in this pass. *)
Definition joined (ex : loop_exit) (flush : bool) (ch : ascii) : string :=
  match ex with
  | Repeat => EmptyString
  | _ => if flush then EmptyString else String ch EmptyString
  end.

Definition not_percent (ch : ascii) : bool := negb (Ascii.eqb ch "%").

(** In [IN_WHITESPACE] the buffer holds whitespace only. *)
Definition wsb (l : JSONLexer) : bool :=
  if state l =? IN_WHITESPACE then all_chars is_space (token l) else true.

(** The tag the pending token gets when the input ends in state [s]. *)
Definition tag_at_end (s : Z) : Z :=
  match find (fun '(s', _) => s' =? s) terminal_rows with
  | Some (_, tag) => tag
  | None => JSON_ERROR
  end.

(** Two lexers that differ in their start state only. *)
Definition mirrors (l1 l2 : JSONLexer) : Prop :=
  start_state l1 = IN_START /\ start_state l2 = IN_START_INTERP
  /\ token l1 = token l2 /\ x l1 = x l2 /\ y l1 = y l2
  /\ (state l1 = state l2
      \/ (state l1 = IN_START /\ state l2 = IN_START_INTERP)).

(** ** Streams of lexemes *)

(** The lexemes of JSON, with the lexer's two string forms. *)
Inductive lexeme : Type :=
| LKeyword (w : string)
| LNumber (n : json_number)
| LString (single : bool) (items : list string_item)
| LStructural (ch : ascii).

(** A piece of input: a lexeme, or a run of whitespace. *)
Inductive piece : Type :=
| PLexeme (lx : lexeme)
| PSpace (w : string).

(** What precedes a piece: nothing pending, a run of whitespace, or a
    keyword or number that its successor has yet to complete. *)
Inductive pending_kind : Type :=
| KStart
| KSpace
| KWord.

Definition is_word (lx : lexeme) : bool :=
  match lx with
  | LKeyword _ | LNumber _ => true
  | LString _ _ | LStructural _ => false
  end.

Definition lexeme_ok (lx : lexeme) : bool :=
  match lx with
  | LKeyword w =>
      nonempty w && all_chars is_lower w && (len w <=? MAX_TOKEN_SIZE)
  | LNumber n =>
      number_ok n && negb (zero_with_exp n)
      && (len (number_text n) <=? MAX_TOKEN_SIZE)
  | LString single items =>
      forallb (item_ok (quote_of single)) items
      && (len (body_text items) <? MAX_TOKEN_SIZE)
  | LStructural ch => is_structural ch
  end.

Definition lexeme_text (lx : lexeme) : string :=
  match lx with
  | LKeyword w => w
  | LNumber n => number_text n
  | LString single items =>
      (String (quote_of single) (body_text items)
       ++ String (quote_of single) EmptyString)%string
  | LStructural ch => String ch EmptyString
  end.

Definition lexeme_tag (lx : lexeme) : Z :=
  match lx with
  | LKeyword _ => JSON_KEYWORD
  | LNumber n => number_tag n
  | LString _ _ => JSON_STRING
  | LStructural ch =>
      match structural_tag ch with Some tag => tag | None => JSON_ERROR end
  end.

Definition piece_kind (p : piece) : pending_kind :=
  match p with
  | PSpace _ => KSpace
  | PLexeme lx => if is_word lx then KWord else KStart
  end.

(** A piece that may follow what precedes it: a run of whitespace does
    not follow another, and a keyword or number is not followed by a
    keyword or number without whitespace between them. *)
Definition piece_ok (k : pending_kind) (p : piece) : bool :=
  match p with
  | PSpace w =>
      nonempty w && all_chars is_space w && (len w <=? MAX_TOKEN_SIZE)
      && match k with KSpace => false | _ => true end
  | PLexeme lx =>
      lexeme_ok lx && match k with KWord => negb (is_word lx) | _ => true end
  end.

Fixpoint stream_ok (k : pending_kind) (ps : list piece) : bool :=
  match ps with
  | [] => true
  | p :: rest => piece_ok k p && stream_ok (piece_kind p) rest
  end.

Definition piece_text (p : piece) : string :=
  match p with
  | PLexeme lx => lexeme_text lx
  | PSpace w => w
  end.

Fixpoint stream_text (ps : list piece) : string :=
  match ps with
  | [] => EmptyString
  | p :: rest => (piece_text p ++ stream_text rest)%string
  end.

(** The text and the tag of a token. *)
Definition summary (t : JSONToken) : string * Z := (tok_text t, tok_type t).

Definition piece_tokens (p : piece) : list (string * Z) :=
  match p with
  | PLexeme lx => [(lexeme_text lx, lexeme_tag lx)]
  | PSpace _ => []
  end.

Fixpoint stream_tokens (ps : list piece) : list (string * Z) :=
  match ps with
  | [] => []
  | p :: rest => piece_tokens p ++ stream_tokens rest
  end.

(** The lexer between two pieces, and what it still owes the consumer. *)
Definition between (k : pending_kind) (l : JSONLexer)
  (owed : list (string * Z)) : Prop :=
  match k with
  | KStart =>
      state l = start_state l /\ token l = EmptyString /\ owed = []
  | KSpace => state l = IN_WHITESPACE /\ owed = []
  | KWord =>
      exists tag, In (state l, tag) terminal_rows
                  /\ state l <> IN_WHITESPACE /\ owed = [(token l, tag)]
  end.

(** The bytes a lexeme can begin with. *)
Definition starts_lexeme (ch : ascii) : bool :=
  is_lower ch || is_digit ch || Ascii.eqb ch "-" || is_structural ch
  || Ascii.eqb ch DQUOTE || Ascii.eqb ch SQUOTE.

(** The bytes that may follow a keyword or a number directly. *)
Definition ends_word (ch : ascii) : bool :=
  is_space ch || is_structural ch
  || Ascii.eqb ch DQUOTE || Ascii.eqb ch SQUOTE.

(** The pieces of a small JSON text: an object with one member, whose
    value is an array of an integer, a float and a keyword. *)
Definition example_stream : list piece :=
  [ PLexeme (LStructural "{");
    PLexeme (LString false [Plain "a"]);
    PLexeme (LStructural ":");
    PSpace (String " " EmptyString);
    PLexeme (LStructural "[");
    PLexeme (LNumber (mkNumber false (String "1" EmptyString) None None));
    PLexeme (LStructural ",");
    PSpace (String " " EmptyString);
    PLexeme (LNumber (mkNumber true (String "2" EmptyString)
                        (Some (String "5" EmptyString))
                        (Some ("e"%char, None, String "3" EmptyString))));
    PLexeme (LStructural ",");
    PSpace (String LF (String " " EmptyString));
    PLexeme (LKeyword (String "t" (String "r" (String "u"
               (String "e" EmptyString)))));
    PLexeme (LStructural "]");
    PLexeme (LStructural "}") ].

(** ** Enumerating bytes and rows *)

Definition all_ascii : list ascii := map ascii_of_nat (seq 0 256).

Definition all_rows : list Z := map Z.of_nat (seq 0 18).

Definition forall_ascii (p : ascii -> bool) : bool := forallb p all_ascii.

Definition forall_row (p : Z -> bool) : bool := forallb p all_rows.

Lemma forall_ascii_spec (p : ascii -> bool) :
  forall_ascii p = true -> forall ch, p ch = true.
Proof.
  intros H ch.
  unfold forall_ascii in H. rewrite forallb_forall in H. apply H.
  unfold all_ascii. rewrite <- (ascii_nat_embedding ch).
  apply in_map. apply in_seq.
  pose proof (nat_ascii_bounded ch). lia.
Qed.

Lemma forall_row_spec (p : Z -> bool) :
  forall_row p = true -> forall s, 0 <= s < 18 -> p s = true.
Proof.
  intros H s Hs.
  unfold forall_row in H. rewrite forallb_forall in H. apply H.
  unfold all_rows. rewrite <- (Z2Nat.id s) by lia.
  apply in_map. apply in_seq. lia.
Qed.

Lemma uint8_bounds ch : 0 <= uint8 ch < 256.
Proof.
  pose proof (forall_ascii_spec
    (fun c => (0 <=? uint8 c) && (uint8 c <? 256))
    ltac:(vm_compute; reflexivity) ch) as H.
  simpl in H. lia.
Qed.

(** ** The position counters *)

Lemma wrap_int_small z : is_int z -> wrap_int z = z.
Proof.
  unfold is_int, INT_MIN, INT_MAX, wrap_int. intros H.
  rewrite Z.mod_small by lia. lia.
Qed.

Lemma wrap_int_is_int z : is_int (wrap_int z).
Proof.
  unfold is_int, INT_MIN, INT_MAX, wrap_int.
  pose proof (Z.mod_pos_bound (z + 2147483648) 4294967296 ltac:(lia)). lia.
Qed.

Lemma wrap_int_add a b : wrap_int (wrap_int a + b) = wrap_int (a + b).
Proof.
  unfold wrap_int. f_equal.
  replace ((a + 2147483648) mod 4294967296 - 2147483648 + b + 2147483648)
    with ((a + 2147483648) mod 4294967296 + b) by lia.
  rewrite Z.add_mod_idemp_l by lia. f_equal. lia.
Qed.

(** ** Facts read off the table *)

Lemma json_lexer_row s c :
  0 <= s < 18 -> json_lexer s c = Some (cell_value (cells_of_row s) c).
Proof.
  intros Hs. unfold json_lexer.
  replace (in_range 0 (ARRAY_SIZE_json_lexer - 1) s) with true; [reflexivity|].
  symmetry. change (ARRAY_SIZE_json_lexer - 1) with 17.
  unfold in_range. lia.
Qed.

Lemma json_lexer_some s c e : json_lexer s c = Some e -> 0 <= s < 18.
Proof.
  unfold json_lexer. change (ARRAY_SIZE_json_lexer - 1) with 17.
  unfold in_range.
  destruct (0 <=? s) eqn:H1; destruct (s <=? 17) eqn:H2; simpl;
    try discriminate.
  intros _. lia.
Qed.

(** A cell that the [switch] sends to its default case holds one of the
    states [IN_DQ_STRING_ESCAPE .. IN_WHITESPACE]. *)
Lemma default_entries s ch :
  0 <= s < 18 ->
  switch_on (entry s ch) = CaseDefault ->
  IN_DQ_STRING_ESCAPE <= entry s ch <= IN_WHITESPACE.
Proof.
  intros Hs Hd.
  pose proof (forall_row_spec
    (fun s => forall_ascii (fun ch =>
       match switch_on (entry s ch) with
       | CaseDefault =>
           in_range IN_DQ_STRING_ESCAPE IN_WHITESPACE (entry s ch)
       | _ => true
       end))
    ltac:(vm_compute; reflexivity) s Hs) as H.
  simpl in H. apply forall_ascii_spec with (ch := ch) in H.
  rewrite Hd in H. unfold in_range in H. lia.
Qed.

(** Column 0 of every row holds [IN_ERROR] or a tag. *)
Lemma column0_entries s :
  0 <= s < 18 -> switch_on (entry s NUL) <> CaseDefault.
Proof.
  intros Hs.
  pose proof (forall_row_spec
    (fun s => match switch_on (entry s NUL) with
              | CaseDefault => false
              | _ => true
              end)
    ltac:(vm_compute; reflexivity) s Hs) as H.
  simpl in H. intros E. rewrite E in H. discriminate.
Qed.

(** Column 0 of the two start rows holds [IN_ERROR]. *)
Lemma start_column0 s : is_start s = true -> entry s NUL = IN_ERROR.
Proof.
  unfold is_start. intros H.
  apply orb_true_iff in H. destruct H as [H|H]; apply Z.eqb_eq in H;
    subst s; reflexivity.
Qed.

Lemma is_start_bounds s : is_start s = true -> 0 <= s < 18.
Proof.
  unfold is_start, IN_START, IN_START_INTERP. lia.
Qed.

Lemma switch_on_token e :
  switch_on e = CaseToken -> e <> JSON_SKIP /\ e <> IN_ERROR.
Proof.
  intros H. split; intros ->; vm_compute in H; discriminate.
Qed.

(** The two [QEMU_BUILD_BUG_ON] checks of the source hold, and every
    value the table stores fits a [uint8_t] cell. *)
Lemma build_assertions :
  ~ (JSON_MIN <= IN_START_INTERP)
  /\ ~ (IN_START_INTERP <> IN_START + 1)
  /\ forallb (fun '(_, _, cells) =>
               forallb (fun '(_, _, v) => in_range 0 255 v) cells)
             json_lexer_inits = true.
Proof.
  split; [unfold JSON_MIN, IN_START_INTERP; lia|].
  split; [unfold IN_START_INTERP, IN_START; lia|].
  vm_compute. reflexivity.
Qed.

(** ** One pass through the loop body *)

Lemma lookahead_row s e :
  0 <= s < 18 -> TERMINAL_NEEDED_LOOKAHEAD s e = Some (lookahead s e).
Proof.
  intros Hs. unfold TERMINAL_NEEDED_LOOKAHEAD, lookahead.
  rewrite json_lexer_row by exact Hs.
  destruct (negb (e =? IN_ERROR)); reflexivity.
Qed.

Lemma loop_body_row l ch flush :
  0 <= state l < 18 ->
  loop_body l ch flush =
    let new_state := entry (state l) ch in
    let char_consumed := negb (lookahead (state l) new_state) in
    let lexer :=
      if char_consumed && negb flush
      then set_token l (g_string_append_c (token l) ch)
      else l in
    match switch_on new_state with
    | CaseToken =>
        Ok (while_cond char_consumed flush,
            set_state (set_token lexer EmptyString) (start_state lexer),
            [mkToken (token lexer) new_state (x lexer) (y lexer)])
    | CaseSkip =>
        Ok (while_cond char_consumed flush,
            set_state (set_token lexer EmptyString) (start_state lexer), [])
    | CaseError =>
        Ok (Return,
            set_state (set_token lexer EmptyString) (start_state lexer),
            [mkToken (token lexer) JSON_ERROR (x lexer) (y lexer)])
    | CaseDefault =>
        Ok (while_cond char_consumed flush, set_state lexer new_state, [])
    end.
Proof.
  intros Hs. unfold loop_body.
  rewrite json_lexer_row by exact Hs. cbv beta iota.
  rewrite (lookahead_row _ _ Hs).
  change ARRAY_SIZE_json_lexer with 18.
  destruct (Z.leb_spec (state l) 18) as [_|Hgt]; [|lia].
  reflexivity.
Qed.

Lemma lookahead_not_default s e :
  0 <= s < 18 -> lookahead s e = true -> switch_on e <> CaseDefault.
Proof.
  intros Hs H. unfold lookahead in H.
  apply andb_true_iff in H. destruct H as [_ H].
  apply Z.eqb_eq in H. rewrite <- H. apply column0_entries. exact Hs.
Qed.

Lemma lookahead_at_start s e : is_start s = true -> lookahead s e = false.
Proof.
  intros Hs. unfold lookahead. rewrite (start_column0 s Hs).
  destruct (Z.eqb_spec e IN_ERROR) as [->|Hne]; [reflexivity|].
  replace (IN_ERROR =? e) with false; [reflexivity|].
  symmetry. apply Z.eqb_neq. congruence.
Qed.

Lemma lexer_okb_bounds l : lexer_okb l = true -> 0 <= state l < 18.
Proof.
  unfold lexer_okb. intros H. apply andb_true_iff in H. destruct H as [Hs H].
  destruct (Z.eqb_spec (state l) (start_state l)) as [E|_].
  - rewrite E. apply is_start_bounds. exact Hs.
  - unfold in_range, IN_DQ_STRING_ESCAPE, IN_WHITESPACE in H. lia.
Qed.

Lemma lexer_okb_start l : lexer_okb l = true -> is_start (start_state l) = true.
Proof.
  unfold lexer_okb. intros H. apply andb_true_iff in H. tauto.
Qed.

Lemma lexer_okb_reset l : lexer_okb l = true -> lexer_okb (reset l) = true.
Proof.
  intros H. apply lexer_okb_start in H. unfold lexer_okb, reset. simpl.
  rewrite H, Z.eqb_refl. reflexivity.
Qed.

Lemma lexer_okb_empty l :
  lexer_okb l = true -> state l = start_state l -> token l = EmptyString.
Proof.
  unfold lexer_okb. intros H E. apply andb_true_iff in H.
  destruct H as [_ H]. rewrite E, Z.eqb_refl in H.
  destruct (token l); [reflexivity|discriminate].
Qed.

Lemma loop_body_ok l ch flush :
  lexer_okb l = true ->
  exists r, loop_body l ch flush = Ok r /\ body_post l ch flush r.
Proof.
  intros Hok.
  pose proof (lexer_okb_bounds l Hok) as Hs.
  pose proof (lexer_okb_start l Hok) as Hst.
  rewrite (loop_body_row l ch flush Hs). cbv zeta.
  set (e := entry (state l) ch).
  assert (Hflush : flush = true -> ch = NUL -> switch_on e <> CaseDefault).
  { intros _ ->. apply column0_entries. exact Hs. }
  assert (Hrep : forall c, while_cond (negb (lookahead (state l) e)) flush = Repeat ->
            (if negb (lookahead (state l) e) && negb flush then c else l) = l
            /\ flush = false /\ state l <> start_state l
            /\ lookahead (state l) e = true).
  { intros c. unfold while_cond.
    destruct (lookahead (state l) e) eqn:Hl; destruct flush; simpl;
      try discriminate.
    intros _. repeat split; try reflexivity.
    intros E. rewrite E, (lookahead_at_start _ _ Hst) in Hl. discriminate. }
  assert (Hreset : forall c,
            set_state (set_token (if negb (lookahead (state l) e) && negb flush
                                  then set_token l c else l) EmptyString)
                      (start_state (if negb (lookahead (state l) e) && negb flush
                                    then set_token l c else l)) = reset l).
  { intros c. destruct (_ && _); reflexivity. }
  assert (Hrep' : while_cond (negb (lookahead (state l) e)) flush = Repeat ->
            reset l = reset l /\ flush = false /\ state l <> start_state l).
  { intros H. apply (Hrep l) in H. tauto. }
  destruct (switch_on e) eqn:Hsw.
  - (* a token *)
    eexists; split; [reflexivity|]. unfold body_post.
    rewrite Hreset.
    split; [reflexivity|]. split; [reflexivity|]. split; [reflexivity|].
    split; [apply lexer_okb_reset; exact Hok|].
    split.
    { constructor; [|constructor]. unfold not_skip. simpl.
      apply switch_on_token in Hsw. tauto. }
    split; [simpl; lia|].
    split; [exact Hrep'|]. split; reflexivity.
  - (* skip *)
    eexists; split; [reflexivity|]. unfold body_post.
    rewrite Hreset.
    split; [reflexivity|]. split; [reflexivity|]. split; [reflexivity|].
    split; [apply lexer_okb_reset; exact Hok|].
    split; [constructor|].
    split; [simpl; lia|].
    split; [exact Hrep'|]. split; reflexivity.
  - (* error *)
    eexists; split; [reflexivity|]. unfold body_post.
    rewrite Hreset.
    split; [reflexivity|]. split; [reflexivity|]. split; [reflexivity|].
    split; [apply lexer_okb_reset; exact Hok|].
    split.
    { constructor; [|constructor]. unfold not_skip. simpl.
      unfold JSON_ERROR, JSON_SKIP. lia. }
    split; [simpl; lia|].
    split; [discriminate|]. split; reflexivity.
  - (* another state *)
    eexists; split; [reflexivity|]. unfold body_post.
    assert (Hnl : lookahead (state l) e = false).
    { destruct (lookahead (state l) e) eqn:Hl; [|reflexivity].
      exfalso. exact (lookahead_not_default _ _ Hs Hl Hsw). }
    rewrite Hnl. simpl negb.
    pose proof (default_entries (state l) ch Hs Hsw) as He. fold e in He.
    split; [destruct flush; reflexivity|].
    split; [destruct flush; reflexivity|].
    split; [destruct flush; reflexivity|].
    split.
    { unfold lexer_okb.
      replace (start_state (set_state _ e)) with (start_state l)
        by (destruct flush; reflexivity).
      replace (state (set_state _ e)) with e
        by (destruct flush; reflexivity).
      rewrite Hst.
      assert (Hne : (e =? start_state l) = false).
      { apply Z.eqb_neq. apply is_start_bounds in Hst as Hb.
        unfold is_start, IN_START, IN_START_INTERP in Hst.
        unfold IN_WHITESPACE in He. lia. }
      rewrite Hne. unfold in_range. lia. }
    split; [constructor|].
    split; [simpl; lia|].
    split; [unfold while_cond; simpl; discriminate|].
    split; [intros Hf Hc; exfalso; exact (Hflush Hf Hc eq_refl)|].
    unfold while_cond. destruct flush; simpl; discriminate.
Qed.

(** ** Fuel

    A result obtained with some number of passes allowed is obtained with
    any larger number. *)

Lemma bind_ok {A B : Type} (r : result A) (f : A -> result B) (b : B) :
  (r <- r ;; f r) = Ok b -> exists a, r = Ok a /\ f a = Ok b.
Proof.
  destruct r; simpl; try discriminate. intros H. exists a. auto.
Qed.

Lemma do_while_more fuel : forall l ch flush e,
  do_while fuel l ch flush = Ok e -> do_while (S fuel) l ch flush = Ok e.
Proof.
  induction fuel as [|fuel IH]; intros l ch flush e H; [discriminate|].
  cbn [do_while] in H. apply bind_ok in H. destruct H as [[[ex l'] out] [Hb H]].
  change (do_while (S (S fuel)) l ch flush)
    with (r <- loop_body l ch flush ;;
          match r with
          | (Repeat, lexer', out) =>
              e <- do_while (S fuel) lexer' ch flush ;;
              Ok (mkLoopEnd (le_returned e) (le_lexer e)
                            (out ++ le_out e) (S (le_passes e)))
          | (Break, lexer', out) => Ok (mkLoopEnd false lexer' out 1)
          | (Return, lexer', out) => Ok (mkLoopEnd true lexer' out 1)
          end).
  rewrite Hb. cbn [bind].
  destruct ex; try exact H.
  apply bind_ok in H. destruct H as [e' [He' H]].
  rewrite (IH _ _ _ _ He'). exact H.
Qed.

Lemma feed_char_more fuel l ch flush r :
  json_lexer_feed_char fuel l ch flush = Ok r ->
  json_lexer_feed_char (S fuel) l ch flush = Ok r.
Proof.
  unfold json_lexer_feed_char. intros H.
  apply bind_ok in H. destruct H as [e [He H]].
  rewrite (do_while_more _ _ _ _ _ He). exact H.
Qed.

Lemma feed_more fuel : forall buffer l r,
  json_lexer_feed fuel l buffer = Ok r ->
  json_lexer_feed (S fuel) l buffer = Ok r.
Proof.
  induction buffer as [|ch rest IH]; intros l r H; [exact H|].
  cbn [json_lexer_feed] in *.
  apply bind_ok in H. destruct H as [r1 [H1 H]].
  apply bind_ok in H. destruct H as [r2 [H2 H]].
  rewrite (feed_char_more _ _ _ _ _ H1). cbn [bind].
  rewrite (IH _ _ H2). exact H.
Qed.

Lemma flush_more fuel l r :
  json_lexer_flush fuel l = Ok r -> json_lexer_flush (S fuel) l = Ok r.
Proof.
  unfold json_lexer_flush. intros H.
  apply bind_ok in H. destruct H as [r1 [H1 H]].
  destruct (negb (state l =? start_state l)).
  - rewrite (feed_char_more _ _ _ _ _ H1). exact H.
  - rewrite H1. exact H.
Qed.

Lemma run_more fuel : forall calls l r,
  run fuel l calls = Ok r -> run (S fuel) l calls = Ok r.
Proof.
  induction calls as [|c rest IH]; intros l r H; [exact H|].
  cbn [run] in *.
  apply bind_ok in H. destruct H as [r1 [H1 H]].
  apply bind_ok in H. destruct H as [r2 [H2 H]].
  assert (H1' : call (S fuel) l c = Ok r1).
  { destruct c; [apply feed_more|apply flush_more]; exact H1. }
  rewrite H1'. cbn [bind]. rewrite (IH _ _ H2). exact H.
Qed.

Lemma more_fuel {A B : Type} (f : nat -> A -> result B) :
  (forall fuel a r, f fuel a = Ok r -> f (S fuel) a = Ok r) ->
  forall k fuel a r, f fuel a = Ok r -> f (k + fuel)%nat a = Ok r.
Proof.
  intros Hf k. induction k as [|k IH]; intros fuel a r H; [exact H|].
  simpl. apply Hf. apply IH. exact H.
Qed.

Lemma run_fuel k fuel l calls r :
  run fuel l calls = Ok r -> run (k + fuel) l calls = Ok r.
Proof.
  intros H.
  apply (more_fuel (fun fuel '(l, calls) => run fuel l calls)
           (fun fuel '(l, calls) r => run_more fuel calls l r)
           k fuel (l, calls) r H).
Qed.

Lemma flush_fuel k fuel l r :
  json_lexer_flush fuel l = Ok r -> json_lexer_flush (k + fuel) l = Ok r.
Proof.
  intros H. apply (more_fuel json_lexer_flush flush_more k fuel l r H).
Qed.

Lemma do_while_fuel k fuel l ch flush e :
  do_while fuel l ch flush = Ok e -> do_while (k + fuel) l ch flush = Ok e.
Proof.
  intros H.
  apply (more_fuel (fun fuel '(l, ch, flush) => do_while fuel l ch flush)
           (fun fuel '(l, ch, flush) e => do_while_more fuel l ch flush e)
           k fuel (l, ch, flush) e H).
Qed.

Lemma feed_char_fuel k fuel l ch flush r :
  json_lexer_feed_char fuel l ch flush = Ok r ->
  json_lexer_feed_char (k + fuel) l ch flush = Ok r.
Proof.
  intros H.
  apply (more_fuel
           (fun fuel '(l, ch, flush) => json_lexer_feed_char fuel l ch flush)
           (fun fuel '(l, ch, flush) r => feed_char_more fuel l ch flush r)
           k fuel (l, ch, flush) r H).
Qed.

Lemma two_plus fuel : S (S fuel) = (fuel + 2)%nat.
Proof. lia. Qed.

(** ** The loop, the calls and the invariant *)

Lemma do_while_ok l ch flush :
  lexer_okb l = true ->
  exists e, do_while 2 l ch flush = Ok e /\ loop_post l ch flush e.
Proof.
  intros Hok.
  destruct (loop_body_ok l ch flush Hok) as [[[ex l1] out1] [Hb Hp]].
  destruct Hp as (Hst & Hx & Hy & Hok1 & Hns & Hlen & Hrep & Hfl & Hret).
  cbn [do_while]. rewrite Hb. cbn [bind].
  destruct ex.
  - (* the byte was lookahead: one more pass, from the start state *)
    destruct (Hrep eq_refl) as (-> & -> & Hne).
    destruct (loop_body_ok (reset l) ch false Hok1) as [[[ex2 l2] out2] [Hb2 Hp2]].
    destruct Hp2 as (Hst2 & Hx2 & Hy2 & Hok2 & Hns2 & Hlen2 & Hrep2 & _ & Hret2).
    rewrite Hb2. cbn [bind].
    destruct ex2.
    + exfalso. destruct (Hrep2 eq_refl) as (_ & _ & Hne2). apply Hne2. reflexivity.
    + eexists; split; [reflexivity|]. unfold loop_post; simpl.
      repeat (split; [first [assumption | lia | discriminate
                            | apply Forall_app; split; assumption]|]).
      discriminate.
    + eexists; split; [reflexivity|]. unfold loop_post; simpl.
      repeat (split; [first [assumption | lia | discriminate
                            | apply Forall_app; split; assumption]|]).
      intros _. apply Hret2. reflexivity.
  - eexists; split; [reflexivity|]. unfold loop_post; simpl.
    repeat (split; [first [assumption | lia]|]).
    split; [|discriminate].
    intros Hf Hc. split; [apply Hfl; assumption|exact Hlen].
  - eexists; split; [reflexivity|]. unfold loop_post; simpl.
    repeat (split; [first [assumption | lia]|]).
    split; [|intros _; apply Hret; reflexivity].
    intros Hf Hc. split; [apply Hfl; assumption|exact Hlen].
Qed.

Lemma lexer_okb_advance l ch : lexer_okb (advance l ch) = lexer_okb l.
Proof. unfold advance. destruct (Ascii.eqb ch LF); reflexivity. Qed.

Lemma advance_fields l ch :
  start_state (advance l ch) = start_state l
  /\ state (advance l ch) = state l
  /\ token (advance l ch) = token l.
Proof. unfold advance. destruct (Ascii.eqb ch LF); auto. Qed.

Lemma feed_char_ok l ch flush :
  lexer_okb l = true ->
  exists r, json_lexer_feed_char 2 l ch flush = Ok r /\ char_post l ch flush r.
Proof.
  intros Hok.
  assert (Hok' : lexer_okb (advance l ch) = true)
    by (rewrite lexer_okb_advance; exact Hok).
  destruct (do_while_ok (advance l ch) ch flush Hok') as [e [He Hp]].
  destruct Hp as (Hst & Hx & Hy & Hok1 & Hns & Hpass & Hfl & Hret).
  destruct (advance_fields l ch) as (Ast & _ & _).
  unfold json_lexer_feed_char. rewrite He. cbn [bind].
  destruct (le_returned e) eqn:Hr.
  - eexists; split; [reflexivity|]. unfold char_post, inv; simpl.
    split; [congruence|]. split; [split; [exact Hok1|]|].
    { rewrite (Hret eq_refl). vm_compute. discriminate. }
    split; [exact Hns|].
    intros Hf Hc. subst ch. apply Hfl; auto.
  - unfold check_size.
    destruct (Z.gtb_spec (len (token (le_lexer e))) MAX_TOKEN_SIZE) as [Hbig|Hsmall].
    + eexists; split; [reflexivity|]. unfold char_post, inv; simpl.
      split; [congruence|]. split; [split|].
      { apply (lexer_okb_reset _ Hok1). }
      { vm_compute. discriminate. }
      split.
      { apply Forall_app. split; [exact Hns|].
        constructor; [|constructor]. unfold not_skip, JSON_SKIP. simpl.
        pose proof (lexer_okb_bounds _ Hok1). lia. }
      intros Hf Hc. subst ch. destruct (Hfl Hf eq_refl) as [E _].
      exfalso. rewrite E in Hbig. vm_compute in Hbig. discriminate.
    + eexists; split; [reflexivity|]. unfold char_post, inv; simpl.
      split; [congruence|]. split; [split; [exact Hok1|lia]|].
      split; [rewrite app_nil_r; exact Hns|].
      intros Hf Hc. subst ch. rewrite app_nil_r. apply Hfl; auto.
Qed.

Lemma feed_ok : forall buffer l,
  inv l ->
  exists r, json_lexer_feed 2 l buffer = Ok r
    /\ start_state (fst r) = start_state l
    /\ inv (fst r) /\ Forall not_skip (snd r).
Proof.
  induction buffer as [|ch rest IH]; intros l Hinv.
  - eexists; split; [reflexivity|]. simpl. auto.
  - destruct (feed_char_ok l ch false (proj1 Hinv)) as [[l1 o1] [H1 P1]].
    destruct P1 as (S1 & I1 & N1 & _). simpl in S1, I1, N1.
    destruct (IH l1 I1) as [[l2 o2] (H2 & S2 & I2 & N2)].
    simpl in S2, I2, N2.
    cbn [json_lexer_feed]. rewrite H1. cbn [bind fst]. rewrite H2.
    eexists; split; [reflexivity|]. simpl.
    split; [congruence|]. split; [exact I2|].
    apply Forall_app. auto.
Qed.

Lemma flush_ok l :
  inv l ->
  exists l' pending,
    json_lexer_flush 2 l
      = Ok (l', pending ++ [mkToken EmptyString JSON_END_OF_INPUT (x l') (y l')])
    /\ start_state l' = start_state l
    /\ state l' = start_state l'
    /\ inv l'
    /\ Forall not_skip pending
    /\ (List.length pending <= 1)%nat
    /\ (state l = start_state l -> l' = l /\ pending = []).
Proof.
  intros [Hok Hlen]. unfold json_lexer_flush.
  destruct (Z.eqb_spec (state l) (start_state l)) as [E|NE]; cbn [negb].
  - cbn [bind fst snd]. rewrite (lexer_okb_empty l Hok E).
    exists l, []. simpl. repeat split; auto.
  - destruct (feed_char_ok l NUL true Hok) as [[l1 o1] [H1 P1]].
    destruct P1 as (S1 & I1 & N1 & F1). simpl in S1, I1, N1, F1.
    destruct (F1 eq_refl eq_refl) as [E1 L1].
    rewrite H1. cbn [bind fst snd].
    exists l1, o1.
    assert (Ht : token l1 = EmptyString) by (rewrite E1; reflexivity).
    split; [unfold json_message_process_token; rewrite Ht; reflexivity|].
    split; [exact S1|].
    split; [rewrite E1; reflexivity|].
    split; [exact I1|].
    split; [exact N1|].
    split; [exact L1|].
    intros E. contradiction.
Qed.

Lemma call_ok c l :
  inv l ->
  exists r, call 2 l c = Ok r
    /\ start_state (fst r) = start_state l
    /\ inv (fst r) /\ Forall not_skip (snd r).
Proof.
  intros Hinv. destruct c as [buffer|].
  - apply feed_ok. exact Hinv.
  - destruct (flush_ok l Hinv) as (l' & pending & H & S1 & _ & I1 & N1 & _).
    cbn [call]. rewrite H. eexists; split; [reflexivity|]. simpl.
    split; [exact S1|]. split; [exact I1|].
    apply Forall_app. split; [exact N1|].
    constructor; [|constructor]. unfold not_skip. simpl.
    unfold JSON_END_OF_INPUT, JSON_SKIP. lia.
Qed.

Lemma run_ok : forall calls l,
  inv l ->
  exists r, run 2 l calls = Ok r
    /\ start_state (fst r) = start_state l
    /\ inv (fst r) /\ Forall not_skip (snd r).
Proof.
  induction calls as [|c rest IH]; intros l Hinv.
  - eexists; split; [reflexivity|]. simpl. auto.
  - destruct (call_ok c l Hinv) as [[l1 o1] (H1 & S1 & I1 & N1)].
    simpl in S1, I1, N1.
    destruct (IH l1 I1) as [[l2 o2] (H2 & S2 & I2 & N2)].
    simpl in S2, I2, N2.
    cbn [run]. rewrite H1. cbn [bind fst]. rewrite H2.
    eexists; split; [reflexivity|]. simpl.
    split; [congruence|]. split; [exact I2|].
    apply Forall_app. auto.
Qed.

Lemma init_inv interp : inv (json_lexer_init interp).
Proof. destruct interp; split; vm_compute; first [reflexivity|discriminate]. Qed.

Lemma reachable_inv l : reachable l -> inv l.
Proof.
  intros (interp & fuel & calls & out & H).
  destruct (run_ok calls _ (init_inv interp)) as [r (H2 & _ & I & _)].
  apply (run_fuel 2) in H. apply (run_fuel fuel) in H2.
  replace (2 + fuel)%nat with (fuel + 2)%nat in H by lia.
  rewrite H in H2. injection H2 as <-. exact I.
Qed.

Lemma run_single fuel l c : run fuel l [c] = call fuel l c.
Proof.
  cbn [run]. destruct (call fuel l c) as [[l' out]| | |]; try reflexivity.
  simpl. rewrite app_nil_r. reflexivity.
Qed.

Lemma run_cons fuel l c rest :
  run fuel l (c :: rest)
  = (r <- call fuel l c ;;
     r' <- run fuel (fst r) rest ;; Ok (fst r', snd r ++ snd r')).
Proof. reflexivity. Qed.

Lemma feed_app fuel : forall b1 b2 l,
  json_lexer_feed fuel l (b1 ++ b2)%string
  = (r <- json_lexer_feed fuel l b1 ;;
     r' <- json_lexer_feed fuel (fst r) b2 ;; Ok (fst r', snd r ++ snd r')).
Proof.
  induction b1 as [|ch b1 IH]; intros b2 l.
  - simpl. destruct (json_lexer_feed fuel l b2) as [[l' out]| | |]; reflexivity.
  - cbn [append json_lexer_feed].
    destruct (json_lexer_feed_char fuel l ch false) as [[l1 o1]| | |];
      try reflexivity.
    cbn [bind fst snd]. rewrite IH.
    destruct (json_lexer_feed fuel l1 b1) as [[l2 o2]| | |]; try reflexivity.
    cbn [bind fst snd].
    destruct (json_lexer_feed fuel l2 b2) as [[l3 o3]| | |]; try reflexivity.
    cbn [bind fst snd]. rewrite app_assoc. reflexivity.
Qed.

Lemma run_feeds fuel : forall chunks l,
  run fuel l (map Feed chunks)
  = json_lexer_feed fuel l (String.concat EmptyString chunks).
Proof.
  assert (Hc : forall c rest, String.concat EmptyString (c :: rest)
                 = (c ++ String.concat EmptyString rest)%string).
  { intros c [|c' rest]; simpl; [|reflexivity].
    induction c as [|a c IH]; simpl; [reflexivity|]. rewrite <- IH. reflexivity. }
  induction chunks as [|c rest IH]; intros l; [reflexivity|].
  rewrite Hc, feed_app. cbn [map]. rewrite run_cons. cbn [call].
  destruct (json_lexer_feed fuel l c) as [[l1 o1]| | |]; try reflexivity.
  cbn [bind fst snd]. rewrite IH. reflexivity.
Qed.

Lemma run_bytewise fuel : forall buffer l,
  run fuel l (bytewise buffer) = json_lexer_feed fuel l buffer.
Proof.
  induction buffer as [|ch rest IH]; intros l; [reflexivity|].
  cbn [bytewise]. rewrite run_cons. cbn [call json_lexer_feed].
  destruct (json_lexer_feed_char fuel l ch false) as [[l1 o1]| | |];
    try reflexivity.
  cbn [bind fst snd]. rewrite app_nil_r, IH. reflexivity.
Qed.

(** * The properties *)

(** ** Lookahead *)

(** C1.  The two bytes ["0"] and [","], fed in one call or in two, give the
    consumer exactly an integer token with text ["0"] and then a comma
    token.  The comma is lookahead for the integer: it is not appended to
    the buffer handed over, the lexer is reset to its start state, and the
    loop goes round again on the same byte. *)
Theorem C1_zero_then_comma (interp : bool) (fuel : nat) :
  run (S (S fuel)) (json_lexer_init interp) [Feed "0,"%string]
  = Ok (mkLexer (start_state (json_lexer_init interp))
                (start_state (json_lexer_init interp)) EmptyString 2 0,
        [mkToken "0"%string JSON_INTEGER 2 0;
         mkToken ","%string JSON_COMMA 2 0])
  /\ run (S (S fuel)) (json_lexer_init interp)
         [Feed "0"%string; Feed ","%string]
     = run (S (S fuel)) (json_lexer_init interp) [Feed "0,"%string]
  /\ completes_by_lookahead
       (mkLexer (start_state (json_lexer_init interp)) IN_ZERO "0"%string 2 0)
       ","%char JSON_INTEGER.
Proof.
  rewrite two_plus.
  assert (H1 : run 2 (json_lexer_init interp) [Feed "0,"%string]
               = Ok (mkLexer (start_state (json_lexer_init interp))
                       (start_state (json_lexer_init interp)) EmptyString 2 0,
                     [mkToken "0"%string JSON_INTEGER 2 0;
                      mkToken ","%string JSON_COMMA 2 0]))
    by (destruct interp; vm_compute; reflexivity).
  assert (H2 : run 2 (json_lexer_init interp) [Feed "0"%string; Feed ","%string]
               = Ok (mkLexer (start_state (json_lexer_init interp))
                       (start_state (json_lexer_init interp)) EmptyString 2 0,
                     [mkToken "0"%string JSON_INTEGER 2 0;
                      mkToken ","%string JSON_COMMA 2 0]))
    by (destruct interp; vm_compute; reflexivity).
  split; [apply run_fuel; exact H1|].
  split.
  - rewrite (run_fuel fuel 2 _ _ _ H1). apply run_fuel. exact H2.
  - destruct interp; vm_compute; reflexivity.
Qed.

(** On the seven rows that open with [TERMINAL(tag)], every byte up to
    0x7F that no later initialiser of the row names holds [tag]. *)
Lemma terminal_row_entries s tag ch :
  In (s, tag) terminal_rows ->
  uint8 ch <= 0x7F -> overridden s (uint8 ch) = false ->
  entry s ch = tag.
Proof.
  intros Hin Hle Hov.
  pose proof (forallb_forall
    (fun '(s, tag) => forall_ascii (fun ch =>
       if (uint8 ch <=? 0x7F) && negb (overridden s (uint8 ch))
       then entry s ch =? tag else true))
    terminal_rows) as [H _].
  specialize (H ltac:(vm_compute; reflexivity) (s, tag) Hin).
  simpl in H. apply forall_ascii_spec with (ch := ch) in H.
  rewrite Hov in H.
  destruct (Z.leb_spec (uint8 ch) 0x7F) as [_|Hgt]; [|lia].
  simpl in H. apply Z.eqb_eq. exact H.
Qed.

(** The seven rows are rows of the table that open with [TERMINAL(tag)],
    and their tag is looked ahead for. *)
Lemma terminal_rows_shape s tag :
  In (s, tag) terminal_rows ->
  0 <= s < 18
  /\ hd_error (cells_of_row s) = Some (TERMINAL tag)
  /\ lookahead s tag = true
  /\ (switch_on tag = CaseToken /\ tag <> JSON_SKIP
      \/ switch_on tag = CaseSkip /\ tag = JSON_SKIP).
Proof.
  intros Hin. unfold terminal_rows in Hin. simpl in Hin.
  repeat (destruct Hin as [Hin|Hin];
          [injection Hin as <- <-;
           repeat split; try (vm_compute; congruence);
           first [left; split; vm_compute; congruence
                 |right; split; vm_compute; congruence]|]).
  contradiction.
Qed.

(** Conversely, every row of the table that opens with [TERMINAL(tag)] is
    one of the seven. *)
Lemma terminal_rows_complete s tag :
  0 <= s < 18 ->
  hd_error (cells_of_row s) = Some (TERMINAL tag) ->
  In (s, tag) terminal_rows.
Proof.
  intros Hs Hhd.
  pose proof (forall_row_spec
    (fun s => match hd_error (cells_of_row s) with
              | Some (lo, hi, t) =>
                  if (lo =? 0) && (hi =? 0x7F)
                  then existsb (fun '(s', t') => (s' =? s) && (t' =? t))
                               terminal_rows
                  else true
              | None => true
              end)
    ltac:(vm_compute; reflexivity) s Hs) as H.
  cbv beta in H. rewrite Hhd in H. unfold TERMINAL in H.
  change ((0 =? 0) && (0x7F =? 0x7F)) with true in H. cbv iota in H.
  apply existsb_exists in H. destruct H as [[s' t'] [Hin Heq]].
  apply andb_true_iff in Heq. destruct Heq as [E1 E2].
  apply Z.eqb_eq in E1. apply Z.eqb_eq in E2. subst. exact Hin.
Qed.

Lemma terminal_row_body s tag l ch :
  In (s, tag) terminal_rows -> state l = s ->
  uint8 ch <= 0x7F -> overridden s (uint8 ch) = false ->
  completes_by_lookahead l ch tag.
Proof.
  intros Hin Hs Hle Hov.
  destruct (terminal_rows_shape s tag Hin) as (Hb & _ & Hla & Hsw).
  pose proof (terminal_row_entries s tag ch Hin Hle Hov) as He.
  unfold completes_by_lookahead, completed.
  rewrite loop_body_row by (rewrite Hs; exact Hb). cbv zeta.
  rewrite Hs, He, Hla. simpl negb. cbn [andb while_cond].
  destruct Hsw as [[Hsw Hne]|[Hsw Heq]]; rewrite Hsw.
  - apply Z.eqb_neq in Hne. rewrite Hne. reflexivity.
  - apply Z.eqb_eq in Heq. rewrite Heq. reflexivity.
Qed.

(** A byte whose cell holds [IN_ERROR]: one error token, and a reset. *)
Lemma error_transition
  (fuel : nat) (l : JSONLexer) (ch : ascii) (flush : bool) :
  json_lexer (state l) (uint8 ch) = Some IN_ERROR ->
  json_lexer_feed_char (S fuel) l ch flush
  = Ok (mkLexer (start_state l) (start_state l) EmptyString
                (x (advance l ch)) (y (advance l ch)),
        [mkToken (if flush then token l else g_string_append_c (token l) ch)
                 JSON_ERROR (x (advance l ch)) (y (advance l ch))]).
Proof.
  intros He.
  pose proof (json_lexer_some _ _ _ He) as Hb.
  rewrite json_lexer_row in He by exact Hb. injection He as He.
  destruct (advance_fields l ch) as (Ast & As & At).
  unfold json_lexer_feed_char. cbn [do_while].
  rewrite loop_body_row by (rewrite As; exact Hb). cbv zeta.
  rewrite As. unfold entry. rewrite He.
  change (switch_on IN_ERROR) with CaseError. cbv iota.
  unfold lookahead. rewrite Z.eqb_refl. cbn [negb andb].
  destruct flush; cbn [negb]; unfold set_state, set_token; cbn;
    rewrite ?Ast, ?At; reflexivity.
Qed.

(** The cells [TERMINAL] leaves out: in the seven rows no initialiser
    names a byte above 0x7F, and the cell holds [IN_ERROR]. *)
Lemma terminal_row_high s tag ch :
  In (s, tag) terminal_rows -> 0x80 <= uint8 ch ->
  overridden s (uint8 ch) = false /\ entry s ch = IN_ERROR.
Proof.
  intros Hin Hge.
  pose proof (forallb_forall
    (fun '(s, tag) => forall_ascii (fun ch =>
       if 0x80 <=? uint8 ch
       then negb (overridden s (uint8 ch)) && (entry s ch =? IN_ERROR)
       else true))
    terminal_rows) as [H _].
  specialize (H ltac:(vm_compute; reflexivity) (s, tag) Hin).
  simpl in H. apply forall_ascii_spec with (ch := ch) in H.
  destruct (Z.leb_spec 0x80 (uint8 ch)) as [_|Hlt]; [|lia].
  apply andb_true_iff in H. destruct H as [H1 H2].
  split; [apply negb_true_iff; exact H1|apply Z.eqb_eq; exact H2].
Qed.

(** C2, as stated, fails on bytes above 0x7F: in the row of [IN_ZERO],
    which opens with [TERMINAL(JSON_INTEGER)], byte 0x80 is named by no
    later initialiser, yet it does not complete the buffer as an integer.
    The cell holds [IN_ERROR]; the byte is appended to the buffer and the
    whole is handed over as an error token. *)
Lemma C2_high_byte_counterexample :
  In (IN_ZERO, JSON_INTEGER) terminal_rows
  /\ uint8 "128"%char = 0x80
  /\ overridden IN_ZERO (uint8 "128"%char) = false
  /\ ~ completes_by_lookahead
         (mkLexer IN_START IN_ZERO "0"%string 2 0) "128"%char JSON_INTEGER
  /\ loop_body (mkLexer IN_START IN_ZERO "0"%string 2 0) "128"%char false
     = Ok (Return, mkLexer IN_START IN_START EmptyString 2 0,
           [mkToken (String "0"%char (String "128"%char EmptyString))
                    JSON_ERROR 2 0])
  /\ run 2 (json_lexer_init false)
         [Feed (String "0"%char (String "128"%char EmptyString))]
     = Ok (mkLexer IN_START IN_START EmptyString 2 0,
           [mkToken (String "0"%char (String "128"%char EmptyString))
                    JSON_ERROR 2 0]).
Proof.
  split; [vm_compute; auto|].
  split; [reflexivity|].
  split; [vm_compute; reflexivity|].
  split; [|split; vm_compute; reflexivity].
  unfold completes_by_lookahead. vm_compute. discriminate.
Qed.

(** C2, amended.  In every row that opens with [TERMINAL(tag)] (ZERO,
    DIGITS, MANTISSA_DIGITS, EXP_DIGITS, KEYWORD, WHITESPACE, INTERP), for
    every byte in 0x00..0x7F that no later initialiser of the row names,
    the cell holds [tag] and the transition needs lookahead: feeding the
    byte completes the buffer with that tag without appending the byte
    (the buffer goes to the consumer, or is dropped when the tag is
    [JSON_SKIP]), the lexer is reset to its start state, and the loop
    processes the same byte again from there.  The bytes 0x80..0xFF are
    not covered by [TERMINAL]: in each of the seven rows no initialiser
    names them and their cells hold [IN_ERROR], so that such a byte does
    not complete the buffer with the row's tag; it is appended to the
    buffer, the whole is handed over as one error token, and the lexer
    is left at its start state with an empty buffer. *)
Theorem C2_terminal_rows_lookahead
  (s tag : Z) (l : JSONLexer) (ch : ascii) (fuel : nat) :
  In (s, tag) terminal_rows -> state l = s ->
  hd_error (cells_of_row s) = Some (TERMINAL tag)
  /\ TERMINAL_NEEDED_LOOKAHEAD s tag = Some true
  /\ (uint8 ch <= 0x7F -> overridden s (uint8 ch) = false ->
      json_lexer s (uint8 ch) = Some tag
      /\ completes_by_lookahead l ch tag
      /\ do_while (S fuel) l ch false
         = (e <- do_while fuel (reset l) ch false ;;
            Ok (mkLoopEnd (le_returned e) (le_lexer e)
                          (completed l tag ++ le_out e) (S (le_passes e)))))
  /\ (0x80 <= uint8 ch ->
      overridden s (uint8 ch) = false
      /\ json_lexer s (uint8 ch) = Some IN_ERROR
      /\ ~ completes_by_lookahead l ch tag
      /\ json_lexer_feed_char (S fuel) l ch false
         = Ok (mkLexer (start_state l) (start_state l) EmptyString
                       (x (advance l ch)) (y (advance l ch)),
               [mkToken (g_string_append_c (token l) ch) JSON_ERROR
                        (x (advance l ch)) (y (advance l ch))])).
Proof.
  intros Hin Hs.
  destruct (terminal_rows_shape s tag Hin) as (Hb & Hhd & Hla & _).
  split; [exact Hhd|].
  split.
  { rewrite (lookahead_row _ _ Hb). f_equal. exact Hla. }
  split.
  - intros Hle Hov.
    pose proof (terminal_row_entries s tag ch Hin Hle Hov) as He.
    pose proof (terminal_row_body s tag l ch Hin Hs Hle Hov) as Hbody.
    split; [rewrite json_lexer_row by exact Hb; f_equal; exact He|].
    split; [exact Hbody|].
    cbn [do_while]. unfold completes_by_lookahead in Hbody. rewrite Hbody.
    reflexivity.
  - intros Hge.
    destruct (terminal_row_high s tag ch Hin Hge) as [Hov He].
    assert (Hcell : json_lexer (state l) (uint8 ch) = Some IN_ERROR)
      by (rewrite Hs, json_lexer_row by exact Hb; f_equal; exact He).
    split; [exact Hov|].
    split; [rewrite <- Hs; exact Hcell|].
    split; [|apply (error_transition fuel l ch false Hcell)].
    unfold completes_by_lookahead.
    rewrite loop_body_row by (rewrite Hs; exact Hb). cbv zeta.
    rewrite Hs, He. change (switch_on IN_ERROR) with CaseError. cbv iota.
    discriminate.
Qed.

Lemma C2_terminal_rows_lookahead_witness :
  completes_by_lookahead
    (mkLexer IN_START IN_DIGITS "12"%string 3 0) "]"%char JSON_INTEGER
  /\ json_lexer_feed_char 1
       (mkLexer IN_START IN_KEYWORD "nul"%string 3 0) "255"%char false
     = Ok (mkLexer IN_START IN_START EmptyString 4 0,
           [mkToken (String "n" (String "u" (String "l"
                       (String "255"%char EmptyString))))
                    JSON_ERROR 4 0]).
Proof.
  split.
  - apply (proj1 (proj2 (proj2
             (C2_terminal_rows_lookahead IN_DIGITS JSON_INTEGER
                (mkLexer IN_START IN_DIGITS "12"%string 3 0) "]"%char 1
                ltac:(vm_compute; auto) eq_refl)))).
    + vm_compute. discriminate.
    + vm_compute. reflexivity.
  - apply (proj2 (proj2 (proj2
             (C2_terminal_rows_lookahead IN_KEYWORD JSON_KEYWORD
                (mkLexer IN_START IN_KEYWORD "nul"%string 3 0) "255"%char 0
                ltac:(vm_compute; auto 10) eq_refl)))).
    vm_compute. discriminate.
Defined.

(** ** Errors *)

(** C3.  From any state of the table and for any byte whose cell holds
    [IN_ERROR], [json_lexer_feed_char] returns: it hands the consumer
    exactly one token, tagged [JSON_ERROR], carrying the buffer (with the
    offending byte appended unless flushing) and the position; it leaves
    the buffer empty and the state at [start_state].  The bytes fed
    afterwards are therefore lexed from a lexer at its start state with an
    empty buffer. *)
Theorem C3_error_token
  (fuel : nat) (l : JSONLexer) (ch : ascii) (flush : bool) (rest : string) :
  json_lexer (state l) (uint8 ch) = Some IN_ERROR ->
  json_lexer_feed_char (S fuel) l ch flush
  = Ok (mkLexer (start_state l) (start_state l) EmptyString
                (x (advance l ch)) (y (advance l ch)),
        [mkToken (if flush then token l else g_string_append_c (token l) ch)
                 JSON_ERROR (x (advance l ch)) (y (advance l ch))])
  /\ json_lexer_feed (S fuel) l (String ch rest)
     = (r <- json_lexer_feed (S fuel)
               (mkLexer (start_state l) (start_state l) EmptyString
                        (x (advance l ch)) (y (advance l ch))) rest ;;
        Ok (fst r,
            mkToken (g_string_append_c (token l) ch) JSON_ERROR
                    (x (advance l ch)) (y (advance l ch)) :: snd r)).
Proof.
  intros He.
  split; [apply error_transition; exact He|].
  cbn [json_lexer_feed].
  rewrite (error_transition fuel l ch false He). cbn [bind fst snd].
  destruct (json_lexer_feed (S fuel) _ rest) as [[l' out]| | |]; reflexivity.
Qed.

Lemma C3_error_token_witness :
  json_lexer_feed_char 1 (mkLexer IN_START IN_EXP_E "1e"%string 2 0)
                       "x"%char false
  = Ok (mkLexer IN_START IN_START EmptyString 3 0,
        [mkToken "1ex"%string JSON_ERROR 3 0]).
Proof.
  apply (C3_error_token 0 (mkLexer IN_START IN_EXP_E "1e"%string 2 0)
           "x"%char false EmptyString).
  vm_compute. reflexivity.
Defined.

(** ** Chunking *)

(** C4.  Feeding a byte sequence one byte per [json_lexer_feed] call gives
    the same result -- the same tokens with the same tags, texts and
    positions, and the same lexer -- as feeding it in a single call, and so
    does any other way of cutting it into chunks.  On a freshly
    initialised lexer both return. *)
Theorem C4_chunk_size_invariance
  (fuel : nat) (l : JSONLexer) (buffer : string) :
  run fuel l (bytewise buffer) = run fuel l [Feed buffer]
  /\ (forall chunks,
        run fuel l (map Feed chunks)
        = run fuel l [Feed (String.concat EmptyString chunks)])
  /\ (forall interp, exists r,
        run (S (S fuel)) (json_lexer_init interp) [Feed buffer] = Ok r
        /\ run (S (S fuel)) (json_lexer_init interp) (bytewise buffer) = Ok r).
Proof.
  split; [rewrite run_bytewise, run_single; reflexivity|].
  split; [intros chunks; rewrite run_feeds, run_single; reflexivity|].
  intros interp.
  destruct (run_ok [Feed buffer] _ (init_inv interp)) as [r [Hr _]].
  exists r. rewrite two_plus.
  assert (H : run (fuel + 2) (json_lexer_init interp) [Feed buffer] = Ok r)
    by (apply run_fuel; exact Hr).
  split; [exact H|].
  rewrite run_bytewise. rewrite run_single in H. exact H.
Qed.

(** ** End of input *)

(** C5.  Flushing after ["12"] hands over an integer token with text
    ["12"] and then an end-of-input token; flushing after ["1e"] hands over
    an error token and then an end-of-input token.  After any sequence of
    calls, [json_lexer_flush] returns and the last token it hands over is
    the end-of-input token, with empty text and the lexer's position;
    before it comes at most one token, and none when no token was
    pending. *)
Theorem C5_flush (interp : bool) (fuel : nat) (calls : list lexer_call) :
  run (S (S fuel)) (json_lexer_init interp) [Feed "12"%string; Flush]
  = Ok (mkLexer (start_state (json_lexer_init interp))
                (start_state (json_lexer_init interp)) EmptyString 3 0,
        [mkToken "12"%string JSON_INTEGER 3 0;
         mkToken EmptyString JSON_END_OF_INPUT 3 0])
  /\ run (S (S fuel)) (json_lexer_init interp) [Feed "1e"%string; Flush]
     = Ok (mkLexer (start_state (json_lexer_init interp))
                   (start_state (json_lexer_init interp)) EmptyString 3 0,
           [mkToken "1e"%string JSON_ERROR 3 0;
            mkToken EmptyString JSON_END_OF_INPUT 3 0])
  /\ exists l out l' pending,
       run (S (S fuel)) (json_lexer_init interp) calls = Ok (l, out)
       /\ json_lexer_flush (S (S fuel)) l
          = Ok (l', pending ++ [mkToken EmptyString JSON_END_OF_INPUT
                                        (x l') (y l')])
       /\ (List.length pending <= 1)%nat
       /\ (state l = start_state l -> l' = l /\ pending = []).
Proof.
  rewrite two_plus.
  split; [apply run_fuel; destruct interp; vm_compute; reflexivity|].
  split; [apply run_fuel; destruct interp; vm_compute; reflexivity|].
  destruct (run_ok calls _ (init_inv interp)) as [[l out] (Hr & _ & I & _)].
  simpl in I.
  destruct (flush_ok l I) as (l' & pending & Hf & _ & _ & _ & _ & Hlen & Hst).
  exists l, out, l', pending.
  split; [apply run_fuel; exact Hr|].
  split; [apply flush_fuel; exact Hf|].
  split; assumption.
Qed.

(** ** The bound on the token buffer *)

Lemma loop_body_return_empty l ch flush l' out :
  loop_body l ch flush = Ok (Return, l', out) -> token l' = EmptyString.
Proof.
  unfold loop_body.
  destruct (negb (state l <=? ARRAY_SIZE_json_lexer)); [discriminate|].
  destruct (json_lexer (state l) (uint8 ch)) as [e|]; [|discriminate].
  destruct (TERMINAL_NEEDED_LOOKAHEAD (state l) e) as [la|]; [|discriminate].
  assert (Hw : forall b, while_cond b flush <> Return)
    by (intros b; unfold while_cond; destruct (_ && _); discriminate).
  destruct (switch_on e); intros H; inversion H; subst;
    try (exfalso; eapply Hw; eassumption).
  reflexivity.
Qed.

Lemma do_while_returned_empty fuel : forall l ch flush e,
  do_while fuel l ch flush = Ok e ->
  le_returned e = true -> token (le_lexer e) = EmptyString.
Proof.
  induction fuel as [|fuel IH]; intros l ch flush e H Hr; [discriminate|].
  cbn [do_while] in H. apply bind_ok in H.
  destruct H as [[[ex l1] o1] [Hb H]].
  destruct ex.
  - apply bind_ok in H. destruct H as [e' [He' H]].
    injection H as <-. simpl in *. apply (IH _ _ _ _ He' Hr).
  - injection H as <-. discriminate.
  - injection H as <-. simpl. apply (loop_body_return_empty _ _ _ _ _ Hb).
Qed.

Lemma feed_char_bounded fuel l ch flush l' out :
  json_lexer_feed_char fuel l ch flush = Ok (l', out) ->
  len (token l') <= MAX_TOKEN_SIZE.
Proof.
  unfold json_lexer_feed_char. intros H.
  apply bind_ok in H. destruct H as [e [He H]].
  destruct (le_returned e) eqn:Hr.
  - injection H as <- _. rewrite (do_while_returned_empty _ _ _ _ _ He Hr).
    vm_compute. discriminate.
  - unfold check_size in H.
    destruct (Z.gtb_spec (len (token (le_lexer e))) MAX_TOKEN_SIZE);
      injection H as <- _.
    + vm_compute. discriminate.
    + assumption.
Qed.

Lemma len_append_c t ch : len (g_string_append_c t ch) = len t + 1.
Proof.
  unfold len, g_string_append_c.
  induction t as [|a t IH]; [reflexivity|].
  cbn [append String.length]. rewrite !Nat2Z.inj_succ. lia.
Qed.

Lemma length_string_of_list (cs : list ascii) :
  String.length (string_of_list_ascii cs) = List.length cs.
Proof.
  induction cs as [|c cs IH]; [reflexivity|].
  cbn [string_of_list_ascii String.length List.length]. rewrite IH. reflexivity.
Qed.

Lemma len_long_string_token : len long_string_token = MAX_TOKEN_SIZE.
Proof.
  unfold len, long_string_token.
  change (String.length (String DQUOTE ?s)) with (S (String.length s)).
  rewrite length_string_of_list, repeat_length, Nat2Z.inj_succ.
  rewrite Z2Nat.id; [lia|].
  change MAX_TOKEN_SIZE with 67108864. lia.
Qed.

Lemma string_state_appends t px py :
  do_while 2 (advance (mkLexer IN_START IN_DQ_STRING t px py) "a"%char)
           "a"%char false
  = Ok (mkLoopEnd false
          (mkLexer IN_START IN_DQ_STRING (g_string_append_c t "a"%char)
                   (wrap_int (px + 1)) py)
          [] 1).
Proof. reflexivity. Qed.

(** C6.  After every sequence of feed and flush calls on a fresh lexer the
    token buffer holds at most [MAX_TOKEN_SIZE] = 64 * 2^20 bytes, and so
    it does after every [json_lexer_feed_char] that returns, from whatever
    lexer.  Whenever the loop leaves (by falling out of it) a buffer
    longer than that, the buffer is handed to the consumer tagged with the
    current state, and the lexer is left at [start_state] with an empty
    buffer. *)
Theorem C6_token_buffer_bounded :
  (forall interp fuel calls, exists l out,
      run (S (S fuel)) (json_lexer_init interp) calls = Ok (l, out)
      /\ len (token l) <= MAX_TOKEN_SIZE)
  /\ MAX_TOKEN_SIZE = 64 * 2 ^ 20
  /\ (forall fuel l ch flush l' out,
        json_lexer_feed_char fuel l ch flush = Ok (l', out) ->
        len (token l') <= MAX_TOKEN_SIZE)
  /\ (forall fuel l ch flush e,
        do_while fuel (advance l ch) ch flush = Ok e ->
        le_returned e = false ->
        MAX_TOKEN_SIZE < len (token (le_lexer e)) ->
        json_lexer_feed_char fuel l ch flush
        = Ok (mkLexer (start_state (le_lexer e)) (start_state (le_lexer e))
                      EmptyString (x (le_lexer e)) (y (le_lexer e)),
              le_out e ++ [mkToken (token (le_lexer e)) (state (le_lexer e))
                                   (x (le_lexer e)) (y (le_lexer e))])).
Proof.
  split.
  { intros interp fuel calls.
    destruct (run_ok calls _ (init_inv interp)) as [[l out] (Hr & _ & I & _)].
    exists l, out. rewrite two_plus.
    split; [apply run_fuel; exact Hr|apply I]. }
  split; [reflexivity|].
  split; [exact feed_char_bounded|].
  intros fuel l ch flush e He Hr Hbig.
  unfold json_lexer_feed_char. rewrite He. cbn [bind]. rewrite Hr.
  unfold check_size.
  destruct (Z.gtb_spec (len (token (le_lexer e))) MAX_TOKEN_SIZE); [|lia].
  reflexivity.
Qed.

Lemma C6_token_buffer_bounded_witness :
  json_lexer_feed_char 2
    (mkLexer IN_START IN_DQ_STRING long_string_token 0 0) "a"%char false
  = Ok (mkLexer IN_START IN_START EmptyString 1 0,
        [mkToken (g_string_append_c long_string_token "a"%char)
                 IN_DQ_STRING 1 0]).
Proof.
  apply (proj2 (proj2 (proj2 C6_token_buffer_bounded)) 2%nat
           (mkLexer IN_START IN_DQ_STRING long_string_token 0 0)
           "a"%char false
           (mkLoopEnd false
              (mkLexer IN_START IN_DQ_STRING
                 (g_string_append_c long_string_token "a"%char) 1 0)
              [] 1)).
  - apply string_state_appends.
  - reflexivity.
  - cbn [le_lexer token]. rewrite len_append_c, len_long_string_token. lia.
Defined.

(** ** Numbers with a leading zero *)

Lemma first_token_is_spec r text type :
  first_token_is r text type = true ->
  exists l t out, r = Ok (l, t :: out)
    /\ tok_text t = text /\ tok_type t = type.
Proof.
  destruct r as [[l [|t out]]| | |]; simpl; try discriminate.
  intros H. apply andb_true_iff in H. destruct H as [H1 H2].
  exists l, t, out. split; [reflexivity|].
  split; [apply String.eqb_eq; exact H1|apply Z.eqb_eq; exact H2].
Qed.

(** C7.  A leading ['0'] enters [IN_ZERO].  From there ['.'] enters
    [IN_MANTISSA]; a digit yields [IN_ERROR], so that ["01"] (and ["0"]
    followed by any other digit) gives one error token and no integer
    token; and any other byte up to 0x7F completes the lone ["0"] as an
    integer token by lookahead. *)
Theorem C7_zero_state (interp : bool) (fuel : nat) (ch : ascii) :
  json_lexer (start_state (json_lexer_init interp)) (uint8 "0"%char)
  = Some IN_ZERO
  /\ json_lexer IN_ZERO (uint8 "."%char) = Some IN_MANTISSA
  /\ run (S (S fuel)) (json_lexer_init interp) [Feed "0."%string]
     = Ok (mkLexer (start_state (json_lexer_init interp)) IN_MANTISSA
                   "0."%string 2 0, [])
  /\ run (S (S fuel)) (json_lexer_init interp) [Feed "01"%string]
     = Ok (mkLexer (start_state (json_lexer_init interp))
                   (start_state (json_lexer_init interp)) EmptyString 2 0,
           [mkToken "01"%string JSON_ERROR 2 0])
  /\ (is_digit ch = true ->
      json_lexer IN_ZERO (uint8 ch) = Some IN_ERROR
      /\ run (S (S fuel)) (json_lexer_init interp)
             [Feed (String "0"%char (String ch EmptyString))]
         = Ok (mkLexer (start_state (json_lexer_init interp))
                       (start_state (json_lexer_init interp)) EmptyString 2 0,
               [mkToken (String "0"%char (String ch EmptyString))
                        JSON_ERROR 2 0]))
  /\ (uint8 ch <= 0x7F -> ch <> "."%char -> is_digit ch = false ->
      json_lexer IN_ZERO (uint8 ch) = Some JSON_INTEGER
      /\ TERMINAL_NEEDED_LOOKAHEAD IN_ZERO JSON_INTEGER = Some true
      /\ exists l t out,
           run (S (S fuel)) (json_lexer_init interp)
               [Feed (String "0"%char (String ch EmptyString))]
           = Ok (l, t :: out)
           /\ tok_text t = "0"%string /\ tok_type t = JSON_INTEGER).
Proof.
  rewrite two_plus.
  split; [destruct interp; reflexivity|].
  split; [reflexivity|].
  split; [apply run_fuel; destruct interp; vm_compute; reflexivity|].
  split; [apply run_fuel; destruct interp; vm_compute; reflexivity|].
  split.
  - intros Hd.
    pose proof (forall_ascii_spec
      (fun ch => if is_digit ch then entry IN_ZERO ch =? IN_ERROR else true)
      ltac:(vm_compute; reflexivity) ch) as He.
    simpl in He. rewrite Hd in He. apply Z.eqb_eq in He.
    split.
    { rewrite json_lexer_row by (unfold IN_ZERO; lia). f_equal. exact He. }
    apply run_fuel. rewrite run_single. cbn [call].
    assert (H0 : json_lexer_feed_char 2 (json_lexer_init interp) "0"%char false
                 = Ok (mkLexer (start_state (json_lexer_init interp)) IN_ZERO
                               "0"%string 1 0, []))
      by (destruct interp; reflexivity).
    cbn [json_lexer_feed]. rewrite H0. cbn [bind fst snd].
    assert (Hz : json_lexer
                   (state (mkLexer (start_state (json_lexer_init interp))
                                   IN_ZERO "0"%string 1 0))
                   (uint8 ch) = Some IN_ERROR).
    { cbn [state]. rewrite json_lexer_row by (unfold IN_ZERO; lia).
      f_equal. exact He. }
    pose proof (error_transition 1 _ ch false Hz) as H1.
    rewrite H1. cbn [bind fst snd app].
    assert (Hnl : Ascii.eqb ch LF = false).
    { destruct (Ascii.eqb_spec ch LF) as [->|]; [discriminate Hd|reflexivity]. }
    unfold advance. rewrite Hnl. reflexivity.
  - intros Hle Hdot Hd.
    pose proof (forall_ascii_spec
      (fun ch => if (uint8 ch <=? 0x7F) && negb (Ascii.eqb ch "."%char)
                    && negb (is_digit ch)
                 then (entry IN_ZERO ch =? JSON_INTEGER)
                      && first_token_is
                           (run 2 (json_lexer_init true)
                              [Feed (String "0"%char (String ch EmptyString))])
                           "0"%string JSON_INTEGER
                      && first_token_is
                           (run 2 (json_lexer_init false)
                              [Feed (String "0"%char (String ch EmptyString))])
                           "0"%string JSON_INTEGER
                 else true)
      ltac:(vm_compute; reflexivity) ch) as He.
    cbv beta in He. rewrite Hd in He.
    destruct (Z.leb_spec (uint8 ch) 0x7F) as [_|Hgt]; [|lia].
    destruct (Ascii.eqb_spec ch "."%char) as [E|_]; [contradiction|].
    cbn [andb negb] in He.
    apply andb_true_iff in He. destruct He as [He Hf].
    apply andb_true_iff in He. destruct He as [He Ht].
    apply Z.eqb_eq in He.
    split.
    { rewrite json_lexer_row by (unfold IN_ZERO; lia). f_equal. exact He. }
    split; [reflexivity|].
    assert (Hi : first_token_is
                   (run 2 (json_lexer_init interp)
                      [Feed (String "0"%char (String ch EmptyString))])
                   "0"%string JSON_INTEGER = true)
      by (destruct interp; assumption).
    apply first_token_is_spec in Hi.
    destruct Hi as (l & t & out & Hr & Htx & Hty).
    exists l, t, out. split; [apply run_fuel; exact Hr|]. auto.
Qed.

Lemma C7_zero_state_witness :
  json_lexer IN_ZERO (uint8 ","%char) = Some JSON_INTEGER
  /\ TERMINAL_NEEDED_LOOKAHEAD IN_ZERO JSON_INTEGER = Some true
  /\ exists l t out,
       run 2 (json_lexer_init false) [Feed "0,"%string] = Ok (l, t :: out)
       /\ tok_text t = "0"%string /\ tok_type t = JSON_INTEGER.
Proof.
  apply (proj2 (proj2 (proj2 (proj2 (proj2
           (C7_zero_state false 0 ","%char)))))).
  - vm_compute. discriminate.
  - discriminate.
  - reflexivity.
Defined.

(** ** Strings *)

(** C8.  In [IN_DQ_STRING_ESCAPE] and [IN_SQ_STRING_ESCAPE] every byte in
    0x20..0xFD -- the other quote character and the backslash among them --
    leads back to [IN_DQ_STRING], respectively [IN_SQ_STRING]; the byte is
    appended to the buffer whatever it is and nothing is handed over.  So
    the six bytes of [escaped_quote_example] give exactly one string
    token, whose text is those six bytes, and the five bytes of
    [single_quoted_example] give exactly one string token. *)
Theorem C8_string_escapes (l : JSONLexer) (ch : ascii) :
  0x20 <= uint8 ch <= 0xFD ->
  json_lexer IN_DQ_STRING_ESCAPE (uint8 ch) = Some IN_DQ_STRING
  /\ json_lexer IN_SQ_STRING_ESCAPE (uint8 ch) = Some IN_SQ_STRING
  /\ (state l = IN_DQ_STRING_ESCAPE ->
      loop_body l ch false
      = Ok (Break,
            mkLexer (start_state l) IN_DQ_STRING
                    (g_string_append_c (token l) ch) (x l) (y l), []))
  /\ (state l = IN_SQ_STRING_ESCAPE ->
      loop_body l ch false
      = Ok (Break,
            mkLexer (start_state l) IN_SQ_STRING
                    (g_string_append_c (token l) ch) (x l) (y l), []))
  /\ 0x20 <= uint8 SQUOTE <= 0xFD /\ 0x20 <= uint8 DQUOTE <= 0xFD
  /\ 0x20 <= uint8 BACKSLASH <= 0xFD
  /\ (forall interp fuel,
        run (S (S fuel)) (json_lexer_init interp) [Feed escaped_quote_example]
        = Ok (mkLexer (start_state (json_lexer_init interp))
                      (start_state (json_lexer_init interp)) EmptyString 6 0,
              [mkToken escaped_quote_example JSON_STRING 6 0]))
  /\ (forall interp fuel,
        run (S (S fuel)) (json_lexer_init interp) [Feed single_quoted_example]
        = Ok (mkLexer (start_state (json_lexer_init interp))
                      (start_state (json_lexer_init interp)) EmptyString 5 0,
              [mkToken single_quoted_example JSON_STRING 5 0])).
Proof.
  intros Hr.
  pose proof (forall_ascii_spec
    (fun ch => if in_range 0x20 0xFD (uint8 ch)
               then (entry IN_DQ_STRING_ESCAPE ch =? IN_DQ_STRING)
                    && (entry IN_SQ_STRING_ESCAPE ch =? IN_SQ_STRING)
               else true)
    ltac:(vm_compute; reflexivity) ch) as He.
  cbv beta in He.
  replace (in_range 0x20 0xFD (uint8 ch)) with true in He
    by (unfold in_range; lia).
  apply andb_true_iff in He. destruct He as [Hd Hs].
  apply Z.eqb_eq in Hd. apply Z.eqb_eq in Hs.
  split; [rewrite json_lexer_row by (unfold IN_DQ_STRING_ESCAPE; lia);
          f_equal; exact Hd|].
  split; [rewrite json_lexer_row by (unfold IN_SQ_STRING_ESCAPE; lia);
          f_equal; exact Hs|].
  split.
  { intros E. rewrite loop_body_row by (rewrite E; unfold IN_DQ_STRING_ESCAPE; lia).
    cbv zeta. rewrite E, Hd. reflexivity. }
  split.
  { intros E. rewrite loop_body_row by (rewrite E; unfold IN_SQ_STRING_ESCAPE; lia).
    cbv zeta. rewrite E, Hs. reflexivity. }
  split; [vm_compute; split; discriminate|].
  split; [vm_compute; split; discriminate|].
  split; [vm_compute; split; discriminate|].
  split; intros interp fuel; rewrite two_plus; apply run_fuel;
    destruct interp; vm_compute; reflexivity.
Qed.

Lemma C8_string_escapes_witness :
  loop_body (mkLexer IN_START IN_DQ_STRING_ESCAPE "'a\"%string 3 0)
            DQUOTE false
  = Ok (Break,
        mkLexer IN_START IN_DQ_STRING
                (g_string_append_c "'a\"%string DQUOTE) 3 0, []).
Proof.
  apply (C8_string_escapes
           (mkLexer IN_START IN_DQ_STRING_ESCAPE "'a\"%string 3 0) DQUOTE).
  - vm_compute. split; discriminate.
  - reflexivity.
Defined.

(** ** Whitespace *)

(** C9.  Whatever the calls made on a fresh lexer, none of the tokens the
    consumer receives is tagged [JSON_SKIP].  A transition to [JSON_SKIP]
    from [IN_WHITESPACE] empties the buffer and puts the state back to
    [start_state], and hands nothing over. *)
Theorem C9_skip_not_forwarded
  (interp : bool) (fuel : nat) (calls : list lexer_call)
  (l : JSONLexer) (ch : ascii) (flush : bool) :
  (exists l' out,
      run (S (S fuel)) (json_lexer_init interp) calls = Ok (l', out)
      /\ Forall (fun t => tok_type t <> JSON_SKIP) out)
  /\ (state l = IN_WHITESPACE ->
      json_lexer IN_WHITESPACE (uint8 ch) = Some JSON_SKIP ->
      exists ex,
        loop_body l ch flush
        = Ok (ex, mkLexer (start_state l) (start_state l) EmptyString
                          (x l) (y l), [])).
Proof.
  split.
  - destruct (run_ok calls _ (init_inv interp)) as [[l' out] (Hr & _ & _ & N)].
    exists l', out. rewrite two_plus. split; [apply run_fuel; exact Hr|exact N].
  - intros Hs He.
    rewrite json_lexer_row in He by (unfold IN_WHITESPACE; lia).
    injection He as He.
    rewrite loop_body_row by (rewrite Hs; unfold IN_WHITESPACE; lia).
    change (entry IN_WHITESPACE ch = JSON_SKIP) in He.
    cbv zeta. rewrite Hs, He.
    change (switch_on JSON_SKIP) with CaseSkip.
    change (lookahead IN_WHITESPACE JSON_SKIP) with true.
    cbn [negb andb]. eexists. reflexivity.
Qed.

Lemma C9_skip_not_forwarded_witness :
  exists ex,
    loop_body (mkLexer IN_START IN_WHITESPACE " "%string 2 0) "1"%char false
    = Ok (ex, mkLexer IN_START IN_START EmptyString 2 0, []).
Proof.
  apply (proj2 (C9_skip_not_forwarded false 0 []
                  (mkLexer IN_START IN_WHITESPACE " "%string 2 0)
                  "1"%char false)).
  - reflexivity.
  - vm_compute. reflexivity.
Defined.

(** ** Termination of the loop *)

(** C10.  From every reachable lexer and for every byte, flushing or not,
    the loop of [json_lexer_feed_char] ends after one or two passes.  A
    pass that asks for another has reset the state to [start_state], which
    is one of the two start rows; column 0 of both start rows holds
    [IN_ERROR], so no transition from them needs lookahead, and the second
    pass ends the loop. *)
Theorem C10_loop_two_passes (l : JSONLexer) (ch : ascii) (flush : bool) :
  reachable l ->
  (exists e,
      (forall fuel, do_while (S (S fuel)) (advance l ch) ch flush = Ok e)
      /\ (1 <= le_passes e <= 2)%nat)
  /\ (exists r, forall fuel,
        json_lexer_feed_char (S (S fuel)) l ch flush = Ok r)
  /\ (forall l' out,
        loop_body (advance l ch) ch flush = Ok (Repeat, l', out) ->
        state l' = start_state l /\ is_start (start_state l) = true)
  /\ (forall s c, is_start s = true ->
        json_lexer s 0 = Some IN_ERROR
        /\ exists e, json_lexer s (uint8 c) = Some e
                     /\ TERMINAL_NEEDED_LOOKAHEAD s e = Some false).
Proof.
  intros Hreach. apply reachable_inv in Hreach. destruct Hreach as [Hok _].
  assert (Hok' : lexer_okb (advance l ch) = true)
    by (rewrite lexer_okb_advance; exact Hok).
  destruct (advance_fields l ch) as (Ast & As & At).
  split.
  { destruct (do_while_ok _ ch flush Hok') as [e [He Hp]].
    exists e. split; [|apply Hp].
    intros fuel. rewrite two_plus. apply do_while_fuel. exact He. }
  split.
  { destruct (feed_char_ok l ch flush Hok) as [r [Hr _]].
    exists r. intros fuel. rewrite two_plus. apply feed_char_fuel. exact Hr. }
  split.
  { intros l' out Hb.
    destruct (loop_body_ok _ ch flush Hok') as [r [Hr Hp]].
    rewrite Hb in Hr. injection Hr as <-.
    destruct Hp as (_ & _ & _ & _ & _ & _ & Hrep & _).
    destruct (Hrep eq_refl) as (-> & _ & _).
    split; [simpl; exact Ast|apply (lexer_okb_start _ Hok)]. }
  intros s c Hs.
  pose proof (is_start_bounds s Hs) as Hb.
  split.
  { rewrite json_lexer_row by exact Hb. f_equal. apply (start_column0 s Hs). }
  exists (entry s c). split; [apply json_lexer_row; exact Hb|].
  rewrite (lookahead_row _ _ Hb).
  f_equal. apply (lookahead_at_start s _ Hs).
Qed.

Lemma C10_loop_two_passes_witness :
  exists e,
    (forall fuel,
        do_while (S (S fuel)) (advance (json_lexer_init false) "7"%char)
                 "7"%char false = Ok e)
    /\ (1 <= le_passes e <= 2)%nat.
Proof.
  apply (C10_loop_two_passes (json_lexer_init false) "7"%char false).
  exists false, 0%nat, [], []. reflexivity.
Defined.

(** * Further properties of the lexer *)

(** ** Strings of bytes *)

Lemma append_nil_r (w : string) : (w ++ EmptyString)%string = w.
Proof. induction w as [|a w IH]; simpl; congruence. Qed.

Lemma append_assoc (u v w : string) :
  ((u ++ v) ++ w)%string = (u ++ (v ++ w))%string.
Proof. induction u as [|a u IH]; simpl; congruence. Qed.

Lemma len_append (u v : string) : len (u ++ v) = len u + len v.
Proof.
  unfold len. induction u as [|a u IH]; [simpl; lia|].
  cbn [append String.length]. rewrite !Nat2Z.inj_succ. lia.
Qed.

Lemma len_String ch w : len (String ch w) = 1 + len w.
Proof. unfold len. cbn [String.length]. rewrite Nat2Z.inj_succ. lia. Qed.

Lemma len_ge0 w : 0 <= len w.
Proof. unfold len. lia. Qed.

Lemma append_c_cons t ch w :
  (g_string_append_c t ch ++ w)%string = (t ++ String ch w)%string.
Proof. unfold g_string_append_c. rewrite append_assoc. reflexivity. Qed.

Lemma all_chars_app p u v :
  all_chars p (u ++ v) = all_chars p u && all_chars p v.
Proof.
  induction u as [|a u IH]; [reflexivity|].
  simpl. rewrite IH, andb_assoc. reflexivity.
Qed.

(** ** What no pass and no call changes *)

Lemma loop_body_frame l ch flush ex l' out :
  loop_body l ch flush = Ok (ex, l', out) ->
  start_state l' = start_state l /\ x l' = x l /\ y l' = y l.
Proof.
  unfold loop_body.
  destruct (negb (state l <=? ARRAY_SIZE_json_lexer)); [discriminate|].
  destruct (json_lexer (state l) (uint8 ch)) as [e|]; [|discriminate].
  destruct (TERMINAL_NEEDED_LOOKAHEAD (state l) e) as [la|]; [|discriminate].
  destruct (negb la && negb flush); destruct (switch_on e);
    intros H; inversion H; subst; auto.
Qed.

Lemma do_while_frame fuel : forall l ch flush e,
  do_while fuel l ch flush = Ok e ->
  start_state (le_lexer e) = start_state l
  /\ x (le_lexer e) = x l /\ y (le_lexer e) = y l.
Proof.
  induction fuel as [|fuel IH]; intros l ch flush e H; [discriminate|].
  cbn [do_while] in H. apply bind_ok in H.
  destruct H as [[[ex l1] o1] [Hb H]].
  destruct (loop_body_frame _ _ _ _ _ _ Hb) as (F1 & F2 & F3).
  destruct ex.
  - apply bind_ok in H. destruct H as [e' [He' H]].
    injection H as <-. cbn [le_lexer].
    destruct (IH _ _ _ _ He') as (G1 & G2 & G3). repeat split; congruence.
  - injection H as <-. auto.
  - injection H as <-. auto.
Qed.

Lemma feed_char_frame fuel l ch flush l' out :
  json_lexer_feed_char fuel l ch flush = Ok (l', out) ->
  start_state l' = start_state l
  /\ x l' = x (advance l ch) /\ y l' = y (advance l ch).
Proof.
  unfold json_lexer_feed_char. intros H.
  apply bind_ok in H. destruct H as [e [He H]].
  destruct (do_while_frame _ _ _ _ _ He) as (F1 & F2 & F3).
  destruct (advance_fields l ch) as (A1 & _ & _).
  destruct (le_returned e).
  - injection H as <- _. repeat split; congruence.
  - unfold check_size in H.
    destruct (len (token (le_lexer e)) >? MAX_TOKEN_SIZE);
      injection H as <- _; cbn; repeat split; congruence.
Qed.

Lemma feed_frame fuel : forall buffer l l' out,
  json_lexer_feed fuel l buffer = Ok (l', out) ->
  start_state l' = start_state l
  /\ x l' = x (advance_over l buffer) /\ y l' = y (advance_over l buffer).
Proof.
  induction buffer as [|ch rest IH]; intros l l' out H.
  - injection H as <- _. auto.
  - cbn [json_lexer_feed] in H.
    apply bind_ok in H. destruct H as [[l1 o1] [H1 H]].
    apply bind_ok in H. destruct H as [[l2 o2] [H2 H]].
    injection H as <- _. cbn [fst] in *.
    destruct (feed_char_frame _ _ _ _ _ _ H1) as (F1 & F2 & F3).
    destruct (IH _ _ _ H2) as (G1 & G2 & G3).
    cbn [advance_over].
    assert (E : forall a b : JSONLexer, x a = x b -> y a = y b ->
                x (advance_over a rest) = x (advance_over b rest)
                /\ y (advance_over a rest) = y (advance_over b rest)).
    { clear. induction rest as [|c rest IH]; intros a b Hx Hy; [auto|].
      cbn [advance_over]. apply IH; unfold advance;
        destruct (Ascii.eqb c LF); cbn; congruence. }
    destruct (E l1 (advance l ch) F2 F3) as [E1 E2].
    repeat split; congruence.
Qed.

Lemma advance_is_int l ch :
  is_int (x l) -> is_int (y l) ->
  is_int (x (advance l ch)) /\ is_int (y (advance l ch)).
Proof.
  intros Hx Hy. unfold advance. destruct (Ascii.eqb ch LF); cbn [x y].
  - split; [unfold is_int, INT_MIN, INT_MAX; lia|apply wrap_int_is_int].
  - split; [apply wrap_int_is_int|exact Hy].
Qed.

Lemma advance_over_is_int : forall buffer l,
  is_int (x l) -> is_int (y l) ->
  is_int (x (advance_over l buffer)) /\ is_int (y (advance_over l buffer)).
Proof.
  induction buffer as [|ch rest IH]; intros l Hx Hy; [auto|].
  cbn [advance_over].
  destruct (advance_is_int l ch Hx Hy) as [Ax Ay]. apply IH; assumption.
Qed.

Lemma count_lf_ge0 buffer : 0 <= count_lf buffer.
Proof.
  induction buffer as [|ch rest IH]; [cbn; lia|].
  cbn [count_lf]. destruct (Ascii.eqb ch LF); lia.
Qed.

Lemma after_last_lf_bound : forall buffer n,
  after_last_lf buffer = Some n -> 0 <= n < len buffer.
Proof.
  induction buffer as [|ch rest IH]; intros n H; [discriminate|].
  cbn [after_last_lf] in H. rewrite len_String.
  destruct (after_last_lf rest) as [m|].
  - injection H as <-. specialize (IH m eq_refl). lia.
  - destruct (Ascii.eqb ch LF); [|discriminate].
    injection H as <-. pose proof (len_ge0 rest). lia.
Qed.

Lemma advance_over_closed_form : forall buffer l,
  is_int (x l) -> is_int (y l) ->
  y (advance_over l buffer) = wrap_int (y l + count_lf buffer)
  /\ x (advance_over l buffer)
     = match after_last_lf buffer with
       | Some n => wrap_int n
       | None => wrap_int (x l + len buffer)
       end.
Proof.
  induction buffer as [|ch rest IH]; intros l Ix Iy.
  - cbn [advance_over count_lf after_last_lf].
    change (len EmptyString) with 0. rewrite !Z.add_0_r.
    rewrite !wrap_int_small by assumption. auto.
  - cbn [advance_over count_lf after_last_lf].
    destruct (advance_is_int l ch Ix Iy) as [Ax Ay].
    destruct (IH (advance l ch) Ax Ay) as [Hy Hx]. rewrite Hy, Hx.
    rewrite len_String. unfold advance.
    destruct (after_last_lf rest) as [n|]; destruct (Ascii.eqb ch LF);
      cbn [x y]; rewrite ?wrap_int_add; split;
      first [reflexivity | f_equal; lia].
Qed.

Lemma feed_total fuel l buffer :
  lexer_okb l = true ->
  exists r, json_lexer_feed (S (S fuel)) l buffer = Ok r.
Proof.
  intros Hok.
  assert (H : exists r, json_lexer_feed 2 l buffer = Ok r).
  { destruct buffer as [|ch rest]; [eexists; reflexivity|].
    destruct (feed_char_ok l ch false Hok) as [[l1 o1] [H1 P1]].
    destruct P1 as (_ & I1 & _). cbn [fst] in I1.
    destruct (feed_ok rest l1 I1) as [[l2 o2] (H2 & _)].
    cbn [json_lexer_feed]. rewrite H1. cbn [bind fst]. rewrite H2.
    eexists; reflexivity. }
  destruct H as [r H]. exists r. rewrite two_plus.
  apply (more_fuel (fun fuel '(l, b) => json_lexer_feed fuel l b)
           (fun fuel '(l, b) r => feed_more fuel b l r)
           fuel 2%nat (l, buffer) r H).
Qed.

(** X1.  Where a feed leaves the position depends on the bytes fed and on
    nothing else.  From any lexer whose state and buffer are as the lexer
    keeps them and whose counters hold [int] values, the feed returns,
    whatever tokens or errors the bytes give, and it leaves the counters
    of 32 bits as follows: the line is the old line plus the number of
    line feeds fed, and the column is the number of bytes fed after the
    last line feed, or the old column plus the number of bytes fed when
    there was none, each wrapped around at 2^31.  As long as these sums
    do not exceed [INT_MAX] they are the position exactly. *)
Theorem X1_position_after_feed
  (fuel : nat) (l : JSONLexer) (buffer : string) :
  lexer_okb l = true -> is_int (x l) -> is_int (y l) ->
  exists l' out,
    json_lexer_feed (S (S fuel)) l buffer = Ok (l', out)
    /\ y l' = wrap_int (y l + count_lf buffer)
    /\ x l' = match after_last_lf buffer with
              | Some n => wrap_int n
              | None => wrap_int (x l + len buffer)
              end
    /\ (y l + count_lf buffer <= INT_MAX ->
        y l' = y l + count_lf buffer)
    /\ (len buffer <= INT_MAX -> x l + len buffer <= INT_MAX ->
        x l' = match after_last_lf buffer with
               | Some n => n
               | None => x l + len buffer
               end).
Proof.
  intros Hok Ix Iy.
  destruct (feed_total fuel l buffer Hok) as [[l' out] H].
  exists l', out. split; [exact H|].
  destruct (feed_frame _ _ _ _ _ H) as (_ & Hx & Hy).
  destruct (advance_over_closed_form buffer l Ix Iy) as [Cy Cx].
  rewrite Hx, Hy, Cx, Cy.
  split; [reflexivity|]. split; [reflexivity|].
  pose proof (count_lf_ge0 buffer) as Hc.
  pose proof (len_ge0 buffer) as Hl.
  unfold is_int, INT_MIN, INT_MAX in *.
  split.
  - intros Hb. apply wrap_int_small. unfold is_int, INT_MIN, INT_MAX. lia.
  - intros Hb1 Hb2.
    destruct (after_last_lf buffer) as [n|] eqn:E.
    + pose proof (after_last_lf_bound buffer n E).
      apply wrap_int_small. unfold is_int, INT_MIN, INT_MAX. lia.
    + apply wrap_int_small. unfold is_int, INT_MIN, INT_MAX. lia.
Qed.

Lemma X1_position_after_feed_witness :
  exists l' out,
    json_lexer_feed 2 (mkLexer IN_START IN_START EmptyString 4 2)
      (String "1" (String LF (String "[" (String "]" EmptyString))))
    = Ok (l', out)
    /\ y l' = 3 /\ x l' = 2.
Proof.
  destruct (X1_position_after_feed 0
              (mkLexer IN_START IN_START EmptyString 4 2)
              (String "1" (String LF (String "[" (String "]" EmptyString)))))
    as (l' & out & H & _ & _ & Hy & Hx).
  - vm_compute. reflexivity.
  - vm_compute. split; discriminate.
  - vm_compute. split; discriminate.
  - exists l', out. split; [exact H|]. split.
    + apply Hy. vm_compute. discriminate.
    + apply Hx; vm_compute; discriminate.
Defined.

Lemma flush_frame fuel l l' out :
  json_lexer_flush fuel l = Ok (l', out) -> start_state l' = start_state l.
Proof.
  unfold json_lexer_flush. intros H.
  apply bind_ok in H. destruct H as [[l1 o1] [H1 H]].
  injection H as <- _. cbn [fst].
  destruct (negb (state l =? start_state l)).
  - apply (feed_char_frame _ _ _ _ _ _ H1).
  - injection H1 as <- _. reflexivity.
Qed.

(** X2.  No call changes [start_state]: whatever the lexer and whatever
    the feeds and flushes made on it, the lexer they leave has the start
    state it had. *)
Theorem X2_start_state_fixed
  (fuel : nat) (calls : list lexer_call) (l l' : JSONLexer)
  (out : list JSONToken) :
  run fuel l calls = Ok (l', out) -> start_state l' = start_state l.
Proof.
  revert l l' out.
  induction calls as [|c rest IH]; intros l l' out H.
  - injection H as <- _. reflexivity.
  - cbn [run] in H.
    apply bind_ok in H. destruct H as [[l1 o1] [H1 H]].
    apply bind_ok in H. destruct H as [[l2 o2] [H2 H]].
    injection H as <- _. cbn [fst] in *.
    rewrite (IH _ _ _ H2).
    destruct c as [buffer|]; cbn [call] in H1.
    + apply (feed_frame _ _ _ _ _ H1).
    + apply (flush_frame _ _ _ _ H1).
Qed.

Lemma X2_start_state_fixed_witness :
  start_state (mkLexer IN_START_INTERP IN_START_INTERP EmptyString 3 0)
  = start_state (json_lexer_init true).
Proof.
  apply (X2_start_state_fixed 2 [Feed "%a"%string; Flush]
           (json_lexer_init true)
           (mkLexer IN_START_INTERP IN_START_INTERP EmptyString 3 0)
           [mkToken "%a"%string JSON_INTERP 3 0;
            mkToken EmptyString JSON_END_OF_INPUT 3 0]).
  vm_compute. reflexivity.
Defined.

(** ** Single steps *)

Lemma switch_on_state e :
  IN_DQ_STRING_ESCAPE <= e <= IN_WHITESPACE -> switch_on e = CaseDefault.
Proof.
  intros He. unfold switch_on.
  unfold IN_DQ_STRING_ESCAPE, IN_WHITESPACE in He.
  repeat match goal with
         | |- context [?a =? ?b] =>
             replace (a =? b) with false
               by (symmetry; apply Z.eqb_neq;
                   unfold JSON_LCURLY, JSON_MIN, JSON_RCURLY, JSON_LSQUARE,
                     JSON_RSQUARE, JSON_COLON, JSON_COMMA, JSON_INTERP,
                     JSON_INTEGER, JSON_FLOAT, JSON_KEYWORD, JSON_STRING,
                     JSON_SKIP, IN_ERROR; lia)
         end.
  reflexivity.
Qed.

Lemma lookahead_state s e :
  0 <= s < 18 -> IN_DQ_STRING_ESCAPE <= e <= IN_WHITESPACE ->
  lookahead s e = false.
Proof.
  intros Hs He. destruct (lookahead s e) eqn:Hl; [|reflexivity].
  exfalso. apply (lookahead_not_default s e Hs Hl).
  apply switch_on_state. exact He.
Qed.

(** A byte whose cell holds another state: the byte joins the buffer. *)
Lemma feed_char_goto fuel l ch :
  0 <= state l < 18 ->
  IN_DQ_STRING_ESCAPE <= entry (state l) ch <= IN_WHITESPACE ->
  len (token l) < MAX_TOKEN_SIZE ->
  json_lexer_feed_char (S fuel) l ch false
  = Ok (mkLexer (start_state l) (entry (state l) ch)
                (g_string_append_c (token l) ch)
                (x (advance l ch)) (y (advance l ch)), []).
Proof.
  intros Hs He Hlen.
  destruct (advance_fields l ch) as (Ast & As & At).
  unfold json_lexer_feed_char. cbn [do_while].
  rewrite loop_body_row by (rewrite As; exact Hs). cbv zeta.
  rewrite As, (switch_on_state _ He), (lookahead_state _ _ Hs He).
  cbn [negb andb while_cond bind le_returned le_lexer le_out].
  unfold check_size. cbn [set_state set_token token].
  rewrite At, len_append_c.
  destruct (Z.gtb_spec (len (token l) + 1) MAX_TOKEN_SIZE) as [Hgt|_]; [lia|].
  unfold set_state, set_token. cbn [start_state x y token app].
  rewrite Ast. reflexivity.
Qed.

(** A byte whose cell holds a tag, other than by [TERMINAL]: the byte
    joins the buffer and the buffer is handed over. *)
Lemma feed_char_emit fuel l ch :
  0 <= state l < 18 ->
  switch_on (entry (state l) ch) = CaseToken ->
  lookahead (state l) (entry (state l) ch) = false ->
  json_lexer_feed_char (S fuel) l ch false
  = Ok (mkLexer (start_state l) (start_state l) EmptyString
                (x (advance l ch)) (y (advance l ch)),
        [mkToken (g_string_append_c (token l) ch) (entry (state l) ch)
                 (x (advance l ch)) (y (advance l ch))]).
Proof.
  intros Hs Hsw Hla.
  destruct (advance_fields l ch) as (Ast & As & At).
  unfold json_lexer_feed_char. cbn [do_while].
  rewrite loop_body_row by (rewrite As; exact Hs). cbv zeta.
  rewrite As, Hsw, Hla.
  cbn [negb andb while_cond bind le_returned le_lexer le_out].
  unfold check_size. cbn [set_state set_token token].
  change (len EmptyString >? MAX_TOKEN_SIZE) with false. cbv iota.
  unfold set_state, set_token. cbn [start_state x y token app].
  rewrite Ast, At. reflexivity.
Qed.

(** ** Along a token *)

Lemma walk_app s u v :
  walk s (u ++ v)
  = match walk s u with Some s' => walk s' v | None => None end.
Proof.
  revert s. induction u as [|a u IH]; intros s; [reflexivity|].
  cbn [append walk].
  destruct (in_range IN_DQ_STRING_ESCAPE IN_WHITESPACE (entry s a));
    [apply IH|reflexivity].
Qed.

Lemma walk_loop (p : ascii -> bool) s w :
  (forall ch, p ch = true -> entry s ch = s) ->
  IN_DQ_STRING_ESCAPE <= s <= IN_WHITESPACE ->
  all_chars p w = true -> walk s w = Some s.
Proof.
  intros Hp Hs. induction w as [|a w IH]; intros Hw; [reflexivity|].
  cbn [all_chars] in Hw. apply andb_true_iff in Hw. destruct Hw as [Ha Hw].
  cbn [walk]. rewrite (Hp a Ha).
  replace (in_range IN_DQ_STRING_ESCAPE IN_WHITESPACE s) with true
    by (unfold in_range; lia).
  apply IH. exact Hw.
Qed.

(** Feeding along a walk: every byte joins the buffer, nothing is handed
    over. *)
Lemma feed_walk fuel : forall w l s',
  0 <= state l < 18 ->
  walk (state l) w = Some s' ->
  len (token l) + len w <= MAX_TOKEN_SIZE ->
  json_lexer_feed (S fuel) l w
  = Ok (mkLexer (start_state l) s' (token l ++ w)
                (x (advance_over l w)) (y (advance_over l w)), []).
Proof.
  induction w as [|ch rest IH]; intros l s' Hs Hw Hlen.
  - injection Hw as <-. cbn. rewrite append_nil_r. destruct l; reflexivity.
  - cbn [walk] in Hw.
    destruct (in_range IN_DQ_STRING_ESCAPE IN_WHITESPACE (entry (state l) ch))
      eqn:E; [|discriminate].
    assert (He : IN_DQ_STRING_ESCAPE <= entry (state l) ch <= IN_WHITESPACE)
      by (unfold in_range in E; lia).
    rewrite len_String in Hlen. pose proof (len_ge0 rest).
    cbn [json_lexer_feed].
    rewrite (feed_char_goto fuel l ch Hs He) by lia.
    cbn [bind fst snd].
    rewrite (IH _ s'); cbn [state token start_state].
    + cbn [bind fst snd app advance_over]. rewrite append_c_cons.
      assert (P : forall a b : JSONLexer, x a = x b -> y a = y b ->
                  x (advance_over a rest) = x (advance_over b rest)
                  /\ y (advance_over a rest) = y (advance_over b rest)).
      { clear. induction rest as [|c rest IH]; intros a b Hx Hy; [auto|].
        cbn [advance_over]. apply IH; unfold advance;
          destruct (Ascii.eqb c LF); cbn [x y]; congruence. }
      destruct (P (mkLexer (start_state l) (entry (state l) ch)
                     (g_string_append_c (token l) ch)
                     (x (advance l ch)) (y (advance l ch)))
                  (advance l ch) eq_refl eq_refl) as [-> ->].
      reflexivity.
    + unfold IN_DQ_STRING_ESCAPE, IN_WHITESPACE in He. lia.
    + exact Hw.
    + rewrite len_append_c. lia.
Qed.

(** ** The end of the input *)

(** Column 0 of a row holds the row's tag when the row opens with
    [TERMINAL(tag)], and [IN_ERROR] otherwise. *)
Lemma column0_tag s :
  0 <= s < 18 ->
  entry s NUL = (if tag_at_end s =? JSON_ERROR then IN_ERROR else tag_at_end s)
  /\ (tag_at_end s = JSON_ERROR \/ In (s, tag_at_end s) terminal_rows).
Proof.
  intros Hs.
  pose proof (forall_row_spec
    (fun s => (entry s NUL
               =? (if tag_at_end s =? JSON_ERROR then IN_ERROR
                   else tag_at_end s))
              && ((tag_at_end s =? JSON_ERROR)
                  || existsb (fun '(s', t') =>
                                (s' =? s) && (t' =? tag_at_end s))
                             terminal_rows))
    ltac:(vm_compute; reflexivity) s Hs) as H.
  cbv beta in H. apply andb_true_iff in H. destruct H as [H1 H2].
  split; [apply Z.eqb_eq; exact H1|].
  apply orb_true_iff in H2. destruct H2 as [H2|H2].
  - left. apply Z.eqb_eq. exact H2.
  - right. apply existsb_exists in H2. destruct H2 as [[s' t'] [Hin Heq]].
    apply andb_true_iff in Heq. destruct Heq as [E1 E2].
    apply Z.eqb_eq in E1. apply Z.eqb_eq in E2. subst. exact Hin.
Qed.

Lemma flush_pending fuel l :
  0 <= state l < 18 -> state l <> start_state l ->
  json_lexer_flush (S fuel) l
  = Ok (mkLexer (start_state l) (start_state l) EmptyString
                (wrap_int (x l + 1)) (y l),
        completed (mkLexer (start_state l) (state l) (token l)
                           (wrap_int (x l + 1)) (y l))
                  (tag_at_end (state l))
        ++ [mkToken EmptyString JSON_END_OF_INPUT
                    (wrap_int (x l + 1)) (y l)]).
Proof.
  intros Hs Hne.
  destruct (column0_tag _ Hs) as [He Hin].
  unfold json_lexer_flush.
  replace (state l =? start_state l) with false
    by (symmetry; apply Z.eqb_neq; exact Hne).
  cbn [negb]. unfold json_lexer_feed_char. cbn [do_while].
  rewrite loop_body_row by exact Hs. cbv zeta.
  change (state (advance l NUL)) with (state l).
  change (token (advance l NUL)) with (token l).
  change (start_state (advance l NUL)) with (start_state l).
  change (x (advance l NUL)) with (wrap_int (x l + 1)).
  change (y (advance l NUL)) with (y l).
  rewrite He. unfold completed. cbn [token x y].
  destruct Hin as [Herr|Hin].
  - rewrite Herr. change (JSON_ERROR =? JSON_ERROR) with true. cbv iota.
    change (switch_on IN_ERROR) with CaseError. cbv iota.
    change (JSON_ERROR =? JSON_SKIP) with false. cbv iota.
    cbn [andb negb]. reflexivity.
  - destruct (terminal_rows_shape _ _ Hin) as (_ & _ & Hla & Hsw).
    assert (Hne' : (tag_at_end (state l) =? JSON_ERROR) = false).
    { apply Z.eqb_neq. intros E. rewrite E in Hsw.
      destruct Hsw as [[Hsw _]|[Hsw _]]; vm_compute in Hsw; discriminate. }
    rewrite Hne'. rewrite Hla. cbn [negb andb].
    destruct Hsw as [[Hsw Hns]|[Hsw Hsk]]; rewrite Hsw.
    + apply Z.eqb_neq in Hns. rewrite Hns. reflexivity.
    + apply Z.eqb_eq in Hsk. rewrite Hsk. reflexivity.
Qed.

(** X3.  What [json_lexer_flush] does with a pending token depends on the
    state alone.  In a state whose row opens with [TERMINAL(tag)] the
    buffer is handed over with that tag (and dropped when the tag is
    [JSON_SKIP]); in every other state -- inside a string, after a sign, a
    decimal point or an exponent marker -- it is handed over as an error
    token.  The end-of-input token follows, the column counter has been
    incremented, and the lexer is at its start state with an empty
    buffer.  With no token pending only the end-of-input token is handed
    over and the lexer is left as it was. *)
Theorem X3_flush_by_state (fuel : nat) (l : JSONLexer) :
  0 <= state l < 18 ->
  (state l <> start_state l ->
   json_lexer_flush (S fuel) l
   = Ok (mkLexer (start_state l) (start_state l) EmptyString
                 (wrap_int (x l + 1)) (y l),
         (if tag_at_end (state l) =? JSON_SKIP then []
          else [mkToken (token l) (tag_at_end (state l))
                        (wrap_int (x l + 1)) (y l)])
         ++ [mkToken EmptyString JSON_END_OF_INPUT
                     (wrap_int (x l + 1)) (y l)]))
  /\ (state l = start_state l ->
      json_lexer_flush (S fuel) l
      = Ok (l, [mkToken (token l) JSON_END_OF_INPUT (x l) (y l)]))
  /\ (tag_at_end (state l) = JSON_ERROR
      \/ In (state l, tag_at_end (state l)) terminal_rows).
Proof.
  intros Hs.
  split; [intros Hne; apply (flush_pending fuel l Hs Hne)|].
  split; [|apply (column0_tag _ Hs)].
  intros E. unfold json_lexer_flush. rewrite E, Z.eqb_refl. reflexivity.
Qed.

Lemma X3_flush_by_state_witness :
  json_lexer_flush 1 (mkLexer IN_START IN_MANTISSA "-3."%string 3 0)
  = Ok (mkLexer IN_START IN_START EmptyString 4 0,
        [mkToken "-3."%string JSON_ERROR 4 0;
         mkToken EmptyString JSON_END_OF_INPUT 4 0]).
Proof.
  apply (proj1 (X3_flush_by_state 0
                  (mkLexer IN_START IN_MANTISSA "-3."%string 3 0)
                  ltac:(cbn [state]; unfold IN_MANTISSA; lia))).
  discriminate.
Defined.

(** ** One token, and the end of the input *)

(** Along a line whose columns stay within [int], the column counts the
    bytes. *)
Lemma no_lf_position : forall w l,
  all_chars not_lf w = true -> 0 <= x l -> x l + len w <= INT_MAX ->
  x (advance_over l w) = x l + len w /\ y (advance_over l w) = y l.
Proof.
  induction w as [|ch rest IH]; intros l Hw H0 Hmax.
  - cbn [advance_over]. change (len EmptyString) with 0. lia.
  - cbn [all_chars] in Hw. apply andb_true_iff in Hw. destruct Hw as [Hc Hw].
    rewrite len_String in Hmax. pose proof (len_ge0 rest) as Hr.
    assert (Hx1 : x (advance l ch) = x l + 1 /\ y (advance l ch) = y l).
    { unfold advance. unfold not_lf in Hc.
      destruct (Ascii.eqb ch LF); [discriminate|]. cbn [x y].
      split; [|reflexivity].
      apply wrap_int_small. unfold is_int, INT_MIN, INT_MAX in *. lia. }
    destruct Hx1 as [Hx1 Hy1].
    cbn [advance_over].
    destruct (IH (advance l ch) Hw) as [Hx Hy]; [lia|lia|].
    rewrite Hx, Hy, len_String. lia.
Qed.

Lemma wrap_int_token z : 0 <= z <= MAX_TOKEN_SIZE + 2 -> wrap_int z = z.
Proof.
  intros H. apply wrap_int_small.
  unfold is_int, INT_MIN, INT_MAX.
  change MAX_TOKEN_SIZE with 67108864 in H. lia.
Qed.

(** A line feed leads to another state only by way of [IN_WHITESPACE],
    and [IN_WHITESPACE] leads to no other state. *)
Lemma whitespace_sink s ch :
  0 <= s < 18 ->
  IN_DQ_STRING_ESCAPE <= entry s ch <= IN_WHITESPACE ->
  (ch = LF \/ s = IN_WHITESPACE) -> entry s ch = IN_WHITESPACE.
Proof.
  intros Hs He Hc.
  pose proof (forall_row_spec
    (fun s => forall_ascii (fun ch =>
       if in_range IN_DQ_STRING_ESCAPE IN_WHITESPACE (entry s ch)
          && (Ascii.eqb ch LF || (s =? IN_WHITESPACE))
       then entry s ch =? IN_WHITESPACE else true))
    ltac:(vm_compute; reflexivity) s Hs) as H.
  cbv beta in H. apply forall_ascii_spec with (ch := ch) in H.
  replace (in_range IN_DQ_STRING_ESCAPE IN_WHITESPACE (entry s ch))
    with true in H by (unfold in_range; lia).
  replace (Ascii.eqb ch LF || (s =? IN_WHITESPACE)) with true in H.
  - apply Z.eqb_eq. exact H.
  - symmetry. apply orb_true_iff. destruct Hc as [->| ->].
    + left. reflexivity.
    + right. reflexivity.
Qed.

Lemma walk_whitespace : forall w s',
  walk IN_WHITESPACE w = Some s' -> s' = IN_WHITESPACE.
Proof.
  induction w as [|ch rest IH]; intros s' H.
  - injection H as <-. reflexivity.
  - cbn [walk] in H.
    destruct (in_range IN_DQ_STRING_ESCAPE IN_WHITESPACE
                (entry IN_WHITESPACE ch)) eqn:E; [|discriminate].
    rewrite (whitespace_sink IN_WHITESPACE ch) in H.
    + apply IH. exact H.
    + unfold IN_WHITESPACE. lia.
    + unfold in_range in E. lia.
    + right. reflexivity.
Qed.

Lemma walk_no_lf : forall w s s',
  0 <= s < 18 -> walk s w = Some s' -> s' <> IN_WHITESPACE ->
  all_chars not_lf w = true.
Proof.
  induction w as [|ch rest IH]; intros s s' Hs H Hne; [reflexivity|].
  cbn [walk] in H.
  destruct (in_range IN_DQ_STRING_ESCAPE IN_WHITESPACE (entry s ch)) eqn:E;
    [|discriminate].
  assert (He : IN_DQ_STRING_ESCAPE <= entry s ch <= IN_WHITESPACE)
    by (unfold in_range in E; lia).
  cbn [all_chars]. apply andb_true_iff. split.
  - unfold not_lf. destruct (Ascii.eqb_spec ch LF) as [->|]; [|reflexivity].
    exfalso. rewrite (whitespace_sink s LF Hs He (or_introl eq_refl)) in H.
    apply Hne. apply (walk_whitespace _ _ H).
  - apply (IH (entry s ch) s'); [|exact H|exact Hne].
    unfold IN_DQ_STRING_ESCAPE, IN_WHITESPACE in He. lia.
Qed.

Lemma walk_nonempty w s s' :
  nonempty w = true -> walk s w = Some s' ->
  IN_DQ_STRING_ESCAPE <= s' <= IN_WHITESPACE.
Proof.
  destruct w as [|ch rest]; [discriminate|]. intros _.
  cbn [walk].
  destruct (in_range IN_DQ_STRING_ESCAPE IN_WHITESPACE (entry s ch)) eqn:E;
    [|discriminate].
  assert (He : IN_DQ_STRING_ESCAPE <= entry s ch <= IN_WHITESPACE)
    by (unfold in_range in E; lia).
  clear E. revert He. generalize (entry s ch). clear s ch.
  induction rest as [|ch rest IH]; intros s Hs H.
  - injection H as <-. exact Hs.
  - cbn [walk] in H.
    destruct (in_range IN_DQ_STRING_ESCAPE IN_WHITESPACE (entry s ch)) eqn:E;
      [|discriminate].
    apply (IH (entry s ch)); [unfold in_range in E; lia|exact H].
Qed.

(** A walk from the start state, then the end of the input. *)
Lemma walk_then_flush fuel l w s' :
  is_start (start_state l) = true -> state l = start_state l ->
  token l = EmptyString ->
  nonempty w = true -> walk (state l) w = Some s' ->
  len w <= MAX_TOKEN_SIZE ->
  run (S fuel) l [Feed w; Flush]
  = Ok (mkLexer (start_state l) (start_state l) EmptyString
                (wrap_int (x (advance_over l w) + 1))
                (y (advance_over l w)),
        (if tag_at_end s' =? JSON_SKIP then []
         else [mkToken w (tag_at_end s')
                       (wrap_int (x (advance_over l w) + 1))
                       (y (advance_over l w))])
        ++ [mkToken EmptyString JSON_END_OF_INPUT
                    (wrap_int (x (advance_over l w) + 1))
                    (y (advance_over l w))]).
Proof.
  intros Hst Hs Ht Hne Hw Hlen.
  pose proof (is_start_bounds _ Hst) as Hb.
  pose proof (walk_nonempty _ _ _ Hne Hw) as Hs'.
  rewrite run_cons. cbn [call].
  rewrite (feed_walk fuel w l s') by
    (first [rewrite Hs; exact Hb | exact Hw
           | rewrite Ht; change (len EmptyString) with 0; lia]).
  cbn [bind fst snd]. rewrite run_single. cbn [call].
  rewrite Ht. cbn [append].
  rewrite flush_pending; cbn [state start_state token x y].
  - reflexivity.
  - unfold IN_DQ_STRING_ESCAPE, IN_WHITESPACE in Hs'. lia.
  - unfold is_start, IN_START, IN_START_INTERP in Hst.
    unfold IN_DQ_STRING_ESCAPE, IN_WHITESPACE in Hs'. lia.
Qed.

Lemma init_start interp :
  is_start (start_state (json_lexer_init interp)) = true
  /\ state (json_lexer_init interp) = start_state (json_lexer_init interp)
  /\ token (json_lexer_init interp) = EmptyString
  /\ x (json_lexer_init interp) = 0 /\ y (json_lexer_init interp) = 0.
Proof. destruct interp; repeat split. Qed.

(** One token that holds no line feed, from a fresh lexer, then the end
    of the input. *)
Lemma token_then_flush fuel interp w s' tag :
  nonempty w = true ->
  walk (start_state (json_lexer_init interp)) w = Some s' ->
  tag_at_end s' = tag -> tag <> JSON_SKIP ->
  len w <= MAX_TOKEN_SIZE ->
  run (S fuel) (json_lexer_init interp) [Feed w; Flush]
  = Ok (mkLexer (start_state (json_lexer_init interp))
                (start_state (json_lexer_init interp)) EmptyString
                (len w + 1) 0,
        [mkToken w tag (len w + 1) 0;
         mkToken EmptyString JSON_END_OF_INPUT (len w + 1) 0]).
Proof.
  intros Hne Hw Htag Hns Hlen.
  destruct (init_start interp) as (Hst & Hs & Ht & Hx & Hy).
  rewrite <- Hs in Hw.
  rewrite (walk_then_flush fuel _ w s' Hst Hs Ht Hne Hw Hlen).
  assert (Hnw : s' <> IN_WHITESPACE).
  { intros ->. apply Hns. rewrite <- Htag. reflexivity. }
  assert (Hb : 0 <= state (json_lexer_init interp) < 18)
    by (destruct interp; vm_compute; split; congruence).
  pose proof (walk_no_lf w _ s' Hb Hw Hnw) as Hlf.
  pose proof (len_ge0 w) as Hw0.
  destruct (no_lf_position w (json_lexer_init interp) Hlf) as [Px Py];
    [rewrite Hx; lia
    |rewrite Hx; unfold INT_MAX;
     change MAX_TOKEN_SIZE with 67108864 in Hlen; lia|].
  rewrite Px, Py, Hx, Hy, Htag.
  replace (tag =? JSON_SKIP) with false
    by (symmetry; apply Z.eqb_neq; exact Hns).
  rewrite Z.add_0_l. rewrite wrap_int_token by lia. reflexivity.
Qed.

(** ** Keywords, interpolation, whitespace *)

Lemma keyword_cells ch :
  is_lower ch = true ->
  entry IN_START ch = IN_KEYWORD /\ entry IN_START_INTERP ch = IN_KEYWORD
  /\ entry IN_KEYWORD ch = IN_KEYWORD.
Proof.
  intros Hc.
  pose proof (forall_ascii_spec
    (fun ch => if is_lower ch
               then (entry IN_START ch =? IN_KEYWORD)
                    && (entry IN_START_INTERP ch =? IN_KEYWORD)
                    && (entry IN_KEYWORD ch =? IN_KEYWORD)
               else true)
    ltac:(vm_compute; reflexivity) ch) as H.
  cbv beta in H. rewrite Hc in H.
  apply andb_true_iff in H. destruct H as [H H3].
  apply andb_true_iff in H. destruct H as [H1 H2].
  repeat split; apply Z.eqb_eq; assumption.
Qed.

Lemma start_cases interp :
  start_state (json_lexer_init interp) = IN_START
  \/ start_state (json_lexer_init interp) = IN_START_INTERP.
Proof. destruct interp; [right|left]; reflexivity. Qed.

(** X4.  Any non-empty word of lower-case letters is lexed as one keyword
    token carrying the word, whether or not it is one of [false], [null]
    and [true]: fed to a fresh lexer and followed by a flush, it gives the
    keyword token and the end-of-input token.  The word must fit the
    token buffer. *)
Theorem X4_keyword_words (fuel : nat) (interp : bool) (w : string) :
  nonempty w = true -> all_chars is_lower w = true ->
  len w <= MAX_TOKEN_SIZE ->
  run (S fuel) (json_lexer_init interp) [Feed w; Flush]
  = Ok (mkLexer (start_state (json_lexer_init interp))
                (start_state (json_lexer_init interp)) EmptyString
                (len w + 1) 0,
        [mkToken w JSON_KEYWORD (len w + 1) 0;
         mkToken EmptyString JSON_END_OF_INPUT (len w + 1) 0]).
Proof.
  intros Hne Hw Hlen.
  apply (token_then_flush fuel interp w IN_KEYWORD JSON_KEYWORD Hne);
    [|reflexivity|discriminate|exact Hlen].
  destruct w as [|c rest]; [discriminate|].
  cbn [all_chars] in Hw. apply andb_true_iff in Hw. destruct Hw as [Hc Hr].
  destruct (keyword_cells c Hc) as (K1 & K2 & _).
  cbn [walk].
  assert (E : entry (start_state (json_lexer_init interp)) c = IN_KEYWORD)
    by (destruct (start_cases interp) as [-> | ->]; assumption).
  rewrite E. change (in_range IN_DQ_STRING_ESCAPE IN_WHITESPACE IN_KEYWORD)
    with true. cbv iota.
  apply (walk_loop is_lower); [|vm_compute; split; discriminate|exact Hr].
  intros ch Hch. apply (keyword_cells ch Hch).
Qed.

Lemma X4_keyword_words_witness :
  run 1 (json_lexer_init false) [Feed "nulll"%string; Flush]
  = Ok (mkLexer IN_START IN_START EmptyString 6 0,
        [mkToken "nulll"%string JSON_KEYWORD 6 0;
         mkToken EmptyString JSON_END_OF_INPUT 6 0]).
Proof.
  apply (X4_keyword_words 0 false "nulll"%string).
  - reflexivity.
  - reflexivity.
  - vm_compute. discriminate.
Defined.

Lemma interp_cells ch :
  is_alnum ch = true -> entry IN_INTERP ch = IN_INTERP.
Proof.
  intros Hc.
  pose proof (forall_ascii_spec
    (fun ch => if is_alnum ch then entry IN_INTERP ch =? IN_INTERP else true)
    ltac:(vm_compute; reflexivity) ch) as H.
  cbv beta in H. rewrite Hc in H. apply Z.eqb_eq. exact H.
Qed.

Lemma error_then_feed fuel l ch rest :
  json_lexer (state l) (uint8 ch) = Some IN_ERROR ->
  json_lexer_feed (S fuel) l (String ch rest)
  = (r <- json_lexer_feed (S fuel)
            (mkLexer (start_state l) (start_state l) EmptyString
                     (x (advance l ch)) (y (advance l ch))) rest ;;
     Ok (fst r,
         mkToken (g_string_append_c (token l) ch) JSON_ERROR
                 (x (advance l ch)) (y (advance l ch)) :: snd r)).
Proof.
  intros He. cbn [json_lexer_feed].
  rewrite (error_transition fuel l ch false He). cbn [bind fst snd].
  destruct (json_lexer_feed (S fuel) _ rest) as [[l' out]| | |]; reflexivity.
Qed.

(** X5.  With interpolation enabled, a percent sign followed by any
    number of letters and digits is lexed as one interpolation token
    carrying all of it.  With interpolation disabled, the percent sign is
    an error: the lexer hands over an error token holding it and is back
    at its start state. *)
Theorem X5_interpolation (fuel : nat) (w : string) :
  all_chars is_alnum w = true ->
  len w < MAX_TOKEN_SIZE ->
  run (S fuel) (json_lexer_init true) [Feed (String "%" w); Flush]
  = Ok (mkLexer IN_START_INTERP IN_START_INTERP EmptyString (len w + 2) 0,
        [mkToken (String "%" w) JSON_INTERP (len w + 2) 0;
         mkToken EmptyString JSON_END_OF_INPUT (len w + 2) 0])
  /\ run (S fuel) (json_lexer_init false) [Feed (String "%" w)]
     = (r <- run (S fuel) (mkLexer IN_START IN_START EmptyString 1 0)
               [Feed w] ;;
        Ok (fst r, mkToken "%"%string JSON_ERROR 1 0 :: snd r)).
Proof.
  intros Hw Hlen. split.
  - pose proof (token_then_flush fuel true (String "%" w) IN_INTERP
                  JSON_INTERP eq_refl) as H.
    rewrite len_String in H.
    replace (len w + 2) with (1 + len w + 1) by lia.
    apply H; [|reflexivity|discriminate|lia].
    cbn [walk json_lexer_init start_state].
    change (entry IN_START_INTERP "%") with IN_INTERP.
    change (in_range IN_DQ_STRING_ESCAPE IN_WHITESPACE IN_INTERP) with true.
    cbv iota.
    apply (walk_loop is_alnum); [|vm_compute; split; discriminate|exact Hw].
    intros ch Hch. apply (interp_cells ch Hch).
  - rewrite !run_single. cbn [call].
    apply (error_then_feed fuel (json_lexer_init false) "%"%char w).
    reflexivity.
Qed.

Lemma X5_interpolation_witness :
  run 1 (json_lexer_init true) [Feed "%foo"%string; Flush]
  = Ok (mkLexer IN_START_INTERP IN_START_INTERP EmptyString 5 0,
        [mkToken "%foo"%string JSON_INTERP 5 0;
         mkToken EmptyString JSON_END_OF_INPUT 5 0]).
Proof.
  apply (X5_interpolation 0 "foo"%string).
  - reflexivity.
  - vm_compute. reflexivity.
Defined.

Lemma whitespace_cells ch :
  is_space ch = true ->
  entry IN_START ch = IN_WHITESPACE /\ entry IN_START_INTERP ch = IN_WHITESPACE
  /\ entry IN_WHITESPACE ch = IN_WHITESPACE.
Proof.
  intros Hc.
  pose proof (forall_ascii_spec
    (fun ch => if is_space ch
               then (entry IN_START ch =? IN_WHITESPACE)
                    && (entry IN_START_INTERP ch =? IN_WHITESPACE)
                    && (entry IN_WHITESPACE ch =? IN_WHITESPACE)
               else true)
    ltac:(vm_compute; reflexivity) ch) as H.
  cbv beta in H. rewrite Hc in H.
  apply andb_true_iff in H. destruct H as [H H3].
  apply andb_true_iff in H. destruct H as [H1 H2].
  repeat split; apply Z.eqb_eq; assumption.
Qed.

(** X6.  Input made of whitespace only hands nothing to the consumer: a
    feed of spaces, tabs, carriage returns and line feeds that fits the
    token buffer gives no token, and the flush after it gives the
    end-of-input token alone. *)
Theorem X6_whitespace_only (fuel : nat) (interp : bool) (w : string) :
  all_chars is_space w = true -> len w <= MAX_TOKEN_SIZE ->
  exists l l',
    json_lexer_feed (S fuel) (json_lexer_init interp) w = Ok (l, [])
    /\ token l = w
    /\ json_lexer_flush (S fuel) l
       = Ok (l', [mkToken EmptyString JSON_END_OF_INPUT (x l') (y l')])
    /\ state l' = start_state l' /\ token l' = EmptyString.
Proof.
  intros Hw Hlen.
  destruct (init_start interp) as (Hst & Hs & Ht & _ & _).
  assert (Hb : 0 <= state (json_lexer_init interp) < 18)
    by (rewrite Hs; apply is_start_bounds; exact Hst).
  destruct w as [|c rest].
  - exists (json_lexer_init interp), (json_lexer_init interp).
    split; [reflexivity|]. split; [exact Ht|].
    split; [|split; assumption].
    unfold json_lexer_flush. rewrite Hs, Z.eqb_refl. cbn [negb bind fst snd].
    rewrite Ht. reflexivity.
  - assert (Hwalk : walk (state (json_lexer_init interp)) (String c rest)
                    = Some IN_WHITESPACE).
    { cbn [all_chars] in Hw. apply andb_true_iff in Hw.
      destruct Hw as [Hc Hr].
      destruct (whitespace_cells c Hc) as (K1 & K2 & _).
      cbn [walk].
      assert (E : entry (state (json_lexer_init interp)) c = IN_WHITESPACE)
        by (rewrite Hs; destruct (start_cases interp) as [-> | ->];
            assumption).
      rewrite E.
      change (in_range IN_DQ_STRING_ESCAPE IN_WHITESPACE IN_WHITESPACE)
        with true. cbv iota.
      apply (walk_loop is_space); [|vm_compute; split; discriminate|exact Hr].
      intros ch Hch. apply (whitespace_cells ch Hch). }
    rewrite (feed_walk fuel _ _ IN_WHITESPACE Hb Hwalk)
      by (rewrite Ht; change (len EmptyString) with 0; lia).
    rewrite Ht. cbn [append].
    eexists.
    exists (mkLexer (start_state (json_lexer_init interp))
                    (start_state (json_lexer_init interp)) EmptyString
                    (wrap_int (x (advance_over (json_lexer_init interp)
                                               (String c rest)) + 1))
                    (y (advance_over (json_lexer_init interp)
                                     (String c rest)))).
    split; [reflexivity|]. split; [reflexivity|].
    rewrite flush_pending; cbn [state start_state token x y].
    + change (tag_at_end IN_WHITESPACE) with JSON_SKIP. unfold completed.
      change (JSON_SKIP =? JSON_SKIP) with true. cbv iota. cbn [app].
      split; [reflexivity|]. split; reflexivity.
    + unfold IN_WHITESPACE. lia.
    + unfold is_start, IN_START, IN_START_INTERP in Hst.
      unfold IN_WHITESPACE. lia.
Qed.

Lemma X6_whitespace_only_witness :
  exists l l',
    json_lexer_feed 1 (json_lexer_init false)
                    (String " " (String LF (String TAB EmptyString)))
    = Ok (l, [])
    /\ token l = String " " (String LF (String TAB EmptyString))
    /\ json_lexer_flush 1 l
       = Ok (l', [mkToken EmptyString JSON_END_OF_INPUT (x l') (y l')])
    /\ state l' = start_state l' /\ token l' = EmptyString.
Proof.
  apply (X6_whitespace_only 0 false
           (String " " (String LF (String TAB EmptyString)))).
  - reflexivity.
  - vm_compute. discriminate.
Defined.

(** ** Structural characters *)

Lemma structural_cells ch tag :
  structural_tag ch = Some tag ->
  entry IN_START ch = tag /\ entry IN_START_INTERP ch = tag
  /\ switch_on tag = CaseToken /\ Ascii.eqb ch LF = false.
Proof.
  unfold structural_tag.
  repeat match goal with
         | |- context [Ascii.eqb ch ?c] =>
             destruct (Ascii.eqb_spec ch c) as [->|_];
             [intros H; injection H as <-; repeat split|]
         end.
  discriminate.
Qed.

Lemma feed_structural fuel : forall w l,
  is_start (start_state l) = true -> state l = start_state l ->
  token l = EmptyString -> is_int (x l) ->
  all_chars is_structural w = true ->
  json_lexer_feed (S fuel) l w
  = Ok (mkLexer (start_state l) (start_state l) EmptyString
                (wrap_int (x l + len w)) (y l),
        structural_tokens (x l) (y l) w).
Proof.
  induction w as [|ch rest IH]; intros l Hst Hs Ht Hi Hw.
  - cbn [json_lexer_feed structural_tokens].
    change (len EmptyString) with 0. rewrite Z.add_0_r.
    rewrite wrap_int_small by exact Hi.
    destruct l; cbn in *; subst; reflexivity.
  - cbn [all_chars] in Hw. apply andb_true_iff in Hw. destruct Hw as [Hc Hr].
    unfold is_structural in Hc.
    destruct (structural_tag ch) as [tag|] eqn:Htag; [|discriminate].
    destruct (structural_cells ch tag Htag) as (K1 & K2 & Ksw & Klf).
    assert (E : entry (state l) ch = tag).
    { rewrite Hs. unfold is_start in Hst. apply orb_true_iff in Hst.
      destruct Hst as [H|H]; apply Z.eqb_eq in H; rewrite H; assumption. }
    cbn [json_lexer_feed structural_tokens]. rewrite Htag.
    rewrite (feed_char_emit fuel l ch);
      [|rewrite Hs; apply is_start_bounds; exact Hst
       |rewrite E; exact Ksw
       |rewrite Hs; apply lookahead_at_start; exact Hst].
    assert (Ha : x (advance l ch) = wrap_int (x l + 1)
                 /\ y (advance l ch) = y l)
      by (unfold advance; rewrite Klf; split; reflexivity).
    destruct Ha as [Hax Hay].
    cbn [bind fst snd]. rewrite IH; cbn [start_state state token x y];
      [|exact Hst|reflexivity|reflexivity
       |rewrite Hax; apply wrap_int_is_int|exact Hr].
    cbn [bind fst snd]. rewrite Hax, Hay.
    rewrite E, Ht, len_String, wrap_int_add.
    unfold g_string_append_c. cbn [append app].
    replace (x l + 1 + len rest) with (x l + (1 + len rest)) by lia.
    reflexivity.
Qed.

(** X7.  A buffer made of structural characters only gives one token per
    byte, in order: each token holds its one byte, carries the tag of the
    character and the column of the byte, and the lexer is at its start
    state with an empty buffer afterwards.  The columns are those of the
    [int] counter: the number of the byte in the buffer, wrapped around
    at 2^31. *)
Theorem X7_structural_characters
  (fuel : nat) (interp : bool) (w : string) :
  all_chars is_structural w = true ->
  run (S fuel) (json_lexer_init interp) [Feed w]
  = Ok (mkLexer (start_state (json_lexer_init interp))
                (start_state (json_lexer_init interp)) EmptyString
                (wrap_int (len w)) 0,
        structural_tokens 0 0 w).
Proof.
  intros Hw. rewrite run_single. cbn [call].
  destruct (init_start interp) as (Hst & Hs & Ht & Hx & Hy).
  rewrite (feed_structural fuel w _ Hst Hs Ht) by
    (first [exact Hw | rewrite Hx; vm_compute; split; discriminate]).
  rewrite Hx, Hy, Z.add_0_l. reflexivity.
Qed.

Lemma X7_structural_characters_witness :
  run 1 (json_lexer_init false) [Feed "[{}]"%string]
  = Ok (mkLexer IN_START IN_START EmptyString
                (wrap_int (len "[{}]"%string)) 0,
        structural_tokens 0 0 "[{}]"%string).
Proof.
  apply (X7_structural_characters 0 false "[{}]"%string).
  reflexivity.
Defined.

(** ** Numbers *)

Lemma digit_cells ch :
  is_digit ch = true ->
  entry IN_DIGITS ch = IN_DIGITS
  /\ entry IN_MANTISSA ch = IN_MANTISSA_DIGITS
  /\ entry IN_MANTISSA_DIGITS ch = IN_MANTISSA_DIGITS
  /\ entry IN_EXP_E ch = IN_EXP_DIGITS
  /\ entry IN_EXP_SIGN ch = IN_EXP_DIGITS
  /\ entry IN_EXP_DIGITS ch = IN_EXP_DIGITS.
Proof.
  intros Hc.
  pose proof (forall_ascii_spec
    (fun ch => if is_digit ch
               then (entry IN_DIGITS ch =? IN_DIGITS)
                    && (entry IN_MANTISSA ch =? IN_MANTISSA_DIGITS)
                    && (entry IN_MANTISSA_DIGITS ch =? IN_MANTISSA_DIGITS)
                    && (entry IN_EXP_E ch =? IN_EXP_DIGITS)
                    && (entry IN_EXP_SIGN ch =? IN_EXP_DIGITS)
                    && (entry IN_EXP_DIGITS ch =? IN_EXP_DIGITS)
               else true)
    ltac:(vm_compute; reflexivity) ch) as H.
  cbv beta in H. rewrite Hc in H.
  repeat (apply andb_true_iff in H; destruct H as [H ?]).
  repeat split; apply Z.eqb_eq; assumption.
Qed.

Lemma digit19_cells ch :
  is_digit19 ch = true ->
  entry IN_START ch = IN_DIGITS /\ entry IN_START_INTERP ch = IN_DIGITS
  /\ entry IN_SIGN ch = IN_DIGITS /\ Ascii.eqb ch "0" = false.
Proof.
  intros Hc.
  pose proof (forall_ascii_spec
    (fun ch => if is_digit19 ch
               then (entry IN_START ch =? IN_DIGITS)
                    && (entry IN_START_INTERP ch =? IN_DIGITS)
                    && (entry IN_SIGN ch =? IN_DIGITS)
                    && negb (Ascii.eqb ch "0")
               else true)
    ltac:(vm_compute; reflexivity) ch) as H.
  cbv beta in H. rewrite Hc in H.
  repeat (apply andb_true_iff in H; destruct H as [H ?]).
  repeat split; try (apply Z.eqb_eq; assumption).
  apply negb_true_iff. assumption.
Qed.

Lemma in_states_true e :
  IN_DQ_STRING_ESCAPE <= e <= IN_WHITESPACE ->
  in_range IN_DQ_STRING_ESCAPE IN_WHITESPACE e = true.
Proof. unfold in_range. lia. Qed.

Lemma walk_step s ch rest e :
  entry s ch = e -> IN_DQ_STRING_ESCAPE <= e <= IN_WHITESPACE ->
  walk s (String ch rest) = walk e rest.
Proof.
  intros <- He. cbn [walk]. rewrite (in_states_true _ He). reflexivity.
Qed.

Lemma walk_int s i :
  s = IN_START \/ s = IN_START_INTERP \/ s = IN_SIGN ->
  int_ok i = true ->
  walk s i
  = Some (if String.eqb i (String "0" EmptyString)
          then IN_ZERO else IN_DIGITS).
Proof.
  intros Hs Hi. destruct i as [|c rest]; [discriminate|].
  cbn [int_ok] in Hi. apply orb_true_iff in Hi. destruct Hi as [Hi|Hi];
    apply andb_true_iff in Hi; destruct Hi as [Hc Hr].
  - apply Ascii.eqb_eq in Hc. subst c.
    destruct rest; [|discriminate].
    destruct Hs as [-> | [-> | ->]]; reflexivity.
  - destruct (digit19_cells c Hc) as (K1 & K2 & K3 & K0).
    cbn [String.eqb]. rewrite K0. cbn [andb].
    assert (E : entry s c = IN_DIGITS)
      by (destruct Hs as [-> | [-> | ->]]; assumption).
    rewrite (walk_step s c rest IN_DIGITS E)
      by (vm_compute; split; discriminate).
    apply (walk_loop is_digit); [|vm_compute; split; discriminate|exact Hr].
    intros ch Hch. apply (digit_cells ch Hch).
Qed.

Lemma walk_frac s d :
  s = IN_ZERO \/ s = IN_DIGITS -> digits_ok d = true ->
  walk s (String "." d) = Some IN_MANTISSA_DIGITS.
Proof.
  intros Hs Hd. unfold digits_ok in Hd.
  apply andb_true_iff in Hd. destruct Hd as [Hne Hd].
  destruct d as [|c rest]; [discriminate|].
  cbn [all_chars] in Hd. apply andb_true_iff in Hd. destruct Hd as [Hc Hr].
  destruct (digit_cells c Hc) as (_ & K & _).
  rewrite (walk_step s "." _ IN_MANTISSA)
    by (first [destruct Hs as [-> | ->]; reflexivity
              |vm_compute; split; discriminate]).
  rewrite (walk_step IN_MANTISSA c rest IN_MANTISSA_DIGITS K)
    by (vm_compute; split; discriminate).
  apply (walk_loop is_digit); [|vm_compute; split; discriminate|exact Hr].
  intros ch Hch. apply (digit_cells ch Hch).
Qed.

Lemma walk_exp_digits s d :
  s = IN_EXP_E \/ s = IN_EXP_SIGN -> digits_ok d = true ->
  walk s d = Some IN_EXP_DIGITS.
Proof.
  intros Hs Hd. unfold digits_ok in Hd.
  apply andb_true_iff in Hd. destruct Hd as [Hne Hd].
  destruct d as [|c rest]; [discriminate|].
  cbn [all_chars] in Hd. apply andb_true_iff in Hd. destruct Hd as [Hc Hr].
  destruct (digit_cells c Hc) as (_ & _ & _ & K1 & K2 & _).
  assert (E : entry s c = IN_EXP_DIGITS)
    by (destruct Hs as [-> | ->]; assumption).
  rewrite (walk_step s c rest IN_EXP_DIGITS E)
    by (vm_compute; split; discriminate).
  apply (walk_loop is_digit); [|vm_compute; split; discriminate|exact Hr].
  intros ch Hch. apply (digit_cells ch Hch).
Qed.

Lemma walk_exp s e :
  s = IN_DIGITS \/ s = IN_MANTISSA_DIGITS -> exp_ok e = true ->
  walk s (exp_text (Some e)) = Some IN_EXP_DIGITS.
Proof.
  intros Hs He. destruct e as [[marker sign] d].
  cbn [exp_ok] in He.
  apply andb_true_iff in He. destruct He as [He Hd].
  apply andb_true_iff in He. destruct He as [Hm Hsg].
  assert (Em : entry s marker = IN_EXP_E).
  { apply orb_true_iff in Hm.
    destruct Hm as [Hm|Hm]; apply Ascii.eqb_eq in Hm; subst marker;
      destruct Hs as [-> | ->]; reflexivity. }
  destruct sign as [c|]; cbn [exp_text].
  - rewrite (walk_step s marker _ IN_EXP_E Em)
      by (vm_compute; split; discriminate).
    assert (Es : entry IN_EXP_E c = IN_EXP_SIGN).
    { apply orb_true_iff in Hsg.
      destruct Hsg as [H|H]; apply Ascii.eqb_eq in H; subst c; reflexivity. }
    rewrite (walk_step IN_EXP_E c _ IN_EXP_SIGN Es)
      by (vm_compute; split; discriminate).
    apply walk_exp_digits; [right; reflexivity|exact Hd].
  - rewrite (walk_step s marker _ IN_EXP_E Em)
      by (vm_compute; split; discriminate).
    apply walk_exp_digits; [left; reflexivity|exact Hd].
Qed.

Lemma walk_sign s minus rest :
  s = IN_START \/ s = IN_START_INTERP ->
  exists s1, (s1 = IN_START \/ s1 = IN_START_INTERP \/ s1 = IN_SIGN)
    /\ walk s (sign_text minus ++ rest) = walk s1 rest.
Proof.
  intros Hs. destruct minus; cbn [sign_text append].
  - exists IN_SIGN. split; [auto|].
    apply walk_step; [|vm_compute; split; discriminate].
    destruct Hs as [-> | ->]; reflexivity.
  - exists s. split; [tauto|reflexivity].
Qed.

Lemma number_walk s n :
  s = IN_START \/ s = IN_START_INTERP ->
  number_ok n = true -> zero_with_exp n = false ->
  exists s', walk s (number_text n) = Some s'
    /\ tag_at_end s' = number_tag n.
Proof.
  intros Hs Hok Hz. destruct n as [m i f e].
  unfold number_ok in Hok. cbn [num_int num_frac num_exp] in Hok.
  apply andb_true_iff in Hok. destruct Hok as [Hok He].
  apply andb_true_iff in Hok. destruct Hok as [Hi Hf].
  unfold zero_with_exp in Hz. cbn [num_int num_frac num_exp] in Hz.
  unfold number_text, number_tag.
  cbn [num_minus num_int num_frac num_exp].
  destruct (walk_sign s m (i ++ frac_text f ++ exp_text e) Hs)
    as (s1 & Hs1 & ->).
  rewrite walk_app, (walk_int s1 i Hs1 Hi).
  destruct f as [d|]; cbn [frac_text].
  - (* a fraction *)
    change (String "." d ++ exp_text e)%string
      with ((String "." d) ++ exp_text e)%string.
    rewrite walk_app.
    rewrite (walk_frac _ d) by
      (first [destruct (String.eqb i (String "0" EmptyString)); auto
             |exact Hf]).
    destruct e as [e|].
    + rewrite (walk_exp _ e) by (first [right; reflexivity|exact He]).
      eexists. split; reflexivity.
    + eexists. split; reflexivity.
  - (* no fraction *)
    cbn [append].
    destruct e as [e|].
    + destruct (String.eqb i (String "0" EmptyString)); [discriminate|].
      rewrite (walk_exp _ e) by (first [left; reflexivity|exact He]).
      eexists. split; reflexivity.
    + destruct (String.eqb i (String "0" EmptyString));
        eexists; split; reflexivity.
Qed.

Lemma number_text_nonempty n :
  number_ok n = true -> nonempty (number_text n) = true.
Proof.
  destruct n as [m i f e]. unfold number_ok, number_text.
  cbn [num_minus num_int num_frac num_exp]. intros H.
  destruct m; [reflexivity|]. cbn [sign_text append].
  destruct i; [discriminate|reflexivity].
Qed.

(** X8.  A number written as RFC 8259 has it -- an optional minus, an
    integer part without a leading zero, an optional fraction, an optional
    exponent -- is lexed as one token carrying its text, tagged as an
    integer when it has neither fraction nor exponent and as a float
    otherwise.  The one exception is a zero with an exponent and no
    fraction.  The number must fit the token buffer. *)
Theorem X8_numbers (fuel : nat) (interp : bool) (n : json_number) :
  number_ok n = true -> zero_with_exp n = false ->
  len (number_text n) <= MAX_TOKEN_SIZE ->
  run (S fuel) (json_lexer_init interp) [Feed (number_text n); Flush]
  = Ok (mkLexer (start_state (json_lexer_init interp))
                (start_state (json_lexer_init interp)) EmptyString
                (len (number_text n) + 1) 0,
        [mkToken (number_text n) (number_tag n) (len (number_text n) + 1) 0;
         mkToken EmptyString JSON_END_OF_INPUT
                 (len (number_text n) + 1) 0]).
Proof.
  intros Hok Hz Hlen.
  destruct (number_walk (start_state (json_lexer_init interp)) n
              (start_cases interp) Hok Hz) as (s' & Hw & Htag).
  apply (token_then_flush fuel interp _ s' _
           (number_text_nonempty n Hok) Hw Htag); [|exact Hlen].
  unfold number_tag. destruct (num_frac n), (num_exp n); discriminate.
Qed.

Lemma X8_numbers_witness :
  run 1 (json_lexer_init false) [Feed "-12.50E+3"%string; Flush]
  = Ok (mkLexer IN_START IN_START EmptyString 10 0,
        [mkToken "-12.50E+3"%string JSON_FLOAT 10 0;
         mkToken EmptyString JSON_END_OF_INPUT 10 0]).
Proof.
  apply (X8_numbers 0 false
           (mkNumber true "12"%string (Some "50"%string)
                     (Some ("E"%char, Some "+"%char, "3"%string)))).
  - reflexivity.
  - reflexivity.
  - vm_compute. discriminate.
Defined.

(** A byte that a [TERMINAL] row looks ahead at: the first token handed
    over is the buffer, under the row's tag. *)
Lemma feed_char_lookahead l ch tag :
  lexer_okb l = true ->
  In (state l, tag) terminal_rows -> tag <> JSON_SKIP ->
  uint8 ch <= 0x7F -> overridden (state l) (uint8 ch) = false ->
  exists l' out,
    json_lexer_feed_char 2 l ch false
    = Ok (l', mkToken (token l) tag (x (advance l ch)) (y (advance l ch))
              :: out)
    /\ inv l'.
Proof.
  intros Hok Hin Hns Hle Hov.
  destruct (feed_char_ok l ch false Hok) as [[l' out] [Hr Hp]].
  destruct Hp as (_ & Hinv & _). cbn [fst] in Hinv.
  destruct (advance_fields l ch) as (Ast & As & At).
  assert (Hin' : In (state (advance l ch), tag) terminal_rows)
    by (rewrite As; exact Hin).
  pose proof (terminal_row_body _ tag (advance l ch) ch Hin' eq_refl Hle)
    as Hbody.
  rewrite As in Hbody. specialize (Hbody Hov).
  unfold completes_by_lookahead, completed in Hbody.
  replace (tag =? JSON_SKIP) with false in Hbody
    by (symmetry; apply Z.eqb_neq; exact Hns).
  rewrite At in Hbody.
  pose proof Hr as Hr'.
  unfold json_lexer_feed_char in Hr'. cbn [do_while] in Hr'.
  rewrite Hbody in Hr'. cbn [bind] in Hr'.
  apply bind_ok in Hr'. destruct Hr' as [e [He Hr']].
  apply bind_ok in He. destruct He as [e' [_ He]].
  injection He as <-. cbn [le_returned le_lexer le_out] in Hr'.
  destruct (le_returned e').
  - injection Hr' as <- <-. exists (le_lexer e'), (le_out e').
    split; [exact Hr|exact Hinv].
  - destruct (check_size (le_lexer e')) as [l2 o2].
    injection Hr' as <- <-. exists l2, (le_out e' ++ o2).
    split; [exact Hr|exact Hinv].
Qed.

(** X9.  A zero followed by an exponent, as in [0e1] or [-0E+5], is not
    lexed as one number although RFC 8259 allows it: the row of [IN_ZERO]
    has no cell for the exponent marker, so the marker completes the zero
    as an integer token by lookahead. *)
Theorem X9_zero_with_exponent (fuel : nat) (interp : bool) (n : json_number) :
  number_ok n = true -> zero_with_exp n = true ->
  exists l out,
    run (S (S fuel)) (json_lexer_init interp) [Feed (number_text n)]
    = Ok (l, mkToken (sign_text (num_minus n) ++ String "0" EmptyString)
                     JSON_INTEGER
                     (len (sign_text (num_minus n)) + 2) 0 :: out).
Proof.
  intros Hok Hz. destruct n as [m i f e].
  unfold zero_with_exp in Hz. cbn [num_int num_frac num_exp] in Hz.
  apply andb_true_iff in Hz. destruct Hz as [Hi Hz].
  apply String.eqb_eq in Hi. subst i.
  destruct f as [d|]; [discriminate|].
  destruct e as [[[marker sign] d]|]; [|discriminate].
  unfold number_ok in Hok. cbn [num_int num_frac num_exp] in Hok.
  apply andb_true_iff in Hok. destruct Hok as [_ He].
  cbn [exp_ok] in He.
  apply andb_true_iff in He. destruct He as [He _].
  apply andb_true_iff in He. destruct He as [Hm _].
  cbn [num_minus].
  set (prefix := (sign_text m ++ String "0" EmptyString)%string).
  assert (Htext : exists rest,
            number_text (mkNumber m (String "0" EmptyString) None
                                  (Some (marker, sign, d)))
            = (prefix ++ String marker rest)%string).
  { unfold number_text, prefix. cbn [num_minus num_int num_frac num_exp
                                     frac_text exp_text].
    destruct sign as [c|]; eexists; rewrite append_assoc; reflexivity. }
  destruct Htext as [rest ->].
  destruct (init_start interp) as (Hst & Hs & Ht & Hx & Hy).
  assert (Hb : 0 <= state (json_lexer_init interp) < 18)
    by (rewrite Hs; apply is_start_bounds; exact Hst).
  assert (Hwalk : walk (state (json_lexer_init interp)) prefix = Some IN_ZERO).
  { unfold prefix. rewrite Hs.
    destruct (walk_sign _ m (String "0" EmptyString) (start_cases interp))
      as (s1 & Hs1 & ->).
    apply (walk_int s1 (String "0" EmptyString) Hs1 eq_refl). }
  assert (Hlenp : len prefix = len (sign_text m) + 1)
    by (unfold prefix; rewrite len_append; reflexivity).
  assert (Hsmall : len (sign_text m) <= 1) by (destruct m; vm_compute; discriminate).
  pose proof (len_ge0 (sign_text m)) as Hge.
  assert (Hmax : 3 <= MAX_TOKEN_SIZE) by (vm_compute; discriminate).
  pose proof (feed_walk 1 prefix _ IN_ZERO Hb Hwalk) as Hfeed.
  rewrite Ht in Hfeed. change (len EmptyString) with 0 in Hfeed.
  specialize (Hfeed ltac:(lia)). cbn [append] in Hfeed.
  destruct (no_lf_position prefix (json_lexer_init interp)
              (walk_no_lf prefix _ IN_ZERO Hb Hwalk ltac:(discriminate)))
    as [Px Py]; [rewrite Hx; lia|rewrite Hx; unfold INT_MAX; lia|].
  rewrite Px, Py, Hx, Hy, Z.add_0_l in Hfeed.
  set (l1 := mkLexer (start_state (json_lexer_init interp)) IN_ZERO prefix
                     (len prefix) 0) in *.
  assert (Hok1 : lexer_okb l1 = true).
  { unfold lexer_okb, l1. cbn [start_state state token]. rewrite Hst.
    destruct (start_cases interp) as [-> | ->]; reflexivity. }
  assert (Hmk : uint8 marker <= 0x7F /\ overridden IN_ZERO (uint8 marker) = false
                /\ Ascii.eqb marker LF = false).
  { apply orb_true_iff in Hm.
    destruct Hm as [H|H]; apply Ascii.eqb_eq in H; subst marker;
      repeat split; vm_compute; discriminate. }
  destruct Hmk as (Hle & Hov & Hlf).
  destruct (feed_char_lookahead l1 marker JSON_INTEGER Hok1
              ltac:(vm_compute; auto) ltac:(discriminate) Hle Hov)
    as (l2 & o2 & H2 & I2).
  destruct (feed_ok rest l2 I2) as [[l3 o3] (H3 & _)].
  exists l3, (o2 ++ o3).
  rewrite two_plus. apply run_fuel. rewrite run_single. cbn [call].
  rewrite feed_app, Hfeed. cbn [bind fst snd json_lexer_feed].
  rewrite H2. cbn [bind fst snd]. rewrite H3. cbn [bind fst snd app].
  unfold advance. rewrite Hlf. cbn [x y token]. fold l1.
  unfold l1 at 1 2 3. cbn [token x y].
  rewrite Hlenp.
  replace (len (sign_text m) + 1 + 1) with (len (sign_text m) + 2) by lia.
  rewrite wrap_int_token by lia.
  reflexivity.
Qed.

Lemma X9_zero_with_exponent_witness :
  exists l out,
    run 2 (json_lexer_init false) [Feed "0e1"%string]
    = Ok (l, mkToken "0"%string JSON_INTEGER 2 0 :: out).
Proof.
  apply (X9_zero_with_exponent 0 false
           (mkNumber false "0"%string None
                     (Some ("e"%char, None, "1"%string)))).
  - reflexivity.
  - reflexivity.
Defined.

(** ** Strings *)

Lemma string_cells (single : bool) ch :
  in_range 0x20 0xFD (uint8 ch) = true ->
  entry (if single then IN_SQ_STRING_ESCAPE else IN_DQ_STRING_ESCAPE) ch
  = string_state single
  /\ (Ascii.eqb ch (quote_of single) = false ->
      Ascii.eqb ch BACKSLASH = false ->
      entry (string_state single) ch = string_state single).
Proof.
  intros Hc.
  pose proof (forall_ascii_spec
    (fun ch => if in_range 0x20 0xFD (uint8 ch)
               then (entry IN_SQ_STRING_ESCAPE ch =? IN_SQ_STRING)
                    && (entry IN_DQ_STRING_ESCAPE ch =? IN_DQ_STRING)
                    && (Ascii.eqb ch SQUOTE || Ascii.eqb ch BACKSLASH
                        || (entry IN_SQ_STRING ch =? IN_SQ_STRING))
                    && (Ascii.eqb ch DQUOTE || Ascii.eqb ch BACKSLASH
                        || (entry IN_DQ_STRING ch =? IN_DQ_STRING))
               else true)
    ltac:(vm_compute; reflexivity) ch) as H.
  cbv beta in H. rewrite Hc in H.
  repeat (apply andb_true_iff in H; destruct H as [H ?]).
  destruct single; cbn [string_state quote_of];
    (split; [apply Z.eqb_eq; assumption|]); intros Hq Hb.
  - rewrite Hq, Hb in H1. apply Z.eqb_eq. exact H1.
  - rewrite Hq, Hb in H0. apply Z.eqb_eq. exact H0.
Qed.

Lemma string_state_bounds single :
  IN_DQ_STRING_ESCAPE <= string_state single <= IN_WHITESPACE.
Proof. destruct single; vm_compute; split; discriminate. Qed.

Lemma walk_body single : forall items,
  forallb (item_ok (quote_of single)) items = true ->
  walk (string_state single) (body_text items) = Some (string_state single).
Proof.
  induction items as [|i items IH]; intros H; [reflexivity|].
  cbn [forallb] in H. apply andb_true_iff in H. destruct H as [Hi Hr].
  destruct i as [ch|ch]; cbn [item_ok] in Hi; cbn [body_text].
  - apply andb_true_iff in Hi. destruct Hi as [Hi Hb].
    apply andb_true_iff in Hi. destruct Hi as [Hc Hq].
    apply negb_true_iff in Hb. apply negb_true_iff in Hq.
    destruct (string_cells single ch Hc) as [_ K].
    rewrite (walk_step _ ch _ _ (K Hq Hb) (string_state_bounds single)).
    apply IH. exact Hr.
  - destruct (string_cells single ch Hi) as [K _].
    rewrite (walk_step (string_state single) BACKSLASH _
               (if single then IN_SQ_STRING_ESCAPE else IN_DQ_STRING_ESCAPE))
      by (destruct single; first [reflexivity|vm_compute; split; discriminate]).
    rewrite (walk_step _ ch _ _ K (string_state_bounds single)).
    apply IH. exact Hr.
Qed.

Lemma walk_open_string interp single items :
  forallb (item_ok (quote_of single)) items = true ->
  walk (start_state (json_lexer_init interp))
       (String (quote_of single) (body_text items))
  = Some (string_state single).
Proof.
  intros H.
  rewrite (walk_step _ (quote_of single) _ (string_state single))
    by (first [destruct (start_cases interp) as [-> | ->];
               destruct single; reflexivity
              |apply string_state_bounds]).
  apply walk_body. exact H.
Qed.

(** X10.  A string is lexed as one token that carries its bytes verbatim,
    quotes and backslashes included.  Between double quotes, or between
    apostrophes, any bytes in 0x20..0xFD other than the closing quote and
    the backslash may stand, and a backslash may be followed by any byte
    in 0x20..0xFD.  Without its closing quote the string is handed over
    as an error token when the input ends.  The string must fit the token
    buffer. *)
Theorem X10_strings
  (fuel : nat) (interp single : bool) (items : list string_item) :
  forallb (item_ok (quote_of single)) items = true ->
  len (body_text items) < MAX_TOKEN_SIZE ->
  run (S fuel) (json_lexer_init interp)
      [Feed (String (quote_of single) (body_text items)
             ++ String (quote_of single) EmptyString)]
  = Ok (mkLexer (start_state (json_lexer_init interp))
                (start_state (json_lexer_init interp)) EmptyString
                (len (body_text items) + 2) 0,
        [mkToken (String (quote_of single) (body_text items)
                  ++ String (quote_of single) EmptyString)
                 JSON_STRING (len (body_text items) + 2) 0])
  /\ run (S fuel) (json_lexer_init interp)
         [Feed (String (quote_of single) (body_text items)); Flush]
     = Ok (mkLexer (start_state (json_lexer_init interp))
                   (start_state (json_lexer_init interp)) EmptyString
                   (len (body_text items) + 2) 0,
           [mkToken (String (quote_of single) (body_text items))
                    JSON_ERROR (len (body_text items) + 2) 0;
            mkToken EmptyString JSON_END_OF_INPUT
                    (len (body_text items) + 2) 0]).
Proof.
  intros Hitems Hlen.
  pose proof (walk_open_string interp single items Hitems) as Hwalk.
  set (opened := String (quote_of single) (body_text items)) in *.
  assert (Hlo : len opened = 1 + len (body_text items))
    by (unfold opened; apply len_String).
  destruct (init_start interp) as (Hst & Hs & Ht & Hx & Hy).
  assert (Hb : 0 <= state (json_lexer_init interp) < 18)
    by (rewrite Hs; apply is_start_bounds; exact Hst).
  split.
  - rewrite run_single. cbn [call]. rewrite feed_app.
    rewrite <- Hs in Hwalk.
    rewrite (feed_walk fuel opened _ _ Hb Hwalk)
      by (rewrite Ht; change (len EmptyString) with 0; lia).
    cbn [bind fst snd json_lexer_feed].
    destruct (no_lf_position opened (json_lexer_init interp)
                (walk_no_lf opened _ _ Hb Hwalk
                   ltac:(destruct single; discriminate))) as [Px Py];
      [rewrite Hx; lia
      |rewrite Hx, Hlo; unfold INT_MAX;
       change MAX_TOKEN_SIZE with 67108864 in Hlen; lia|].
    pose proof (len_ge0 (body_text items)) as Hge.
    rewrite Px, Py, Hx, Hy, Ht, Z.add_0_l. cbn [append].
    rewrite feed_char_emit; cbn [state start_state token x y].
    + cbn [bind fst snd app]. unfold advance.
      replace (Ascii.eqb (quote_of single) LF) with false
        by (destruct single; reflexivity).
      cbn [x y].
      replace (entry (string_state single) (quote_of single))
        with JSON_STRING by (destruct single; reflexivity).
      unfold g_string_append_c. rewrite Hlo.
      replace (1 + len (body_text items) + 1)
        with (len (body_text items) + 2) by lia.
      rewrite wrap_int_token by lia.
      reflexivity.
    + pose proof (string_state_bounds single) as B.
      unfold IN_DQ_STRING_ESCAPE, IN_WHITESPACE in B. lia.
    + destruct single; reflexivity.
    + destruct single; reflexivity.
  - pose proof (token_then_flush fuel interp opened (string_state single)
                  JSON_ERROR eq_refl Hwalk) as H.
    rewrite Hlo in H.
    replace (len (body_text items) + 2)
      with (1 + len (body_text items) + 1) by lia.
    apply H; [destruct single; reflexivity|discriminate|lia].
Qed.

Lemma X10_strings_witness :
  run 1 (json_lexer_init false) [Feed "'a\'b'"%string]
  = Ok (mkLexer IN_START IN_START EmptyString 6 0,
        [mkToken "'a\'b'"%string JSON_STRING 6 0]).
Proof.
  apply (proj1 (X10_strings 0 false true
                  [Plain "a"%char; Escaped "'"%char; Plain "b"%char] eq_refl
                  ltac:(vm_compute; reflexivity))).
Defined.

(** ** Bytes that are errors everywhere *)

Lemma high_cells s ch :
  0 <= s < 18 -> 0xFE <= uint8 ch -> entry s ch = IN_ERROR.
Proof.
  intros Hs Hc.
  pose proof (forall_row_spec
    (fun s => forall_ascii (fun ch =>
       if 0xFE <=? uint8 ch then entry s ch =? IN_ERROR else true))
    ltac:(vm_compute; reflexivity) s Hs) as H.
  cbv beta in H. apply forall_ascii_spec with (ch := ch) in H.
  destruct (Z.leb_spec 0xFE (uint8 ch)) as [_|Hlt]; [|lia].
  apply Z.eqb_eq. exact H.
Qed.

(** X11.  The bytes 0xFE and 0xFF are errors in every state, inside
    strings too: whatever token is pending, feeding one of them hands over
    exactly one error token, holding the pending bytes and that byte, and
    leaves the lexer at its start state with an empty buffer and its
    column counter incremented.  A sender can use them to bring the lexer
    back to a known state. *)
Theorem X11_resynchronisation (fuel : nat) (l : JSONLexer) (ch : ascii) :
  0 <= state l < 18 -> 0xFE <= uint8 ch ->
  json_lexer_feed_char (S fuel) l ch false
  = Ok (mkLexer (start_state l) (start_state l) EmptyString
                (wrap_int (x l + 1)) (y l),
        [mkToken (g_string_append_c (token l) ch) JSON_ERROR
                 (wrap_int (x l + 1)) (y l)]).
Proof.
  intros Hs Hc.
  assert (He : json_lexer (state l) (uint8 ch) = Some IN_ERROR).
  { rewrite json_lexer_row by exact Hs. f_equal. apply (high_cells _ _ Hs Hc). }
  rewrite (error_transition fuel l ch false He).
  assert (Hlf : Ascii.eqb ch LF = false).
  { destruct (Ascii.eqb_spec ch LF) as [->|]; [|reflexivity].
    vm_compute in Hc. exfalso. apply Hc. reflexivity. }
  unfold advance. rewrite Hlf. reflexivity.
Qed.

Lemma X11_resynchronisation_witness :
  json_lexer_feed_char 1
    (mkLexer IN_START IN_DQ_STRING_ESCAPE "'a\"%string 3 0) "255"%char false
  = Ok (mkLexer IN_START IN_START EmptyString 4 0,
        [mkToken (g_string_append_c "'a\"%string "255"%char) JSON_ERROR 4 0]).
Proof.
  apply (X11_resynchronisation 0
           (mkLexer IN_START IN_DQ_STRING_ESCAPE "'a\"%string 3 0)
           "255"%char).
  - cbn [state]. unfold IN_DQ_STRING_ESCAPE. lia.
  - vm_compute. discriminate.
Defined.

(** ** The passes of the loop, case by case *)

Lemma skip_cells s ch :
  0 <= s < 18 -> switch_on (entry s ch) = CaseSkip ->
  s = IN_WHITESPACE /\ lookahead s (entry s ch) = true.
Proof.
  intros Hs Hsw.
  pose proof (forall_row_spec
    (fun s => forall_ascii (fun ch =>
       match switch_on (entry s ch) with
       | CaseSkip => (s =? IN_WHITESPACE) && lookahead s (entry s ch)
       | _ => true
       end))
    ltac:(vm_compute; reflexivity) s Hs) as H.
  cbv beta in H. apply forall_ascii_spec with (ch := ch) in H.
  rewrite Hsw in H. apply andb_true_iff in H. destruct H as [H1 H2].
  split; [apply Z.eqb_eq; exact H1|exact H2].
Qed.

Lemma loop_body_cases l ch flush :
  0 <= state l < 18 ->
  (switch_on (entry (state l) ch) = CaseToken
   /\ lookahead (state l) (entry (state l) ch) = false
   /\ loop_body l ch flush
      = Ok (Break, reset l,
            [mkToken (if flush then token l
                      else g_string_append_c (token l) ch)
                     (entry (state l) ch) (x l) (y l)]))
  \/ (switch_on (entry (state l) ch) = CaseToken
      /\ lookahead (state l) (entry (state l) ch) = true
      /\ loop_body l ch flush
         = Ok (if flush then Break else Repeat, reset l,
               [mkToken (token l) (entry (state l) ch) (x l) (y l)]))
  \/ (state l = IN_WHITESPACE
      /\ loop_body l ch flush
         = Ok (if flush then Break else Repeat, reset l, []))
  \/ (loop_body l ch flush
      = Ok (Return, reset l,
            [mkToken (if flush then token l
                      else g_string_append_c (token l) ch)
                     JSON_ERROR (x l) (y l)]))
  \/ (IN_DQ_STRING_ESCAPE <= entry (state l) ch <= IN_WHITESPACE
      /\ loop_body l ch flush
         = Ok (Break,
               mkLexer (start_state l) (entry (state l) ch)
                       (if flush then token l
                        else g_string_append_c (token l) ch)
                       (x l) (y l), [])).
Proof.
  intros Hs. rewrite (loop_body_row l ch flush Hs). cbv zeta.
  destruct (switch_on (entry (state l) ch)) eqn:Hsw.
  - destruct (lookahead (state l) (entry (state l) ch)) eqn:Hla.
    + right. left. split; [reflexivity|]. split; [reflexivity|].
      destruct flush; reflexivity.
    + left. split; [reflexivity|]. split; [reflexivity|].
      destruct flush; reflexivity.
  - destruct (skip_cells _ _ Hs Hsw) as [E Hla].
    right. right. left. split; [exact E|].
    rewrite Hla. destruct flush; reflexivity.
  - right. right. right. left.
    assert (Hla : lookahead (state l) (entry (state l) ch) = false).
    { destruct (lookahead (state l) (entry (state l) ch)) eqn:Hla;
        [|reflexivity].
      unfold lookahead in Hla. apply andb_true_iff in Hla.
      destruct Hla as [Hne _]. apply negb_true_iff in Hne.
      unfold switch_on in Hsw.
      destruct (_ || _); [discriminate|].
      destruct (entry (state l) ch =? JSON_SKIP); [discriminate|].
      rewrite Hne in Hsw. discriminate. }
    rewrite Hla. destruct flush; reflexivity.
  - right. right. right. right.
    pose proof (default_entries _ _ Hs Hsw) as He.
    split; [exact He|].
    rewrite (lookahead_state _ _ Hs He). destruct flush; reflexivity.
Qed.

Lemma do_while_two l ch flush e :
  do_while 2 l ch flush = Ok e ->
  exists ex l' out,
    ex <> Repeat /\ le_lexer e = l'
    /\ le_returned e = match ex with Return => true | _ => false end
    /\ ((loop_body l ch flush = Ok (ex, l', out) /\ le_out e = out)
        \/ exists l1 o1,
             loop_body l ch flush = Ok (Repeat, l1, o1)
             /\ loop_body l1 ch flush = Ok (ex, l', out)
             /\ le_out e = o1 ++ out).
Proof.
  cbn [do_while]. intros H.
  apply bind_ok in H. destruct H as [[[ex l1] o1] [Hb H]].
  destruct ex.
  - apply bind_ok in H. destruct H as [e' [He' H]]. injection H as <-.
    apply bind_ok in He'. destruct He' as [[[ex2 l2] o2] [Hb2 He']].
    destruct ex2.
    + cbn [bind] in He'. discriminate.
    + injection He' as <-. exists Break, l2, o2.
      repeat split; try discriminate.
      right. exists l1, o1. auto.
    + injection He' as <-. exists Return, l2, o2.
      repeat split; try discriminate.
      right. exists l1, o1. auto.
  - injection H as <-. exists Break, l1, o1.
    repeat split; try discriminate. left. auto.
  - injection H as <-. exists Return, l1, o1.
    repeat split; try discriminate. left. auto.
Qed.

(** ** What the consumer can be handed *)

Lemma switch_on_token_tag e :
  switch_on e = CaseToken -> is_token_tag e = true.
Proof.
  unfold switch_on.
  destruct (_ || _) eqn:E.
  - intros _. unfold is_token_tag, in_range.
    unfold JSON_LCURLY, JSON_MIN, JSON_RCURLY, JSON_LSQUARE, JSON_RSQUARE,
      JSON_COLON, JSON_COMMA, JSON_INTERP, JSON_INTEGER, JSON_FLOAT,
      JSON_KEYWORD, JSON_STRING, JSON_ERROR, JSON_END_OF_INPUT in *.
    lia.
  - destruct (e =? JSON_SKIP); [discriminate|].
    destruct (e =? IN_ERROR); discriminate.
Qed.

Lemma loop_body_tokens l ch flush ex l' out :
  0 <= state l < 18 ->
  loop_body l ch flush = Ok (ex, l', out) ->
  Forall (tagged_within (len (token l) + 1)) out
  /\ len (token l') <= len (token l) + 1
  /\ (ex = Repeat -> l' = reset l).
Proof.
  intros Hs H.
  pose proof (len_ge0 (token l)) as Hge.
  assert (Ht : len (if flush then token l
                    else g_string_append_c (token l) ch)
               <= len (token l) + 1)
    by (destruct flush; [lia|rewrite len_append_c; lia]).
  destruct (loop_body_cases l ch flush Hs)
    as [(Hsw & _ & E)|[(Hsw & _ & E)|[(_ & E)|[E|(_ & E)]]]];
    rewrite E in H; injection H as <- <- <-.
  - split; [|split; [cbn; lia|discriminate]].
    constructor; [|constructor]. split; [|exact Ht].
    apply switch_on_token_tag. exact Hsw.
  - split; [|split; [cbn; lia|reflexivity]].
    constructor; [|constructor]. split; [|cbn [tok_text]; lia].
    apply switch_on_token_tag. exact Hsw.
  - split; [constructor|]. split; [cbn; lia|reflexivity].
  - split; [|split; [cbn; lia|discriminate]].
    constructor; [|constructor]. split; [reflexivity|exact Ht].
  - split; [constructor|]. split; [exact Ht|discriminate].
Qed.

Lemma do_while_tokens l ch flush e :
  lexer_okb l = true ->
  do_while 2 l ch flush = Ok e ->
  Forall (tagged_within (len (token l) + 1)) (le_out e)
  /\ len (token (le_lexer e)) <= len (token l) + 1.
Proof.
  intros Hok He.
  pose proof (lexer_okb_bounds l Hok) as Hs.
  pose proof (len_ge0 (token l)) as Hge.
  destruct (do_while_two _ _ _ _ He)
    as (ex & l' & out & Hex & El & _ & [[Hb Eo]|(l1 & o1 & Hb1 & Hb2 & Eo)]);
    rewrite Eo, El.
  - destruct (loop_body_tokens _ _ _ _ _ _ Hs Hb) as (T & L & _).
    split; assumption.
  - destruct (loop_body_tokens _ _ _ _ _ _ Hs Hb1) as (T1 & _ & R).
    specialize (R eq_refl). subst l1.
    assert (Hs1 : 0 <= state (reset l) < 18)
      by (apply lexer_okb_bounds; apply lexer_okb_reset; exact Hok).
    destruct (loop_body_tokens _ _ _ _ _ _ Hs1 Hb2) as (T2 & L2 & _).
    cbn [reset token] in T2, L2. change (len EmptyString) with 0 in T2, L2.
    split; [|lia].
    apply Forall_app. split; [exact T1|].
    eapply Forall_impl; [|exact T2].
    intros t [Tt Tl]. split; [exact Tt|lia].
Qed.

Lemma feed_char_tokens l ch flush l' out :
  inv l ->
  json_lexer_feed_char 2 l ch flush = Ok (l', out) ->
  Forall token_shape out.
Proof.
  intros [Hok Hlen] H.
  assert (Hok' : lexer_okb (advance l ch) = true)
    by (rewrite lexer_okb_advance; exact Hok).
  destruct (advance_fields l ch) as (_ & _ & At).
  unfold json_lexer_feed_char in H.
  apply bind_ok in H. destruct H as [e [He H]].
  destruct (do_while_ok _ ch flush Hok') as [e' [He' Hp]].
  rewrite He in He'. injection He' as <-.
  destruct Hp as (_ & _ & _ & Hok1 & _).
  destruct (do_while_tokens _ _ _ _ Hok' He) as [T L].
  rewrite At in T, L.
  assert (T' : Forall token_shape (le_out e)).
  { eapply Forall_impl; [|exact T].
    intros t [Tt Tl]. left. split; [exact Tt|lia]. }
  destruct (le_returned e).
  - injection H as _ <-. exact T'.
  - unfold check_size in H.
    destruct (Z.gtb_spec (len (token (le_lexer e))) MAX_TOKEN_SIZE)
      as [Hbig|_]; injection H as _ <-.
    + apply Forall_app. split; [exact T'|].
      constructor; [|constructor]. right.
      cbn [json_message_process_token tok_type tok_text].
      split; [|lia].
      unfold lexer_okb in Hok1. apply andb_true_iff in Hok1.
      destruct Hok1 as [_ Hst].
      destruct (state (le_lexer e) =? start_state (le_lexer e)).
      * destruct (token (le_lexer e)); [|discriminate].
        exfalso. vm_compute in Hbig. discriminate.
      * unfold in_range in Hst. lia.
    + rewrite app_nil_r. exact T'.
Qed.

(** What holds of every token a pass through [json_lexer_feed_char] hands
    over, and of the end-of-input token, holds of every token handed
    over. *)
Lemma run_Forall (P : JSONToken -> Prop) :
  (forall l ch flush l' out,
      inv l -> json_lexer_feed_char 2 l ch flush = Ok (l', out) ->
      Forall P out) ->
  (forall px py, P (mkToken EmptyString JSON_END_OF_INPUT px py)) ->
  forall calls l l' out,
    inv l -> run 2 l calls = Ok (l', out) -> Forall P out.
Proof.
  intros Hchar Heoi.
  assert (Hfeed : forall buffer l l' out,
             inv l -> json_lexer_feed 2 l buffer = Ok (l', out) ->
             Forall P out).
  { induction buffer as [|ch rest IH]; intros l l' out Hinv H.
    - injection H as _ <-. constructor.
    - cbn [json_lexer_feed] in H.
      apply bind_ok in H. destruct H as [[l1 o1] [H1 H]].
      apply bind_ok in H. destruct H as [[l2 o2] [H2 H]].
      injection H as _ <-. cbn [fst snd] in *.
      destruct (feed_char_ok l ch false (proj1 Hinv)) as [r [Hr Hp]].
      rewrite H1 in Hr. injection Hr as <-.
      destruct Hp as (_ & I1 & _). cbn [fst] in I1.
      apply Forall_app. split.
      + apply (Hchar _ _ _ _ _ Hinv H1).
      + apply (IH _ _ _ I1 H2). }
  assert (Hflush : forall l l' out,
             inv l -> json_lexer_flush 2 l = Ok (l', out) -> Forall P out).
  { intros l l' out Hinv H.
    destruct (flush_ok l Hinv) as (l2 & pending & Hf & _ & _ & _ & _ & _ & Hst).
    rewrite Hf in H. injection H as _ <-.
    apply Forall_app. split; [|constructor; [apply Heoi|constructor]].
    destruct (Z.eqb_spec (state l) (start_state l)) as [E|NE].
    - destruct (Hst E) as [_ ->]. constructor.
    - unfold json_lexer_flush in Hf.
      replace (state l =? start_state l) with false in Hf
        by (symmetry; apply Z.eqb_neq; exact NE).
      cbn [negb] in Hf.
      apply bind_ok in Hf. destruct Hf as [[l1 o1] [H1 Hf]].
      injection Hf as _ Hf. cbn [snd] in Hf.
      apply app_inj_tail in Hf. destruct Hf as [<- _].
      apply (Hchar _ _ _ _ _ Hinv H1). }
  induction calls as [|c rest IH]; intros l l' out Hinv H.
  - injection H as _ <-. constructor.
  - cbn [run] in H.
    apply bind_ok in H. destruct H as [[l1 o1] [H1 H]].
    apply bind_ok in H. destruct H as [[l2 o2] [H2 H]].
    injection H as _ <-. cbn [fst snd] in *.
    destruct (call_ok c l Hinv) as [r (Hr & _ & I1 & _)].
    rewrite H1 in Hr. injection Hr as <-. cbn [fst] in I1.
    apply Forall_app. split.
    + destruct c as [buffer|]; cbn [call] in H1.
      * apply (Hfeed _ _ _ _ Hinv H1).
      * apply (Hflush _ _ _ Hinv H1).
    + apply (IH _ _ _ I1 H2).
Qed.

(** X12.  Every token the consumer is handed, over any sequence of calls
    on a fresh lexer, is of one of two kinds.  Either it carries one of the
    tags of the token enumeration (never [JSON_SKIP]) and its text is at
    most [MAX_TOKEN_SIZE + 1] bytes long; or it is a buffer that the size
    check forced out, exactly [MAX_TOKEN_SIZE + 1] bytes long, and what it
    carries as its tag is the number of the state the lexer was in. *)
Theorem X12_token_shapes
  (interp : bool) (fuel : nat) (calls : list lexer_call) :
  exists l out,
    run (S (S fuel)) (json_lexer_init interp) calls = Ok (l, out)
    /\ Forall token_shape out.
Proof.
  destruct (run_ok calls _ (init_inv interp)) as [[l out] (Hr & _)].
  exists l, out. rewrite two_plus. split; [apply run_fuel; exact Hr|].
  apply (run_Forall token_shape feed_char_tokens
           ltac:(intros; left; split; vm_compute; [reflexivity|discriminate])
           calls _ _ _ (init_inv interp) Hr).
Qed.

(** X13.  A flush leaves the lexer ready for more input: after any
    sequence of calls on a fresh lexer, [json_lexer_flush] returns with
    the lexer at its start state and the buffer empty, and a second flush
    right after it hands over the end-of-input token alone and leaves the
    lexer as it is. *)
Theorem X13_flush_twice
  (interp : bool) (fuel : nat) (calls : list lexer_call) :
  exists l out l1 o1,
    run (S (S fuel)) (json_lexer_init interp) calls = Ok (l, out)
    /\ json_lexer_flush (S (S fuel)) l = Ok (l1, o1)
    /\ state l1 = start_state l1 /\ token l1 = EmptyString
    /\ json_lexer_flush (S (S fuel)) l1
       = Ok (l1, [mkToken EmptyString JSON_END_OF_INPUT (x l1) (y l1)]).
Proof.
  destruct (run_ok calls _ (init_inv interp)) as [[l out] (Hr & _ & I & _)].
  cbn [fst] in I.
  destruct (flush_ok l I) as (l1 & p1 & Hf1 & _ & Hs1 & I1 & _).
  destruct (flush_ok l1 I1) as (l2 & p2 & Hf2 & _ & _ & _ & _ & _ & Hst).
  destruct (Hst Hs1) as [-> ->].
  exists l, out, l1, (p1 ++ [mkToken EmptyString JSON_END_OF_INPUT (x l1) (y l1)]).
  rewrite two_plus.
  split; [apply run_fuel; exact Hr|].
  split; [apply flush_fuel; exact Hf1|].
  split; [exact Hs1|].
  split; [apply (lexer_okb_empty l1 (proj1 I1) Hs1)|].
  apply flush_fuel. exact Hf2.
Qed.

(** ** Nothing but whitespace is lost *)

Lemma strip_app u v : strip (u ++ v) = (strip u ++ strip v)%string.
Proof.
  induction u as [|a u IH]; [reflexivity|].
  cbn [append strip]. destruct (is_space a); [exact IH|].
  cbn [append]. rewrite IH. reflexivity.
Qed.

Lemma strip_spaces w : all_chars is_space w = true -> strip w = EmptyString.
Proof.
  induction w as [|a w IH]; [reflexivity|].
  cbn [all_chars strip]. intros H. apply andb_true_iff in H.
  destruct H as [Ha Hw]. rewrite Ha. apply IH. exact Hw.
Qed.

Lemma texts_app a b : texts (a ++ b) = (texts a ++ texts b)%string.
Proof.
  induction a as [|t a IH]; [reflexivity|].
  cbn [app texts]. rewrite IH, append_assoc. reflexivity.
Qed.

Lemma whitespace_entries s ch :
  0 <= s < 18 -> entry s ch = IN_WHITESPACE ->
  is_space ch = true /\ (is_start s = true \/ s = IN_WHITESPACE).
Proof.
  intros Hs He.
  pose proof (forall_row_spec
    (fun s => forall_ascii (fun ch =>
       if entry s ch =? IN_WHITESPACE
       then is_space ch && (is_start s || (s =? IN_WHITESPACE))
       else true))
    ltac:(vm_compute; reflexivity) s Hs) as H.
  cbv beta in H. apply forall_ascii_spec with (ch := ch) in H.
  rewrite He in H. change (IN_WHITESPACE =? IN_WHITESPACE) with true in H.
  cbv iota in H. apply andb_true_iff in H. destruct H as [H1 H2].
  split; [exact H1|].
  apply orb_true_iff in H2. destruct H2 as [H2|H2]; [left; exact H2|].
  right. apply Z.eqb_eq. exact H2.
Qed.

Lemma wsb_reset l : lexer_okb l = true -> wsb (reset l) = true.
Proof.
  intros Hok. apply lexer_okb_start in Hok.
  unfold wsb, reset. cbn [state token].
  unfold is_start, IN_START, IN_START_INTERP in Hok.
  replace (start_state l =? IN_WHITESPACE) with false; [reflexivity|].
  symmetry. apply Z.eqb_neq. unfold IN_WHITESPACE. lia.
Qed.

Lemma buffer_of_spaces l :
  lexer_okb l = true -> wsb l = true ->
  is_start (state l) = true \/ state l = IN_WHITESPACE ->
  all_chars is_space (token l) = true.
Proof.
  intros Hok Hws [Hst|Hst].
  - unfold lexer_okb in Hok. apply andb_true_iff in Hok.
    destruct Hok as [_ Hok].
    destruct (state l =? start_state l).
    + destruct (token l); [reflexivity|discriminate].
    + unfold in_range, IN_DQ_STRING_ESCAPE, IN_WHITESPACE in Hok.
      unfold is_start, IN_START, IN_START_INTERP in Hst. lia.
  - unfold wsb in Hws. rewrite Hst in Hws.
    change (IN_WHITESPACE =? IN_WHITESPACE) with true in Hws. exact Hws.
Qed.

Lemma loop_body_conserves l ch flush ex l' out :
  lexer_okb l = true -> wsb l = true ->
  loop_body l ch flush = Ok (ex, l', out) ->
  wsb l' = true
  /\ strip (texts out ++ token l')
     = strip (token l ++ joined ex flush ch).
Proof.
  intros Hok Hws H.
  pose proof (lexer_okb_bounds l Hok) as Hs.
  assert (Ht : (if flush then token l else g_string_append_c (token l) ch)
               = (token l ++ (if flush then EmptyString
                              else String ch EmptyString))%string)
    by (destruct flush; [rewrite append_nil_r|]; reflexivity).
  destruct (loop_body_cases l ch flush Hs)
    as [(_ & _ & E)|[(_ & _ & E)|[(Hst & E)|[E|(He & E)]]]];
    rewrite E in H; injection H as <- <- <-.
  - split; [apply wsb_reset; exact Hok|].
    cbn [texts tok_text reset token joined].
    rewrite !append_nil_r, Ht. reflexivity.
  - split; [apply wsb_reset; exact Hok|].
    cbn [texts tok_text reset token].
    replace (joined (if flush then Break else Repeat) flush ch)
      with EmptyString by (destruct flush; reflexivity).
    rewrite !append_nil_r. reflexivity.
  - split; [apply wsb_reset; exact Hok|].
    cbn [texts reset token append].
    replace (joined (if flush then Break else Repeat) flush ch)
      with EmptyString by (destruct flush; reflexivity).
    rewrite append_nil_r.
    rewrite (strip_spaces (token l));
      [reflexivity|apply (buffer_of_spaces l Hok Hws); right; exact Hst].
  - split; [apply wsb_reset; exact Hok|].
    cbn [texts tok_text reset token joined].
    rewrite !append_nil_r, Ht. reflexivity.
  - split.
    + unfold wsb. cbn [state token].
      destruct (Z.eqb_spec (entry (state l) ch) IN_WHITESPACE) as [Ew|_];
        [|reflexivity].
      destruct (whitespace_entries _ _ Hs Ew) as [Hc Hfrom].
      pose proof (buffer_of_spaces l Hok Hws Hfrom) as Hbuf.
      destruct flush; [exact Hbuf|].
      unfold g_string_append_c. rewrite all_chars_app, Hbuf.
      cbn [all_chars]. rewrite Hc. reflexivity.
    + cbn [texts token append joined]. rewrite Ht. reflexivity.
Qed.

Lemma do_while_conserves l ch flush e :
  lexer_okb l = true -> wsb l = true ->
  do_while 2 l ch flush = Ok e ->
  wsb (le_lexer e) = true
  /\ strip (texts (le_out e) ++ token (le_lexer e))
     = strip (token l ++ joined Break flush ch).
Proof.
  intros Hok Hws He.
  destruct (do_while_two _ _ _ _ He)
    as (ex & l' & out & Hex & El & _ & [[Hb Eo]|(l1 & o1 & Hb1 & Hb2 & Eo)]);
    rewrite Eo, El.
  - destruct (loop_body_conserves _ _ _ _ _ _ Hok Hws Hb) as [W C].
    split; [exact W|]. rewrite C.
    destruct ex; [contradiction|reflexivity|reflexivity].
  - destruct (loop_body_conserves _ _ _ _ _ _ Hok Hws Hb1) as [W1 C1].
    destruct (loop_body_ok l ch flush Hok) as [r [Hr Hp]].
    rewrite Hb1 in Hr. injection Hr as <-.
    destruct Hp as (_ & _ & _ & Hok1 & _ & _ & Hrep & _).
    destruct (Hrep eq_refl) as (-> & -> & _).
    destruct (loop_body_conserves _ _ _ _ _ _ Hok1 W1 Hb2) as [W2 C2].
    split; [exact W2|].
    cbn [reset token joined append] in C1, C2.
    rewrite append_nil_r in C1. rewrite append_nil_r in C1.
    rewrite texts_app, append_assoc, strip_app, C1.
    rewrite C2. rewrite <- strip_app.
    destruct ex; [contradiction|reflexivity|reflexivity].
Qed.

Lemma feed_char_conserves l ch flush l' out :
  inv l -> wsb l = true ->
  json_lexer_feed_char 2 l ch flush = Ok (l', out) ->
  wsb l' = true
  /\ strip (texts out ++ token l')
     = strip (token l ++ joined Break flush ch).
Proof.
  intros [Hok _] Hws H.
  assert (Hok' : lexer_okb (advance l ch) = true)
    by (rewrite lexer_okb_advance; exact Hok).
  assert (Hws' : wsb (advance l ch) = true)
    by (unfold wsb, advance in *; destruct (Ascii.eqb ch LF); exact Hws).
  destruct (advance_fields l ch) as (_ & _ & At).
  unfold json_lexer_feed_char in H.
  apply bind_ok in H. destruct H as [e [He H]].
  destruct (do_while_ok _ ch flush Hok') as [e' [He' Hp]].
  rewrite He in He'. injection He' as <-.
  destruct Hp as (_ & _ & _ & Hok1 & _).
  destruct (do_while_conserves _ _ _ _ Hok' Hws' He) as [W C].
  rewrite At in C.
  destruct (le_returned e).
  - injection H as <- <-. split; assumption.
  - unfold check_size in H.
    destruct (len (token (le_lexer e)) >? MAX_TOKEN_SIZE);
      injection H as <- <-.
    + split; [apply (wsb_reset _ Hok1)|].
      rewrite texts_app. cbn [texts json_message_process_token tok_text
                              set_state set_token token].
      rewrite !append_nil_r. exact C.
    + rewrite app_nil_r. split; assumption.
Qed.

Lemma feed_conserves : forall buffer l l' out,
  inv l -> wsb l = true ->
  json_lexer_feed 2 l buffer = Ok (l', out) ->
  inv l' /\ wsb l' = true
  /\ strip (texts out ++ token l') = strip (token l ++ buffer).
Proof.
  induction buffer as [|ch rest IH]; intros l l' out Hinv Hws H.
  - injection H as <- <-. cbn [texts append]. rewrite append_nil_r. auto.
  - cbn [json_lexer_feed] in H.
    apply bind_ok in H. destruct H as [[l1 o1] [H1 H]].
    apply bind_ok in H. destruct H as [[l2 o2] [H2 H]].
    injection H as <- <-. cbn [fst snd] in *.
    destruct (feed_char_ok l ch false (proj1 Hinv)) as [r [Hr Hp]].
    rewrite H1 in Hr. injection Hr as <-.
    destruct Hp as (_ & I1 & _). cbn [fst] in I1.
    destruct (feed_char_conserves _ _ _ _ _ Hinv Hws H1) as [W1 C1].
    destruct (IH _ _ _ I1 W1 H2) as (I2 & W2 & C2).
    split; [exact I2|]. split; [exact W2|].
    cbn [joined] in C1.
    rewrite texts_app, append_assoc, strip_app, C2, <- strip_app.
    rewrite <- append_assoc, strip_app, C1, <- strip_app.
    rewrite append_assoc. reflexivity.
Qed.

Lemma flush_conserves l l' out :
  inv l -> wsb l = true ->
  json_lexer_flush 2 l = Ok (l', out) ->
  inv l' /\ wsb l' = true
  /\ strip (texts out ++ token l') = strip (token l).
Proof.
  intros Hinv Hws H.
  destruct (flush_ok l Hinv)
    as (l2 & pending & Hf & _ & Hs2 & I2 & _ & _ & Hst).
  rewrite Hf in H. injection H as <- <-.
  split; [exact I2|].
  pose proof (lexer_okb_empty l2 (proj1 I2) Hs2) as Ht2.
  assert (W2 : wsb l2 = true).
  { unfold wsb. rewrite Ht2. destruct (state l2 =? IN_WHITESPACE); reflexivity. }
  split; [exact W2|].
  rewrite texts_app. cbn [texts tok_text]. rewrite Ht2, !append_nil_r.
  destruct (Z.eqb_spec (state l) (start_state l)) as [E|NE].
  - destruct (Hst E) as [_ ->]. cbn [texts].
    rewrite (lexer_okb_empty l (proj1 Hinv) E). reflexivity.
  - unfold json_lexer_flush in Hf.
    replace (state l =? start_state l) with false in Hf
      by (symmetry; apply Z.eqb_neq; exact NE).
    cbn [negb] in Hf.
    apply bind_ok in Hf. destruct Hf as [[l1 o1] [H1 Hf]].
    injection Hf as El Hf. cbn [fst snd] in El, Hf.
    apply app_inj_tail in Hf. destruct Hf as [<- _]. subst l1.
    destruct (feed_char_conserves _ _ _ _ _ Hinv Hws H1) as [_ C].
    rewrite Ht2 in C. cbn [joined] in C. rewrite !append_nil_r in C.
    exact C.
Qed.

Lemma run_conserves : forall calls l l' out,
  inv l -> wsb l = true ->
  run 2 l calls = Ok (l', out) ->
  strip (texts out ++ token l') = strip (token l ++ fed calls).
Proof.
  induction calls as [|c rest IH]; intros l l' out Hinv Hws H.
  - injection H as <- <-. cbn [texts append fed]. rewrite append_nil_r.
    reflexivity.
  - cbn [run] in H.
    apply bind_ok in H. destruct H as [[l1 o1] [H1 H]].
    apply bind_ok in H. destruct H as [[l2 o2] [H2 H]].
    injection H as <- <-. cbn [fst snd] in *.
    assert (Hc : inv l1 /\ wsb l1 = true
                 /\ strip (texts o1 ++ token l1)
                    = strip (token l ++ match c with
                                        | Feed buffer => buffer
                                        | Flush => EmptyString
                                        end)).
    { destruct c as [buffer|]; cbn [call] in H1.
      - apply (feed_conserves _ _ _ _ Hinv Hws H1).
      - rewrite append_nil_r. apply (flush_conserves _ _ _ Hinv Hws H1). }
    destruct Hc as (I1 & W1 & C1).
    rewrite texts_app, append_assoc, strip_app, (IH _ _ _ I1 W1 H2).
    rewrite <- strip_app, <- append_assoc, strip_app, C1, <- strip_app.
    rewrite append_assoc. destruct c; reflexivity.
Qed.

(** X14.  Apart from whitespace the lexer loses, adds and reorders
    nothing: after any sequence of calls on a fresh lexer, the texts of
    the tokens handed over, end to end and followed by what is still in
    the buffer, are the bytes that were fed, up to whitespace bytes. *)
Theorem X14_bytes_conserved
  (interp : bool) (fuel : nat) (calls : list lexer_call) :
  exists l out,
    run (S (S fuel)) (json_lexer_init interp) calls = Ok (l, out)
    /\ strip (texts out ++ token l) = strip (fed calls).
Proof.
  destruct (run_ok calls _ (init_inv interp)) as [[l out] (Hr & _)].
  exists l, out. rewrite two_plus. split; [apply run_fuel; exact Hr|].
  rewrite (run_conserves calls _ _ _ (init_inv interp)
             ltac:(destruct interp; reflexivity) Hr).
  destruct interp; reflexivity.
Qed.

(** ** Interpolation changes nothing without a percent sign *)

Lemma mirror_cells s1 s2 ch :
  s1 = s2 \/ (s1 = IN_START /\ s2 = IN_START_INTERP) ->
  not_percent ch = true -> entry s1 ch = entry s2 ch.
Proof.
  intros [->|[-> ->]] Hc; [reflexivity|].
  pose proof (forall_ascii_spec
    (fun ch => if not_percent ch
               then entry IN_START ch =? entry IN_START_INTERP ch else true)
    ltac:(vm_compute; reflexivity) ch) as H.
  cbv beta in H. rewrite Hc in H. apply Z.eqb_eq. exact H.
Qed.

Lemma loop_body_mirror l1 l2 ch flush ex l1' out :
  mirrors l1 l2 -> 0 <= state l1 < 18 -> 0 <= state l2 < 18 ->
  not_percent ch = true ->
  loop_body l1 ch flush = Ok (ex, l1', out) ->
  exists l2', loop_body l2 ch flush = Ok (ex, l2', out) /\ mirrors l1' l2'.
Proof.
  intros (S1 & S2 & T & X & Y & St) B1 B2 Hc H.
  rewrite (loop_body_row l1 ch flush B1) in H.
  rewrite (loop_body_row l2 ch flush B2).
  cbv zeta in *.
  pose proof (mirror_cells _ _ ch St Hc) as E.
  pose proof (mirror_cells _ _ NUL St eq_refl) as E0.
  assert (Ela : lookahead (state l1) (entry (state l1) ch)
                = lookahead (state l2) (entry (state l2) ch))
    by (unfold lookahead; rewrite E, E0; reflexivity).
  rewrite <- Ela, <- E.
  destruct l1 as [st1 s1 t1 x1 y1], l2 as [st2 s2 t2 x2 y2].
  cbn [start_state state token x y] in *. subst st1 st2 t2 x2 y2.
  set (e := entry s1 ch) in *.
  destruct (switch_on e);
    destruct (negb (lookahead s1 e) && negb flush);
    unfold set_state, set_token in *;
    cbn [start_state state token x y] in *;
    injection H as <- <- <-;
    (eexists; split; [reflexivity|]);
    unfold mirrors; cbn [start_state state token x y];
    repeat split; auto.
Qed.

Lemma mirrors_states l1 l2 :
  mirrors l1 l2 -> lexer_okb l1 = true -> lexer_okb l2 = true ->
  (state l1 = start_state l1 /\ state l2 = start_state l2)
  \/ (state l1 = state l2 /\ state l1 <> start_state l1
      /\ state l2 <> start_state l2).
Proof.
  intros (S1 & S2 & _ & _ & _ & St) O1 O2.
  unfold lexer_okb in O1, O2.
  apply andb_true_iff in O1. destruct O1 as [_ O1].
  apply andb_true_iff in O2. destruct O2 as [_ O2].
  rewrite S1 in *. rewrite S2 in *.
  destruct St as [St|[St1 St2]]; [|left; auto].
  right. rewrite <- St in O2.
  destruct (Z.eqb_spec (state l1) IN_START) as [E1|N1];
    destruct (Z.eqb_spec (state l1) IN_START_INTERP) as [E2|N2].
  - rewrite E1 in E2. discriminate.
  - exfalso. rewrite E1 in O2. discriminate.
  - exfalso. rewrite E2 in O1. discriminate.
  - repeat split; congruence.
Qed.

Lemma feed_char_mirror l1 l2 ch flush l1' out :
  mirrors l1 l2 -> lexer_okb l1 = true -> lexer_okb l2 = true ->
  not_percent ch = true ->
  json_lexer_feed_char 2 l1 ch flush = Ok (l1', out) ->
  exists l2',
    json_lexer_feed_char 2 l2 ch flush = Ok (l2', out)
    /\ mirrors l1' l2' /\ inv l1' /\ inv l2'.
Proof.
  intros M O1 O2 Hc H.
  destruct (feed_char_ok l1 ch flush O1) as [r1 [Hr1 P1]].
  rewrite H in Hr1. injection Hr1 as <-.
  destruct P1 as (_ & I1 & _). cbn [fst] in I1.
  destruct (feed_char_ok l2 ch flush O2) as [[l2' o2] [Hr2 P2]].
  destruct P2 as (_ & I2 & _). cbn [fst] in I2.
  exists l2'.
  assert (Ma : mirrors (advance l1 ch) (advance l2 ch)).
  { destruct M as (S1 & S2 & T & X & Y & St).
    unfold mirrors, advance. destruct (Ascii.eqb ch LF);
      cbn [start_state state token x y]; repeat split; auto; congruence. }
  assert (Oa1 : lexer_okb (advance l1 ch) = true)
    by (rewrite lexer_okb_advance; exact O1).
  assert (Oa2 : lexer_okb (advance l2 ch) = true)
    by (rewrite lexer_okb_advance; exact O2).
  pose proof (lexer_okb_bounds _ Oa1) as B1.
  pose proof (lexer_okb_bounds _ Oa2) as B2.
  pose proof H as H'. pose proof Hr2 as Hr2'.
  unfold json_lexer_feed_char in H', Hr2'.
  apply bind_ok in H'. destruct H' as [e1 [He1 H']].
  apply bind_ok in Hr2'. destruct Hr2' as [e2 [He2 Hr2']].
  destruct (do_while_ok _ ch flush Oa1) as [e1' [He1' Q1]].
  rewrite He1 in He1'. injection He1' as <-.
  destruct (do_while_ok _ ch flush Oa2) as [e2' [He2' Q2]].
  rewrite He2 in He2'. injection He2' as <-.
  destruct Q1 as (_ & _ & _ & Ok1 & _).
  destruct Q2 as (_ & _ & _ & Ok2 & _).
  assert (Me : mirrors (le_lexer e1) (le_lexer e2)
               /\ le_out e1 = le_out e2
               /\ le_returned e1 = le_returned e2).
  { destruct (do_while_two _ _ _ _ He1)
      as (ex & l' & o & Hex & El & Er
          & [[Hb Eo]|(la & oa & Hb1 & Hb2 & Eo)]).
    - destruct (loop_body_mirror _ _ _ _ _ _ _ Ma B1 B2 Hc Hb)
        as (m' & Hm & Mm).
      cbn [do_while] in He2. rewrite Hm in He2. cbn [bind] in He2.
      destruct ex; [contradiction| |]; injection He2 as <-;
        cbn [le_lexer le_out le_returned]; rewrite El, Eo, Er; auto.
    - destruct (loop_body_mirror _ _ _ _ _ _ _ Ma B1 B2 Hc Hb1)
        as (ma & Hma & Mma).
      destruct (loop_body_ok _ ch flush Oa1) as [ra [Hra Pa]].
      rewrite Hb1 in Hra. injection Hra as <-.
      destruct Pa as (_ & _ & _ & Oka & _).
      destruct (loop_body_ok _ ch flush Oa2) as [rb [Hrb Pb]].
      rewrite Hma in Hrb. injection Hrb as <-.
      destruct Pb as (_ & _ & _ & Okb & _).
      destruct (loop_body_mirror _ _ _ _ _ _ _ Mma
                  (lexer_okb_bounds _ Oka) (lexer_okb_bounds _ Okb) Hc Hb2)
        as (m' & Hm & Mm).
      cbn [do_while] in He2. rewrite Hma in He2. cbn [bind] in He2.
      rewrite Hm in He2. cbn [bind] in He2.
      destruct ex; [contradiction| |]; injection He2 as <-;
        cbn [le_lexer le_out le_returned]; rewrite El, Eo, Er; auto. }
  destruct Me as (Me & Eo & Er).
  rewrite <- Er in Hr2'.
  assert (Goal2 : (l2', o2) = (l2', out) /\ mirrors l1' l2').
  { destruct (le_returned e1).
    - injection H' as <- <-. injection Hr2' as <- <-.
      rewrite Eo. auto.
    - unfold check_size in H', Hr2'.
      destruct Me as (S1 & S2 & T & X & Y & St) eqn:EM.
      rewrite <- T in Hr2'.
      destruct (Z.gtb_spec (len (token (le_lexer e1))) MAX_TOKEN_SIZE)
        as [Hbig|_]; injection H' as <- <-; injection Hr2' as <- <-.
      + destruct (mirrors_states _ _ Me Ok1 Ok2) as [[E1 _]|(Es & _ & _)].
        * exfalso. rewrite (lexer_okb_empty _ Ok1 E1) in Hbig.
          vm_compute in Hbig. discriminate.
        * cbn [json_message_process_token]. rewrite Eo, Es, X, Y.
          split; [reflexivity|].
          unfold mirrors, set_state, set_token.
          cbn [start_state state token x y]. repeat split; auto.
      + rewrite Eo. auto. }
  destruct Goal2 as [Eq Mm]. injection Eq as ->.
  split; [exact Hr2|]. split; [exact Mm|]. split; assumption.
Qed.

Lemma feed_mirror : forall buffer l1 l2 l1' out,
  mirrors l1 l2 -> inv l1 -> inv l2 ->
  all_chars not_percent buffer = true ->
  json_lexer_feed 2 l1 buffer = Ok (l1', out) ->
  exists l2',
    json_lexer_feed 2 l2 buffer = Ok (l2', out)
    /\ mirrors l1' l2' /\ inv l1' /\ inv l2'.
Proof.
  induction buffer as [|ch rest IH]; intros l1 l2 l1' out M I1 I2 Hb H.
  - injection H as <- <-. exists l2. auto.
  - cbn [all_chars] in Hb. apply andb_true_iff in Hb. destruct Hb as [Hc Hr].
    cbn [json_lexer_feed] in H.
    apply bind_ok in H. destruct H as [[la oa] [Ha H]].
    apply bind_ok in H. destruct H as [[lb ob] [Hb H]].
    injection H as <- <-. cbn [fst snd] in *.
    destruct (feed_char_mirror _ _ _ _ _ _ M (proj1 I1) (proj1 I2) Hc Ha)
      as (ma & Hma & Mma & Ia1 & Ia2).
    destruct (IH _ _ _ _ Mma Ia1 Ia2 Hr Hb) as (mb & Hmb & Mmb & Ib1 & Ib2).
    exists mb. cbn [json_lexer_feed]. rewrite Hma. cbn [bind fst snd].
    rewrite Hmb. cbn [bind fst snd]. auto.
Qed.

Lemma flush_mirror l1 l2 l1' out :
  mirrors l1 l2 -> inv l1 -> inv l2 ->
  json_lexer_flush 2 l1 = Ok (l1', out) ->
  exists l2',
    json_lexer_flush 2 l2 = Ok (l2', out)
    /\ mirrors l1' l2' /\ inv l1' /\ inv l2'.
Proof.
  intros M I1 I2 H.
  destruct (flush_ok l1 I1) as (f1 & p1 & Hf1 & _ & _ & If1 & _).
  rewrite H in Hf1. injection Hf1 as <- _.
  destruct (flush_ok l2 I2) as (f2 & p2 & Hf2 & _ & _ & If2 & _).
  unfold json_lexer_flush in H |- *.
  destruct (mirrors_states _ _ M (proj1 I1) (proj1 I2))
    as [[E1 E2]|(Es & N1 & N2)].
  - rewrite E1, Z.eqb_refl in H. rewrite E2, Z.eqb_refl.
    cbn [negb bind fst snd] in *. injection H as <- <-.
    exists l2. pose proof M as (S1 & S2 & T & X & Y & St).
    unfold json_message_process_token. rewrite T, X, Y.
    split; [reflexivity|]. split; [exact M|]. split; assumption.
  - replace (state l1 =? start_state l1) with false in H
      by (symmetry; apply Z.eqb_neq; exact N1).
    replace (state l2 =? start_state l2) with false
      by (symmetry; apply Z.eqb_neq; exact N2).
    cbn [negb] in *.
    apply bind_ok in H. destruct H as [[la oa] [Ha H]].
    injection H as <- <-. cbn [fst snd].
    destruct (feed_char_mirror l1 l2 NUL true la oa M (proj1 I1) (proj1 I2)
                eq_refl Ha) as (ma & Hma & Mma & Ia1 & Ia2).
    rewrite Hma. cbn [bind fst snd]. exists ma.
    pose proof Mma as (S1 & S2 & T & X & Y & St).
    unfold json_message_process_token. rewrite T, X, Y.
    split; [reflexivity|]. split; [exact Mma|].
    split; [exact If1|].
    unfold json_lexer_flush in Hf2.
    replace (state l2 =? start_state l2) with false in Hf2
      by (symmetry; apply Z.eqb_neq; exact N2).
    cbn [negb] in Hf2. rewrite Hma in Hf2. cbn [bind fst snd] in Hf2.
    injection Hf2 as <- _. exact If2.
Qed.

Lemma run_mirror : forall calls l1 l2 l1' out,
  mirrors l1 l2 -> inv l1 -> inv l2 ->
  all_chars not_percent (fed calls) = true ->
  run 2 l1 calls = Ok (l1', out) ->
  exists l2', run 2 l2 calls = Ok (l2', out) /\ mirrors l1' l2'.
Proof.
  induction calls as [|c rest IH]; intros l1 l2 l1' out M I1 I2 Hb H.
  - injection H as <- <-. exists l2. auto.
  - cbn [run] in H.
    apply bind_ok in H. destruct H as [[la oa] [Ha H]].
    apply bind_ok in H. destruct H as [[lb ob] [Hrest H]].
    injection H as <- <-. cbn [fst snd] in *.
    assert (Hstep : exists ma,
              call 2 l2 c = Ok (ma, oa)
              /\ mirrors la ma /\ inv la /\ inv ma
              /\ all_chars not_percent (fed rest) = true).
    { destruct c as [buffer|]; cbn [call fed] in *.
      - rewrite all_chars_app in Hb. apply andb_true_iff in Hb.
        destruct Hb as [Hb1 Hb2].
        destruct (feed_mirror _ _ _ _ _ M I1 I2 Hb1 Ha)
          as (ma & Hma & Mma & Ia1 & Ia2).
        exists ma. auto.
      - destruct (flush_mirror _ _ _ _ M I1 I2 Ha)
          as (ma & Hma & Mma & Ia1 & Ia2).
        exists ma. auto. }
    destruct Hstep as (ma & Hma & Mma & Ia1 & Ia2 & Hb').
    destruct (IH _ _ _ _ Mma Ia1 Ia2 Hb' Hrest) as (mb & Hmb & Mmb).
    exists mb. cbn [run]. rewrite Hma. cbn [bind fst snd].
    rewrite Hmb. cbn [bind fst snd]. auto.
Qed.

(** X15.  Enabling interpolation changes nothing for input that holds no
    percent sign: over any sequence of calls that feeds none, a lexer
    initialised with interpolation and one initialised without hand the
    consumer the same tokens, and they end with the same buffer and the
    same position. *)
Theorem X15_interpolation_only_at_percent
  (fuel : nat) (calls : list lexer_call) :
  all_chars not_percent (fed calls) = true ->
  exists l1 l2 out,
    run (S (S fuel)) (json_lexer_init false) calls = Ok (l1, out)
    /\ run (S (S fuel)) (json_lexer_init true) calls = Ok (l2, out)
    /\ token l1 = token l2 /\ x l1 = x l2 /\ y l1 = y l2.
Proof.
  intros Hb.
  destruct (run_ok calls _ (init_inv false)) as [[l1 out] (Hr & _)].
  assert (M0 : mirrors (json_lexer_init false) (json_lexer_init true))
    by (unfold mirrors; cbn; repeat split; auto).
  destruct (run_mirror calls _ _ _ _ M0 (init_inv false) (init_inv true) Hb Hr)
    as (l2 & Hr2 & M).
  exists l1, l2, out. rewrite two_plus.
  split; [apply run_fuel; exact Hr|].
  split; [apply run_fuel; exact Hr2|].
  destruct M as (_ & _ & T & X & Y & _). auto.
Qed.

Lemma X15_interpolation_only_at_percent_witness :
  exists l1 l2 out,
    run 2 (json_lexer_init false) [Feed "[1, x]"%string; Flush] = Ok (l1, out)
    /\ run 2 (json_lexer_init true) [Feed "[1, x]"%string; Flush]
       = Ok (l2, out)
    /\ token l1 = token l2 /\ x l1 = x l2 /\ y l1 = y l2.
Proof.
  apply (X15_interpolation_only_at_percent 0 [Feed "[1, x]"%string; Flush]).
  reflexivity.
Defined.

(** ** One piece after another *)

Lemma advance_reset l ch : advance (reset l) ch = reset (advance l ch).
Proof. unfold advance, reset. destruct (Ascii.eqb ch LF); reflexivity. Qed.

Lemma do_while_at_start l ch flush :
  lexer_okb l = true -> state l = start_state l ->
  exists e, do_while 1 l ch flush = Ok e.
Proof.
  intros Hok Hs.
  destruct (loop_body_ok l ch flush Hok) as [[[ex l'] out] [Hb Hp]].
  destruct Hp as (_ & _ & _ & _ & _ & _ & Hrep & _).
  cbn [do_while]. rewrite Hb. cbn [bind].
  destruct ex; [|eexists; reflexivity|eexists; reflexivity].
  exfalso. destruct (Hrep eq_refl) as (_ & _ & Hne). apply Hne. exact Hs.
Qed.

Lemma do_while_S fuel l ch flush :
  do_while (S fuel) l ch flush
  = (r <- loop_body l ch flush ;;
     match r with
     | (Repeat, lexer', out) =>
         e <- do_while fuel lexer' ch flush ;;
         Ok (mkLoopEnd (le_returned e) (le_lexer e)
                       (out ++ le_out e) (S (le_passes e)))
     | (Break, lexer', out) => Ok (mkLoopEnd false lexer' out 1)
     | (Return, lexer', out) => Ok (mkLoopEnd true lexer' out 1)
     end).
Proof. reflexivity. Qed.

(** A byte that completes the pending token by lookahead: the token is
    handed over, and the byte is lexed as from the start state. *)
Lemma feed_char_after_pending l tag c r :
  lexer_okb l = true -> In (state l, tag) terminal_rows ->
  uint8 c <= 0x7F -> overridden (state l) (uint8 c) = false ->
  json_lexer_feed_char 2 (reset l) c false = Ok r ->
  json_lexer_feed_char 2 l c false
  = Ok (fst r, completed (advance l c) tag ++ snd r).
Proof.
  intros Hok Hin Hle Hov Hr.
  destruct (advance_fields l c) as (Ast & As & At).
  assert (Hoka : lexer_okb (advance l c) = true)
    by (rewrite lexer_okb_advance; exact Hok).
  assert (Hin' : In (state (advance l c), tag) terminal_rows)
    by (rewrite As; exact Hin).
  pose proof (terminal_row_body _ tag (advance l c) c Hin' eq_refl Hle)
    as Hbody.
  rewrite As in Hbody. specialize (Hbody Hov).
  unfold completes_by_lookahead in Hbody.
  destruct (do_while_at_start (reset (advance l c)) c false
              (lexer_okb_reset _ Hoka) eq_refl) as [e He].
  unfold json_lexer_feed_char in Hr. rewrite advance_reset in Hr.
  rewrite (do_while_more _ _ _ _ _ He) in Hr. cbn [bind] in Hr.
  unfold json_lexer_feed_char. rewrite do_while_S, Hbody.
  cbn [bind].
  rewrite He. cbn [bind le_returned le_lexer le_out].
  destruct (le_returned e).
  - injection Hr as <-. reflexivity.
  - destruct (check_size (le_lexer e)) as [l2 o2].
    injection Hr as <-. cbn [fst snd]. rewrite app_assoc. reflexivity.
Qed.

Lemma feed_after_pending l tag c rest r :
  lexer_okb l = true -> In (state l, tag) terminal_rows ->
  uint8 c <= 0x7F -> overridden (state l) (uint8 c) = false ->
  json_lexer_feed 2 (reset l) (String c rest) = Ok r ->
  json_lexer_feed 2 l (String c rest)
  = Ok (fst r, completed (advance l c) tag ++ snd r).
Proof.
  intros Hok Hin Hle Hov Hr.
  cbn [json_lexer_feed] in Hr |- *.
  apply bind_ok in Hr. destruct Hr as [r1 [H1 Hr]].
  apply bind_ok in Hr. destruct Hr as [r2 [H2 Hr]].
  injection Hr as <-.
  rewrite (feed_char_after_pending l tag c r1 Hok Hin Hle Hov H1).
  cbn [bind fst snd]. rewrite H2. cbn [bind fst snd].
  rewrite app_assoc. reflexivity.
Qed.

Lemma is_start_cases s :
  is_start s = true -> s = IN_START \/ s = IN_START_INTERP.
Proof.
  unfold is_start. intros H. apply orb_true_iff in H.
  destruct H as [H|H]; apply Z.eqb_eq in H; auto.
Qed.

Lemma okb_inside st s t px py :
  is_start st = true -> IN_DQ_STRING_ESCAPE <= s <= IN_WHITESPACE ->
  lexer_okb (mkLexer st s t px py) = true.
Proof.
  intros Hst Hs. unfold lexer_okb. cbn [start_state state token].
  rewrite Hst. cbn [andb].
  replace (s =? st) with false.
  - unfold in_range. lia.
  - symmetry. apply Z.eqb_neq.
    unfold is_start, IN_START, IN_START_INTERP in Hst.
    unfold IN_DQ_STRING_ESCAPE, IN_WHITESPACE in Hs. lia.
Qed.

Lemma okb_at_start st px py :
  is_start st = true -> lexer_okb (mkLexer st st EmptyString px py) = true.
Proof.
  intros Hst. unfold lexer_okb. cbn [start_state state token].
  rewrite Hst, Z.eqb_refl. reflexivity.
Qed.

Lemma walk_keyword s w :
  is_start s = true -> nonempty w = true -> all_chars is_lower w = true ->
  walk s w = Some IN_KEYWORD.
Proof.
  intros Hs Hne Hw. destruct w as [|c rest]; [discriminate|].
  cbn [all_chars] in Hw. apply andb_true_iff in Hw. destruct Hw as [Hc Hr].
  destruct (keyword_cells c Hc) as (K1 & K2 & _).
  rewrite (walk_step s c rest IN_KEYWORD)
    by (first [destruct (is_start_cases s Hs) as [-> | ->]; assumption
              |vm_compute; split; discriminate]).
  apply (walk_loop is_lower); [|vm_compute; split; discriminate|exact Hr].
  intros ch Hch. apply (keyword_cells ch Hch).
Qed.

Lemma walk_space s w :
  is_start s = true -> nonempty w = true -> all_chars is_space w = true ->
  walk s w = Some IN_WHITESPACE.
Proof.
  intros Hs Hne Hw. destruct w as [|c rest]; [discriminate|].
  cbn [all_chars] in Hw. apply andb_true_iff in Hw. destruct Hw as [Hc Hr].
  destruct (whitespace_cells c Hc) as (K1 & K2 & _).
  rewrite (walk_step s c rest IN_WHITESPACE)
    by (first [destruct (is_start_cases s Hs) as [-> | ->]; assumption
              |vm_compute; split; discriminate]).
  apply (walk_loop is_space); [|vm_compute; split; discriminate|exact Hr].
  intros ch Hch. apply (whitespace_cells ch Hch).
Qed.

Lemma walk_opened s single items :
  is_start s = true ->
  forallb (item_ok (quote_of single)) items = true ->
  walk s (String (quote_of single) (body_text items))
  = Some (string_state single).
Proof.
  intros Hs H.
  rewrite (walk_step _ (quote_of single) _ (string_state single))
    by (first [destruct (is_start_cases s Hs) as [-> | ->];
               destruct single; reflexivity
              |apply string_state_bounds]).
  apply walk_body. exact H.
Qed.

(** A feed along a walk from the start state, whatever the position. *)
Lemma feed_word l w s' :
  lexer_okb l = true -> state l = start_state l ->
  nonempty w = true -> walk (state l) w = Some s' ->
  len w <= MAX_TOKEN_SIZE ->
  exists px py,
    json_lexer_feed 2 l w = Ok (mkLexer (start_state l) s' w px py, [])
    /\ inv (mkLexer (start_state l) s' w px py).
Proof.
  intros Hok Hs Hne Hw Hlen.
  pose proof (lexer_okb_empty l Hok Hs) as Ht.
  pose proof (lexer_okb_start l Hok) as Hst.
  pose proof (lexer_okb_bounds l Hok) as Hb.
  pose proof (feed_walk 1 w l s' Hb Hw) as H.
  rewrite Ht in H. change (len EmptyString) with 0 in H.
  specialize (H ltac:(lia)). cbn [append] in H.
  eexists. eexists. split; [exact H|].
  split; [|exact Hlen].
  apply okb_inside; [exact Hst|apply (walk_nonempty _ _ _ Hne Hw)].
Qed.

Lemma feed_string l single items :
  lexer_okb l = true -> state l = start_state l ->
  forallb (item_ok (quote_of single)) items = true ->
  len (body_text items) < MAX_TOKEN_SIZE ->
  exists px py,
    json_lexer_feed 2 l (lexeme_text (LString single items))
    = Ok (mkLexer (start_state l) (start_state l) EmptyString px py,
          [mkToken (lexeme_text (LString single items)) JSON_STRING px py]).
Proof.
  intros Hok Hs Hitems Hlen.
  pose proof (lexer_okb_start l Hok) as Hst.
  assert (Hw : walk (state l) (String (quote_of single) (body_text items))
               = Some (string_state single))
    by (rewrite Hs; apply (walk_opened _ single items Hst Hitems)).
  destruct (feed_word l (String (quote_of single) (body_text items)) _
              Hok Hs eq_refl Hw
              ltac:(rewrite len_String; lia)) as (px & py & Hf & _).
  cbn [lexeme_text]. rewrite feed_app, Hf. cbn [bind fst snd json_lexer_feed].
  rewrite (feed_char_emit 1); cbn [state start_state token x y].
  - cbn [bind fst snd app].
    replace (entry (string_state single) (quote_of single))
      with JSON_STRING by (destruct single; reflexivity).
    eexists. eexists. reflexivity.
  - pose proof (string_state_bounds single) as B.
    unfold IN_DQ_STRING_ESCAPE, IN_WHITESPACE in B. lia.
  - destruct single; reflexivity.
  - destruct single; reflexivity.
Qed.

Lemma feed_one_structural l ch tag :
  lexer_okb l = true -> state l = start_state l ->
  structural_tag ch = Some tag ->
  exists px py,
    json_lexer_feed 2 l (String ch EmptyString)
    = Ok (mkLexer (start_state l) (start_state l) EmptyString px py,
          [mkToken (String ch EmptyString) tag px py]).
Proof.
  intros Hok Hs Htag.
  pose proof (lexer_okb_start l Hok) as Hst.
  pose proof (lexer_okb_empty l Hok Hs) as Ht.
  destruct (structural_cells ch tag Htag) as (K1 & K2 & Ksw & _).
  assert (E : entry (state l) ch = tag)
    by (rewrite Hs; destruct (is_start_cases _ Hst) as [-> | ->]; assumption).
  cbn [json_lexer_feed].
  rewrite (feed_char_emit 1 l ch);
    [|rewrite Hs; apply is_start_bounds; exact Hst
     |rewrite E; exact Ksw
     |rewrite Hs; apply lookahead_at_start; exact Hst].
  cbn [bind fst snd app]. rewrite E, Ht.
  eexists. eexists. reflexivity.
Qed.

Lemma terminal_tag_at_end s tag :
  In (s, tag) terminal_rows -> tag_at_end s = tag.
Proof.
  intros Hin. unfold terminal_rows in Hin. simpl in Hin.
  repeat (destruct Hin as [Hin|Hin]; [injection Hin as <- <-; reflexivity|]).
  contradiction.
Qed.

(** A piece, from the start state. *)
Lemma piece_from_start l p :
  lexer_okb l = true -> state l = start_state l ->
  piece_ok KStart p = true ->
  exists l' out owed,
    json_lexer_feed 2 l (piece_text p) = Ok (l', out)
    /\ inv l'
    /\ start_state l' = start_state l
    /\ between (piece_kind p) l' owed
    /\ map summary out ++ owed = piece_tokens p.
Proof.
  intros Hok Hs Hp.
  pose proof (lexer_okb_start l Hok) as Hst.
  destruct p as [[w|n|single items|ch]|w]; cbn [piece_ok lexeme_ok] in Hp;
    cbn [piece_text piece_kind is_word piece_tokens lexeme_tag].
  - (* a keyword *)
    apply andb_true_iff in Hp. destruct Hp as [Hp _].
    apply andb_true_iff in Hp. destruct Hp as [Hp Hlen].
    apply andb_true_iff in Hp. destruct Hp as [Hne Hw].
    apply Z.leb_le in Hlen.
    assert (Hwalk : walk (state l) w = Some IN_KEYWORD)
      by (rewrite Hs; apply (walk_keyword _ w Hst Hne Hw)).
    destruct (feed_word l w _ Hok Hs Hne Hwalk Hlen) as (px & py & Hf & I).
    eexists. exists [], [(w, JSON_KEYWORD)].
    split; [exact Hf|]. split; [exact I|]. split; [reflexivity|].
    split; [|reflexivity].
    exists JSON_KEYWORD. cbn [state token].
    split; [vm_compute; auto 10|]. split; [discriminate|reflexivity].
  - (* a number *)
    apply andb_true_iff in Hp. destruct Hp as [Hp _].
    apply andb_true_iff in Hp. destruct Hp as [Hp Hlen].
    apply andb_true_iff in Hp. destruct Hp as [Hn Hz].
    apply negb_true_iff in Hz. apply Z.leb_le in Hlen.
    destruct (number_walk (state l) n
                ltac:(rewrite Hs; apply is_start_cases; exact Hst) Hn Hz)
      as (s' & Hwalk & Htag).
    pose proof (number_text_nonempty n Hn) as Hne.
    destruct (feed_word l _ _ Hok Hs Hne Hwalk Hlen) as (px & py & Hf & I).
    pose proof (walk_nonempty _ _ _ Hne Hwalk) as Hs'.
    assert (Hnt : number_tag n = JSON_INTEGER \/ number_tag n = JSON_FLOAT)
      by (unfold number_tag; destruct (num_frac n), (num_exp n); auto).
    eexists. exists [], [(number_text n, number_tag n)].
    split; [exact Hf|]. split; [exact I|]. split; [reflexivity|].
    split; [|reflexivity].
    exists (number_tag n). cbn [state token].
    destruct (column0_tag s' ltac:(unfold IN_DQ_STRING_ESCAPE, IN_WHITESPACE in Hs'; lia))
      as [_ [Herr|Hin]].
    + exfalso. rewrite Htag in Herr. destruct Hnt as [E|E]; rewrite E in Herr;
        discriminate.
    + rewrite Htag in Hin. split; [exact Hin|]. split; [|reflexivity].
      intros E. rewrite E in Htag. destruct Hnt as [E'|E']; rewrite E' in Htag;
        discriminate.
  - (* a string *)
    apply andb_true_iff in Hp. destruct Hp as [Hp _].
    apply andb_true_iff in Hp. destruct Hp as [Hitems Hlen].
    apply Z.ltb_lt in Hlen.
    destruct (feed_string l single items Hok Hs Hitems Hlen)
      as (px & py & Hf).
    eexists. eexists. exists [].
    split; [exact Hf|].
    split; [split; [apply okb_at_start; exact Hst|vm_compute; discriminate]|].
    split; [reflexivity|].
    split; [cbn [between state start_state token]; auto|reflexivity].
  - (* a structural character *)
    apply andb_true_iff in Hp. destruct Hp as [Hp _].
    unfold is_structural in Hp.
    destruct (structural_tag ch) as [tag|] eqn:Htag; [|discriminate].
    destruct (feed_one_structural l ch tag Hok Hs Htag) as (px & py & Hf).
    eexists. eexists. exists [].
    split; [exact Hf|].
    split; [split; [apply okb_at_start; exact Hst|vm_compute; discriminate]|].
    split; [reflexivity|].
    split; [cbn [between state start_state token]; auto|reflexivity].
  - (* whitespace *)
    apply andb_true_iff in Hp. destruct Hp as [Hp _].
    apply andb_true_iff in Hp. destruct Hp as [Hp Hlen].
    apply andb_true_iff in Hp. destruct Hp as [Hne Hw].
    apply Z.leb_le in Hlen.
    assert (Hwalk : walk (state l) w = Some IN_WHITESPACE)
      by (rewrite Hs; apply (walk_space _ w Hst Hne Hw)).
    destruct (feed_word l w _ Hok Hs Hne Hwalk Hlen) as (px & py & Hf & I).
    eexists. exists [], [].
    split; [exact Hf|]. split; [exact I|]. split; [reflexivity|].
    split; [cbn [between state]; auto|reflexivity].
Qed.

Lemma after_space_cells c :
  starts_lexeme c = true ->
  uint8 c <= 0x7F /\ overridden IN_WHITESPACE (uint8 c) = false.
Proof.
  intros Hc.
  pose proof (forall_ascii_spec
    (fun c => if starts_lexeme c
              then (uint8 c <=? 0x7F)
                   && negb (overridden IN_WHITESPACE (uint8 c))
              else true)
    ltac:(vm_compute; reflexivity) c) as H.
  cbv beta in H. rewrite Hc in H.
  apply andb_true_iff in H. destruct H as [H1 H2].
  split; [apply Z.leb_le; exact H1|apply negb_true_iff; exact H2].
Qed.

Lemma after_word_cells s tag c :
  In (s, tag) terminal_rows -> s <> IN_WHITESPACE -> ends_word c = true ->
  uint8 c <= 0x7F /\ overridden s (uint8 c) = false.
Proof.
  intros Hin Hs Hc.
  pose proof (forallb_forall
    (fun '(s, _) =>
       (s =? IN_WHITESPACE)
       || forall_ascii (fun c =>
            if ends_word c
            then (uint8 c <=? 0x7F) && negb (overridden s (uint8 c))
            else true))
    terminal_rows) as [H _].
  specialize (H ltac:(vm_compute; reflexivity) (s, tag) Hin).
  cbv beta iota in H. apply orb_true_iff in H. destruct H as [H|H].
  - apply Z.eqb_eq in H. contradiction.
  - apply forall_ascii_spec with (ch := c) in H. rewrite Hc in H.
    apply andb_true_iff in H. destruct H as [H1 H2].
    split; [apply Z.leb_le; exact H1|apply negb_true_iff; exact H2].
Qed.

Lemma digit19_is_digit c : is_digit19 c = true -> is_digit c = true.
Proof.
  intros Hc.
  pose proof (forall_ascii_spec
    (fun c => if is_digit19 c then is_digit c else true)
    ltac:(vm_compute; reflexivity) c) as H.
  cbv beta in H. rewrite Hc in H. exact H.
Qed.

(** The first byte of a piece. *)
Lemma piece_first p :
  piece_ok KStart p = true ->
  exists c rest,
    piece_text p = String c rest
    /\ match p with
       | PSpace _ => ends_word c = true
       | PLexeme lx =>
           starts_lexeme c = true
           /\ (is_word lx = false -> ends_word c = true)
       end.
Proof.
  intros Hp.
  destruct p as [[w|n|single items|ch]|w]; cbn [piece_ok lexeme_ok] in Hp;
    cbn [piece_text lexeme_text is_word].
  - apply andb_true_iff in Hp. destruct Hp as [Hp _].
    apply andb_true_iff in Hp. destruct Hp as [Hp _].
    apply andb_true_iff in Hp. destruct Hp as [Hne Hw].
    destruct w as [|c rest]; [discriminate|].
    cbn [all_chars] in Hw. apply andb_true_iff in Hw. destruct Hw as [Hc _].
    exists c, rest. split; [reflexivity|]. split; [|discriminate].
    unfold starts_lexeme. rewrite Hc. reflexivity.
  - apply andb_true_iff in Hp. destruct Hp as [Hp _].
    apply andb_true_iff in Hp. destruct Hp as [Hp _].
    apply andb_true_iff in Hp. destruct Hp as [Hn _].
    destruct n as [m i f e]. unfold number_ok in Hn.
    cbn [num_int num_frac num_exp] in Hn.
    apply andb_true_iff in Hn. destruct Hn as [Hn _].
    apply andb_true_iff in Hn. destruct Hn as [Hi _].
    unfold number_text. cbn [num_minus num_int num_frac num_exp].
    destruct m; cbn [sign_text append].
    + eexists. eexists. split; [reflexivity|]. split; [reflexivity|discriminate].
    + destruct i as [|c rest]; [discriminate|]. cbn [append].
      eexists. eexists. split; [reflexivity|]. split; [|discriminate].
      cbn [int_ok] in Hi. apply orb_true_iff in Hi.
      assert (Hd : is_digit c = true).
      { destruct Hi as [Hi|Hi]; apply andb_true_iff in Hi;
          destruct Hi as [Hc _].
        - apply Ascii.eqb_eq in Hc. subst c. reflexivity.
        - apply digit19_is_digit. exact Hc. }
      unfold starts_lexeme. rewrite Hd.
      destruct (is_lower c); reflexivity.
  - eexists. eexists. split; [reflexivity|].
    split; [destruct single; reflexivity|intros _; destruct single; reflexivity].
  - apply andb_true_iff in Hp. destruct Hp as [Hp _].
    eexists. eexists. split; [reflexivity|].
    assert (Hs : starts_lexeme ch = true).
    { unfold starts_lexeme. rewrite Hp.
      destruct (is_lower ch), (is_digit ch), (Ascii.eqb ch "-"); reflexivity. }
    assert (He : ends_word ch = true).
    { unfold ends_word. rewrite Hp. destruct (is_space ch); reflexivity. }
    split; [exact Hs|intros _; exact He].
  - apply andb_true_iff in Hp. destruct Hp as [Hp _].
    apply andb_true_iff in Hp. destruct Hp as [Hp _].
    apply andb_true_iff in Hp. destruct Hp as [Hne Hw].
    destruct w as [|c rest]; [discriminate|].
    cbn [all_chars] in Hw. apply andb_true_iff in Hw. destruct Hw as [Hc _].
    exists c, rest. split; [reflexivity|].
    unfold ends_word. rewrite Hc. reflexivity.
Qed.

Lemma piece_ok_start k p : piece_ok k p = true -> piece_ok KStart p = true.
Proof.
  destruct p as [lx|w]; cbn [piece_ok]; intros H;
    apply andb_true_iff in H; destruct H as [H _]; rewrite H; reflexivity.
Qed.

Lemma summary_completed l tag :
  map summary (completed l tag)
  = if tag =? JSON_SKIP then [] else [(token l, tag)].
Proof. unfold completed. destruct (tag =? JSON_SKIP); reflexivity. Qed.

Lemma skip_row s : In (s, JSON_SKIP) terminal_rows -> s = IN_WHITESPACE.
Proof.
  intros Hin. vm_compute in Hin.
  repeat (destruct Hin as [Hin|Hin];
          [inversion Hin; try reflexivity|]).
  contradiction.
Qed.

(** A piece, after what precedes it. *)
Lemma piece_lexed k l owed p :
  inv l -> between k l owed -> piece_ok k p = true ->
  exists l' out owed',
    json_lexer_feed 2 l (piece_text p) = Ok (l', out)
    /\ inv l'
    /\ between (piece_kind p) l' owed'
    /\ map summary out ++ owed' = owed ++ piece_tokens p.
Proof.
  intros [Hok Hlen] Hb Hp.
  pose proof (piece_ok_start k p Hp) as Hp0.
  assert (Hpend : forall tag,
            In (state l, tag) terminal_rows ->
            owed = (if tag =? JSON_SKIP then [] else [(token l, tag)]) ->
            (forall c rest, piece_text p = String c rest ->
               uint8 c <= 0x7F /\ overridden (state l) (uint8 c) = false) ->
            exists l' out owed',
              json_lexer_feed 2 l (piece_text p) = Ok (l', out)
              /\ inv l'
              /\ between (piece_kind p) l' owed'
              /\ map summary out ++ owed' = owed ++ piece_tokens p).
  { intros tag Hin Howed Hfirst.
    destruct (piece_first p Hp0) as (c & rest & Etext & _).
    destruct (Hfirst c rest Etext) as [Hle Hov].
    destruct (piece_from_start (reset l) p (lexer_okb_reset _ Hok) eq_refl Hp0)
      as (l' & out & owed' & Hf & I & _ & B & Hsum).
    rewrite Etext in Hf |- *.
    exists l', (completed (advance l c) tag ++ out), owed'.
    split; [apply (feed_after_pending l tag c rest _ Hok Hin Hle Hov Hf)|].
    split; [exact I|]. split; [exact B|].
    rewrite map_app, summary_completed, <- app_assoc, Hsum, Howed.
    destruct (advance_fields l c) as (_ & _ & ->). reflexivity. }
  destruct k; cbn [between] in Hb.
  - (* nothing pending *)
    destruct Hb as (Hs & _ & ->).
    destruct (piece_from_start l p Hok Hs Hp0)
      as (l' & out & owed' & Hf & I & _ & B & Hsum).
    exists l', out, owed'. auto.
  - (* after whitespace *)
    destruct Hb as (Hs & ->).
    apply (Hpend JSON_SKIP); [rewrite Hs; vm_compute; auto 10|reflexivity|].
    intros c rest Etext. rewrite Hs.
    destruct (piece_first p Hp0) as (c' & rest' & Etext' & Hc).
    rewrite Etext in Etext'. injection Etext' as <- <-.
    destruct p as [lx|w].
    + apply after_space_cells. apply Hc.
    + cbn [piece_ok] in Hp. rewrite andb_false_r in Hp. discriminate.
  - (* after a keyword or a number *)
    destruct Hb as (tag & Hin & Hns & ->).
    apply (Hpend tag Hin).
    + replace (tag =? JSON_SKIP) with false; [reflexivity|].
      symmetry. apply Z.eqb_neq. intros ->.
      apply Hns. apply (skip_row _ Hin).
    + intros c rest Etext.
      destruct (piece_first p Hp0) as (c' & rest' & Etext' & Hc).
      rewrite Etext in Etext'. injection Etext' as <- <-.
      apply (after_word_cells _ tag c Hin Hns).
      destruct p as [lx|w]; [|exact Hc].
      cbn [piece_ok] in Hp. apply andb_true_iff in Hp. destruct Hp as [_ Hw].
      apply negb_true_iff in Hw. apply Hc. exact Hw.
Qed.

Lemma stream_lexed : forall ps k l owed,
  inv l -> between k l owed -> stream_ok k ps = true ->
  exists l' out k' owed',
    json_lexer_feed 2 l (stream_text ps) = Ok (l', out)
    /\ inv l'
    /\ between k' l' owed'
    /\ map summary out ++ owed' = owed ++ stream_tokens ps.
Proof.
  induction ps as [|p rest IH]; intros k l owed I B Hok.
  - exists l, [], k, owed. cbn [stream_text stream_tokens map app].
    rewrite app_nil_r. auto.
  - cbn [stream_ok] in Hok. apply andb_true_iff in Hok.
    destruct Hok as [Hp Hrest].
    destruct (piece_lexed k l owed p I B Hp)
      as (l1 & o1 & owed1 & Hf1 & I1 & B1 & S1).
    destruct (IH _ _ _ I1 B1 Hrest) as (l2 & o2 & k2 & owed2 & Hf2 & I2 & B2 & S2).
    exists l2, (o1 ++ o2), k2, owed2.
    cbn [stream_text stream_tokens]. rewrite feed_app, Hf1.
    cbn [bind fst snd]. rewrite Hf2. cbn [bind fst snd].
    split; [reflexivity|]. split; [exact I2|]. split; [exact B2|].
    rewrite map_app, <- app_assoc, S2, app_assoc, S1, <- app_assoc.
    reflexivity.
Qed.

(** X16.  A stream of lexemes is lexed back into its lexemes.  Take
    keywords, numbers, strings and structural characters, with runs of
    whitespace between them wherever wanted, and at least between a
    keyword or number and a keyword or number that follows it.  Fed to a
    fresh lexer in one buffer and followed by a flush, the stream gives
    the consumer exactly one token per lexeme, in order, each with the
    text and the tag of its lexeme, and then the end-of-input token. *)
Theorem X16_lexeme_streams
  (fuel : nat) (interp : bool) (ps : list piece) :
  stream_ok KStart ps = true ->
  exists l out,
    run (S (S fuel)) (json_lexer_init interp) [Feed (stream_text ps); Flush]
    = Ok (l, out)
    /\ map summary out
       = stream_tokens ps ++ [(EmptyString, JSON_END_OF_INPUT)].
Proof.
  intros Hps.
  destruct (init_start interp) as (Hst & Hs & Ht & _ & _).
  destruct (stream_lexed ps KStart (json_lexer_init interp) []
              (init_inv interp)
              ltac:(cbn [between]; auto) Hps)
    as (l1 & o1 & k1 & owed1 & Hf & I1 & B1 & S1).
  cbn [app] in S1.
  assert (Hflush : exists l2 o2,
            json_lexer_flush 2 l1 = Ok (l2, o2)
            /\ map summary o2 = owed1 ++ [(EmptyString, JSON_END_OF_INPUT)]).
  { pose proof (lexer_okb_bounds _ (proj1 I1)) as Hb.
    pose proof (lexer_okb_start _ (proj1 I1)) as Hst1.
    assert (Hne15 : start_state l1 <> IN_WHITESPACE).
    { unfold is_start, IN_START, IN_START_INTERP in Hst1.
      unfold IN_WHITESPACE. lia. }
    destruct k1; cbn [between] in B1.
    - destruct B1 as (Hs1 & Ht1 & ->).
      eexists. eexists. split.
      + unfold json_lexer_flush. rewrite Hs1, Z.eqb_refl.
        cbn [negb bind fst snd]. reflexivity.
      + cbn. unfold summary. cbn. rewrite Ht1. reflexivity.
    - destruct B1 as (Hs1 & ->).
      eexists. eexists. split.
      + apply (flush_pending 1 l1 Hb). rewrite Hs1. congruence.
      + rewrite Hs1. reflexivity.
    - destruct B1 as (tag & Hin & Hns & ->).
      assert (Hnt : tag <> JSON_SKIP).
      { intros ->. apply Hns. apply (skip_row _ Hin). }
      assert (Hnst : state l1 <> start_state l1).
      { intros E. rewrite E in Hin.
        destruct (is_start_cases _ Hst1) as [E'|E']; rewrite E' in Hin;
          vm_compute in Hin; intuition discriminate. }
      eexists. eexists. split.
      + apply (flush_pending 1 l1 Hb Hnst).
      + rewrite (terminal_tag_at_end _ _ Hin). unfold completed.
        replace (tag =? JSON_SKIP) with false
          by (symmetry; apply Z.eqb_neq; exact Hnt).
        reflexivity. }
  destruct Hflush as (l2 & o2 & Hfl & S2).
  exists l2, (o1 ++ o2). rewrite two_plus. split.
  - apply run_fuel. rewrite run_cons. cbn [call]. rewrite Hf.
    cbn [bind fst snd]. rewrite run_single. cbn [call]. rewrite Hfl.
    reflexivity.
  - rewrite map_app, S2, app_assoc, S1. reflexivity.
Qed.

Lemma X16_lexeme_streams_witness :
  exists l out,
    run 2 (json_lexer_init false) [Feed (stream_text example_stream); Flush]
    = Ok (l, out)
    /\ map summary out
       = stream_tokens example_stream ++ [(EmptyString, JSON_END_OF_INPUT)].
Proof.
  apply (X16_lexeme_streams 0 false example_stream).
  vm_compute. reflexivity.
Defined.

(** ** How many tokens a byte can give *)

Lemma feed_char_two_tokens l ch flush l' out :
  inv l ->
  json_lexer_feed_char 2 l ch flush = Ok (l', out) ->
  (List.length out <= 2)%nat.
Proof.
  intros [Hok Hlen] H.
  assert (Hok' : lexer_okb (advance l ch) = true)
    by (rewrite lexer_okb_advance; exact Hok).
  unfold json_lexer_feed_char in H.
  apply bind_ok in H. destruct H as [e [He H]].
  assert (Hone : forall a ex a' o,
            lexer_okb a = true -> loop_body a ch flush = Ok (ex, a', o) ->
            (List.length o <= 1)%nat /\ lexer_okb a' = true).
  { intros a ex a' o Ha Hb.
    destruct (loop_body_ok a ch flush Ha) as [r [Hr Hp]].
    rewrite Hb in Hr. injection Hr as <-.
    destruct Hp as (_ & _ & _ & Hoka & _ & Hl & _). auto. }
  destruct (do_while_two _ _ _ _ He)
    as (ex & a' & o & Hex & El & Er & [[Hb Eo]|(l1 & o1 & Hb1 & Hb2 & Eo)]).
  - destruct (Hone _ _ _ _ Hok' Hb) as [L1 _].
    destruct (le_returned e).
    + injection H as _ <-. rewrite Eo. lia.
    + unfold check_size in H.
      destruct (len (token (le_lexer e)) >? MAX_TOKEN_SIZE);
        injection H as _ <-; rewrite Eo, length_app; cbn [List.length]; lia.
  - destruct (Hone _ _ _ _ Hok' Hb1) as [L1 Hok1].
    destruct (Hone _ _ _ _ Hok1 Hb2) as [L2 _].
    destruct (loop_body_tokens _ _ _ _ _ _ (lexer_okb_bounds _ Hok') Hb1)
      as (_ & _ & R).
    specialize (R eq_refl). subst l1.
    destruct (loop_body_tokens _ _ _ _ _ _
                (lexer_okb_bounds _ (lexer_okb_reset _ Hok')) Hb2)
      as (_ & L & _).
    cbn [reset token] in L. change (len EmptyString) with 0 in L.
    destruct (le_returned e).
    + injection H as _ <-. rewrite Eo, length_app. lia.
    + unfold check_size in H. rewrite El in H.
      destruct (Z.gtb_spec (len (token a')) MAX_TOKEN_SIZE) as [Hbig|_].
      * exfalso. assert (3 <= MAX_TOKEN_SIZE) by (vm_compute; discriminate).
        lia.
      * injection H as _ <-. rewrite Eo, !length_app. cbn [List.length]. lia.
Qed.

Lemma feed_two_tokens : forall buffer l l' out,
  inv l ->
  json_lexer_feed 2 l buffer = Ok (l', out) ->
  Z.of_nat (List.length out) <= 2 * len buffer.
Proof.
  induction buffer as [|ch rest IH]; intros l l' out Hinv H.
  - injection H as _ <-. cbn. change (len EmptyString) with 0. lia.
  - cbn [json_lexer_feed] in H.
    apply bind_ok in H. destruct H as [[l1 o1] [H1 H]].
    apply bind_ok in H. destruct H as [[l2 o2] [H2 H]].
    injection H as _ <-. cbn [fst snd] in *.
    destruct (feed_char_ok l ch false (proj1 Hinv)) as [r [Hr Hp]].
    rewrite H1 in Hr. injection Hr as <-.
    destruct Hp as (_ & I1 & _). cbn [fst] in I1.
    pose proof (feed_char_two_tokens _ _ _ _ _ Hinv H1) as L1.
    pose proof (IH _ _ _ I1 H2) as L2.
    rewrite length_app, len_String. lia.
Qed.

(** X17.  A byte gives the consumer at most two tokens: whatever calls
    were made on a fresh lexer before, a feed hands over at most twice as
    many tokens as it is given bytes, and a flush at most two. *)
Theorem X17_tokens_per_byte
  (interp : bool) (fuel : nat) (calls : list lexer_call) (buffer : string) :
  exists l out l1 o1 l2 o2,
    run (S (S fuel)) (json_lexer_init interp) calls = Ok (l, out)
    /\ json_lexer_feed (S (S fuel)) l buffer = Ok (l1, o1)
    /\ Z.of_nat (List.length o1) <= 2 * len buffer
    /\ json_lexer_flush (S (S fuel)) l = Ok (l2, o2)
    /\ (List.length o2 <= 2)%nat.
Proof.
  destruct (run_ok calls _ (init_inv interp)) as [[l out] (Hr & _ & I & _)].
  cbn [fst] in I.
  destruct (feed_ok buffer l I) as [[l1 o1] (Hf & _)].
  destruct (flush_ok l I) as (l2 & p2 & Hfl & _ & _ & _ & _ & Hl & _).
  exists l, out, l1, o1, l2,
    (p2 ++ [mkToken EmptyString JSON_END_OF_INPUT (x l2) (y l2)]).
  rewrite two_plus.
  split; [apply run_fuel; exact Hr|].
  split.
  { pose proof (run_fuel fuel 2 l [Feed buffer] (l1, o1)) as H.
    rewrite !run_single in H. apply H. exact Hf. }
  split; [apply (feed_two_tokens _ _ _ _ I Hf)|].
  split; [apply flush_fuel; exact Hfl|].
  rewrite length_app. cbn [List.length]. lia.
Qed.
